(** * tktok-view: the campaign simulator and the content-analysis client

    A shallow embedding of [App.tsx] (the React component that owns the
    campaign state and the 400 ms tick), [constants.ts] (the node registry)
    and [services/geminiService.ts] (the analysis client), followed by the
    properties of the written specification that were checked against them.

    Conventions of the embedding.
    - A React state hook [const [x, setX] = useState(v)] is a field [x] of
      the record [AppState]; [setX] is the field update.  An event handler
      runs to completion and its queued updates are applied before the next
      event, so a handler is a function [AppState -> AppState].
    - [Math.random()] and [new Date()] are inputs of the handler that reads
      them.  A random draw is a binary64 number in [[0, 1)].  The two draws
      of a tick that are only compared with 0.85 and multiplied by 4, which
      binary64 does without rounding, are given by their exact value, a
      rational; the two that are scaled by 100 and by 25 are given as
      binary64 numbers and are scaled in binary64.
    - View counts are JavaScript numbers holding integers; they are [Z] here
      and are added and compared as integers, which is what the code does as
      long as the target is a safe integer (at most [2^53 - 1]); the
      properties of the counter are stated for such targets.  The progress
      percentage is computed by a division and a multiplication of binary64
      numbers followed by [Math.floor]; that computation is kept in
      binary64 ([SpecFloat], [prec = 53], [emax = 1024]).
    - The [useEffect] that owns the interval timer is run after every
      handler; whether a timer is live is a field of [World].
    - A render that throws takes the component down (there is no error
      boundary): the event that leads to it has the result [Crash]. *)

From Stdlib Require Import ZArith QArith Qround List String Ascii Bool Lia.
From Stdlib Require Import SpecFloat DecimalString.
Import ListNotations.

Set Warnings "-register-all".
Open Scope string_scope.
Open Scope Z_scope.

(* ================================================================= *)
(** ** JavaScript numbers and strings *)

Module JSNumber.

(** binary64 *)
Definition prec : Z := 53.
Definition emax : Z := 1024.

(** The binary64 number nearest to an integer (ties to even). *)
Definition of_Z (z : Z) : spec_float := binary_normalize prec emax z 0 false.

(** [x / y], [x * y] and [x + y] on numbers. *)
Definition div (x y : spec_float) : spec_float := SFdiv prec emax x y.
Definition mul (x y : spec_float) : spec_float := SFmul prec emax x y.
Definition add (x y : spec_float) : spec_float := SFadd prec emax x y.

(** [Math.floor(x)]: the integer it returns, [None] when the result is
    [NaN] or an infinity. *)
Definition Math_floor (x : spec_float) : option Z :=
  match x with
  | S754_zero _ => Some 0
  | S754_finite s m e =>
      let v := if s then Zneg m else Zpos m in
      Some (if 0 <=? e then Z.shiftl v e else Z.shiftr v (- e))
  | S754_infinity _ | S754_nan => None
  end.

(** [Math.floor(x)] where an integer is needed.  [NaN] and the infinities
    have none and are sent to 0; what is floored below is computed from a
    draw of [Math.random()] and is finite (lemmas [floor_mul_25] and
    [floor_latency]). *)
Definition floor (x : spec_float) : Z :=
  match Math_floor x with
  | Some z => z
  | None => 0
  end.

(** [Number.MAX_SAFE_INTEGER]: the integers up to it are binary64 numbers,
    and so are their sums and differences that stay below it. *)
Definition MAX_SAFE_INTEGER : Z := 2 ^ 53 - 1.

(** [String(n)] / [`${n}`] for an integer below [1e21]: its decimal digits. *)
Definition toString (z : Z) : string := NilZero.string_of_int (Z.to_int z).

(** The exact value of a finite number (0 for the others). *)
Definition to_Q (x : spec_float) : Q :=
  match x with
  | S754_finite s m e =>
      let v := if s then Zneg m else Zpos m in
      if 0 <=? e then inject_Z (v * 2 ^ e) else v # Z.to_pos (2 ^ (- e))
  | S754_zero _ | S754_infinity _ | S754_nan => 0
  end.

(** [Math.floor(x)] for a real [x]. *)
Definition Math_floor_Q (x : Q) : Z := Qfloor x.

(** [x > y] on reals. *)
Definition gtb (x y : Q) : bool := negb (Qle_bool x y).

(** What [Math.random()] may return: a real in [[0, 1)] ... *)
Definition is_random (r : Q) : Prop := (0 <= r)%Q /\ (r < 1)%Q.

(** ... which is a binary64 number: [+0], or a positive number below 1. *)
Definition random_number (x : spec_float) : bool :=
  match x with
  | S754_zero s => negb s
  | S754_finite s m e => negb s && bounded prec emax m e && (Zpos m <? 2 ^ (- e))
  | S754_infinity _ | S754_nan => false
  end.

Definition is_random_number (x : spec_float) : Prop := random_number x = true.

End JSNumber.

Module JSString.

(** [s.includes(sub)] *)
Fixpoint includes (s sub : string) : bool :=
  if String.prefix sub s then true
  else match s with
       | EmptyString => false
       | String _ s' => includes s' sub
       end.

(** [\d] *)
Definition is_digit (c : ascii) : bool :=
  ((48 <=? nat_of_ascii c) && (nat_of_ascii c <=? 57))%nat.

(** The longest run of digits at the head of [s] (a greedy [\d*]). *)
Fixpoint digits (s : string) : string :=
  match s with
  | EmptyString => EmptyString
  | String c s' => if is_digit c then String c (digits s') else EmptyString
  end.

(** [s] without its prefix [p], when it has it. *)
Fixpoint strip_prefix (p s : string) : option string :=
  match p with
  | EmptyString => Some s
  | String a p' =>
      match s with
      | EmptyString => None
      | String b s' => if Ascii.eqb a b then strip_prefix p' s' else None
      end
  end.

(** [[...l].slice(-n)]: the last [n] elements, all of them when there are
    fewer. *)
Definition slice_last {A : Type} (n : nat) (l : list A) : list A :=
  skipn (List.length l - n) l.

(** [l[i]]: [None] is [undefined]. *)
Definition index {A : Type} (l : list A) (i : Z) : option A :=
  if i <? 0 then None else nth_error l (Z.to_nat i).

End JSString.

(* ================================================================= *)
(** ** types.ts *)

Module Types.

Inductive BoostStatus : Set := IDLE | PROCESSING | COMPLETED | ERROR.

Inductive NodeStatus : Set := online | busy | offline.

Record ServerNode : Set := {
  id : string;
  name : string;
  region : string;
  status : NodeStatus;
  load : Z
}.

Inductive LogType : Set := info | success | warning | error.

Record LogEntry : Set := {
  timestamp : string;
  message : string;
  type : LogType
}.

(** A parsed JSON value, as [JSON.parse] returns it.  An object is its
    list of properties. *)
Inductive json : Type :=
| JNull
| JBool (b : bool)
| JNumber (q : Q)
| JString (s : string)
| JArray (l : list json)
| JObject (props : list (string * json)).

(** [ViralAnalysis].  The declared field types ([number], [string[]],
    [string]) are not checked at run time, so a field holds whatever value
    the parsed response had there. *)
Record ViralAnalysis : Type := {
  score : json;
  recommendations : json;
  estimatedReach : json
}.

Definition BoostStatus_eqb (a b : BoostStatus) : bool :=
  match a, b with
  | IDLE, IDLE | PROCESSING, PROCESSING | COMPLETED, COMPLETED | ERROR, ERROR => true
  | _, _ => false
  end.

End Types.

(* ================================================================= *)
(** ** constants.ts *)

Module Constants.
Import Types.

Definition us_east_1 : ServerNode :=
  {| id := "us-east-1"; name := "Phoenix-Alpha"; region := "North America";
     status := online; load := 45 |}.
Definition eu_west_1 : ServerNode :=
  {| id := "eu-west-1"; name := "Berlin-Beta"; region := "Europe";
     status := online; load := 12 |}.
Definition ap_southeast_1 : ServerNode :=
  {| id := "ap-southeast-1"; name := "Singapore-Gamma"; region := "Asia Pacific";
     status := online; load := 88 |}.
Definition br_south_1 : ServerNode :=
  {| id := "br-south-1"; name := "Sao-Paulo-Delta"; region := "South America";
     status := busy; load := 95 |}.
Definition jp_tokyo_1 : ServerNode :=
  {| id := "jp-tokyo-1"; name := "Tokyo-Epsilon"; region := "East Asia";
     status := online; load := 22 |}.

Definition SERVER_NODES : list ServerNode :=
  [us_east_1; eu_west_1; ap_southeast_1; br_south_1; jp_tokyo_1].

Definition VIEW_PRESETS : list Z := [500; 1000; 5000; 10000].

End Constants.

(* ================================================================= *)
(** ** services/geminiService.ts *)

Module GeminiService.
Import Types.

(** The built-in [JSON.parse]: [None] is the [SyntaxError] it throws on a
    text that is not JSON. *)
Class Builtins : Type := { JSON_parse : string -> option json }.

(** How [await ai.models.generateContent(...)] ends: it throws (network
    error, service error, missing credential), or it yields a response
    whose [text] is a string or [undefined]. *)
Inductive ServiceOutcome : Type :=
| Throws
| Responds (text : option string).

(** Truthiness of a value, for [v || d]. *)
Definition truthy (v : json) : bool :=
  match v with
  | JNull => false
  | JBool b => b
  | JNumber q => negb (Qeq_bool q 0)
  | JString s => negb (String.eqb s "")
  | JArray _ | JObject _ => true
  end.

(** [v || d] where [v] may be [undefined]. *)
Definition or_else (v : option json) (d : json) : json :=
  match v with
  | Some x => if truthy x then x else d
  | None => d
  end.

Fixpoint lookup (key : string) (props : list (string * json)) : option json :=
  match props with
  | [] => None
  | (k, v) :: rest => if String.eqb k key then Some v else lookup key rest
  end.

(** [result.key] for a key that no built-in prototype defines (the three
    keys read below).  The outer [None] is the [TypeError] of reading a
    property of [null]; the inner [None] is [undefined]. *)
Definition get (result : json) (key : string) : option (option json) :=
  match result with
  | JNull => None
  | JObject props => Some (lookup key props)
  | JBool _ | JNumber _ | JString _ | JArray _ => Some None
  end.

(** The object returned from the [catch] block. *)
Definition fallback : ViralAnalysis :=
  {| score := JNumber 0;
     recommendations :=
       JArray [JString "Ensure high lighting"; JString "Use trending sounds";
               JString "Post at peak hours"];
     estimatedReach := JString "N/A" |}.

(** [response.text || "{}"] *)
Definition text_or_empty_object (text : option string) : string :=
  match text with
  | Some t => if String.eqb t "" then "{}" else t
  | None => "{}"
  end.

(** [analyzeTikTokContent(videoUrl)], given how the service call ends.  The
    promise it returns always resolves, to the value computed here. *)
Definition analyzeTikTokContent `{Builtins} (videoUrl : string)
    (outcome : ServiceOutcome) : ViralAnalysis :=
  match outcome with
  | Throws => fallback
  | Responds text =>
      match JSON_parse (text_or_empty_object text) with
      | None => fallback
      | Some result =>
          match get result "score", get result "recommendations",
                get result "estimatedReach" with
          | Some s, Some r, Some e =>
              {| score := or_else s (JNumber 0);
                 recommendations := or_else r (JArray []);
                 estimatedReach := or_else e (JString "Unknown") |}
          | _, _, _ => fallback
          end
      end
  end.

End GeminiService.

(* ================================================================= *)
(** ** App.tsx *)

Module App.
Import Types Constants GeminiService.

(** The [useState] hooks of the component.  [progress] is [None] when the
    number stored is [NaN] or an infinity. *)
Record AppState : Type := {
  videoUrl : string;
  targetViews : Z;
  currentViews : Z;
  status : BoostStatus;
  logs : list LogEntry;
  activeServer : ServerNode;
  analysis : option ViralAnalysis;
  isAnalyzing : bool;
  progress : option Z
}.

Definition setVideoUrl (v : string) (s : AppState) : AppState :=
  {| videoUrl := v; targetViews := targetViews s; currentViews := currentViews s;
     status := status s; logs := logs s; activeServer := activeServer s;
     analysis := analysis s; isAnalyzing := isAnalyzing s; progress := progress s |}.

Definition setTargetViews (v : Z) (s : AppState) : AppState :=
  {| videoUrl := videoUrl s; targetViews := v; currentViews := currentViews s;
     status := status s; logs := logs s; activeServer := activeServer s;
     analysis := analysis s; isAnalyzing := isAnalyzing s; progress := progress s |}.

Definition setCurrentViews (v : Z) (s : AppState) : AppState :=
  {| videoUrl := videoUrl s; targetViews := targetViews s; currentViews := v;
     status := status s; logs := logs s; activeServer := activeServer s;
     analysis := analysis s; isAnalyzing := isAnalyzing s; progress := progress s |}.

Definition setStatus (v : BoostStatus) (s : AppState) : AppState :=
  {| videoUrl := videoUrl s; targetViews := targetViews s; currentViews := currentViews s;
     status := v; logs := logs s; activeServer := activeServer s;
     analysis := analysis s; isAnalyzing := isAnalyzing s; progress := progress s |}.

Definition setLogs (v : list LogEntry) (s : AppState) : AppState :=
  {| videoUrl := videoUrl s; targetViews := targetViews s; currentViews := currentViews s;
     status := status s; logs := v; activeServer := activeServer s;
     analysis := analysis s; isAnalyzing := isAnalyzing s; progress := progress s |}.

Definition setActiveServer (v : ServerNode) (s : AppState) : AppState :=
  {| videoUrl := videoUrl s; targetViews := targetViews s; currentViews := currentViews s;
     status := status s; logs := logs s; activeServer := v;
     analysis := analysis s; isAnalyzing := isAnalyzing s; progress := progress s |}.

Definition setAnalysis (v : option ViralAnalysis) (s : AppState) : AppState :=
  {| videoUrl := videoUrl s; targetViews := targetViews s; currentViews := currentViews s;
     status := status s; logs := logs s; activeServer := activeServer s;
     analysis := v; isAnalyzing := isAnalyzing s; progress := progress s |}.

Definition setIsAnalyzing (v : bool) (s : AppState) : AppState :=
  {| videoUrl := videoUrl s; targetViews := targetViews s; currentViews := currentViews s;
     status := status s; logs := logs s; activeServer := activeServer s;
     analysis := analysis s; isAnalyzing := v; progress := progress s |}.

Definition setProgress (v : option Z) (s : AppState) : AppState :=
  {| videoUrl := videoUrl s; targetViews := targetViews s; currentViews := currentViews s;
     status := status s; logs := logs s; activeServer := activeServer s;
     analysis := analysis s; isAnalyzing := isAnalyzing s; progress := v |}.

(** The state of the first render: the initial value of every hook. *)
Definition initial : AppState :=
  {| videoUrl := ""; targetViews := 500; currentViews := 0; status := IDLE;
     logs := []; activeServer := us_east_1; analysis := None;
     isAnalyzing := false; progress := Some 0 |}.

(** [getTikTokId]: the first capture of [/\/video\/(\d+)/], the digits that
    follow the leftmost ["/video/"] that is followed by a digit. *)
Fixpoint getTikTokId (url : string) : option string :=
  let here :=
    match JSString.strip_prefix "/video/" url with
    | Some rest =>
        match JSString.digits rest with
        | EmptyString => None
        | ds => Some ds
        end
    | None => None
    end in
  match here with
  | Some ds => Some ds
  | None =>
      match url with
      | EmptyString => None
      | String _ url' => getTikTokId url'
      end
  end.

(** [addLog(message, type)], called when the clock reads [now]. *)
Definition addLog (now message : string) (type : LogType) (s : AppState) : AppState :=
  let newLog := {| timestamp := now; message := message; type := type |} in
  setLogs (JSString.slice_last 100 (logs s ++ [newLog])) s.

(** What one run of the interval callback reads from [Math.random()], in
    the order of the calls, and from the clock.  The second and third draws
    are made only when the first one triggers a rotation.  The first draw
    is compared with 0.85 and the second is multiplied by 4: both are exact
    on binary64 numbers, and these draws are given by their value.  The
    third and the fourth are multiplied by 100 and by 25, which rounds:
    they are given as the binary64 numbers they are. *)
Record TickDraws : Type := {
  r_rotation : Q;
  r_pick : Q;
  r_latency : spec_float;
  r_increment : spec_float;
  now : string
}.

Definition valid_draws (d : TickDraws) : Prop :=
  JSNumber.is_random (r_rotation d) /\ JSNumber.is_random (r_pick d) /\
  JSNumber.is_random_number (r_latency d) /\ JSNumber.is_random_number (r_increment d).

(** [SERVER_NODES.filter(s => s.id !== activeServer.id)] *)
Definition availableServers (s : AppState) : list ServerNode :=
  filter (fun n => negb (String.eqb (id n) (id (activeServer s)))) SERVER_NODES.

(** [Math.floor(Math.random() * availableServers.length)] *)
Definition pick_index (d : TickDraws) (s : AppState) : Z :=
  JSNumber.Math_floor_Q (r_pick d * inject_Z (Z.of_nat (List.length (availableServers s)))).

(** [Math.floor(Math.random() * 25) + 10]: the product is the binary64
    one. *)
Definition increment (d : TickDraws) : Z :=
  JSNumber.floor (JSNumber.mul (r_increment d) (JSNumber.of_Z 25)) + 10.

(** [Math.floor((nextVal / targetViews) * 100)] *)
Definition percent (nextVal targetViews : Z) : option Z :=
  JSNumber.Math_floor
    (JSNumber.mul (JSNumber.div (JSNumber.of_Z nextVal) (JSNumber.of_Z targetViews))
                  (JSNumber.of_Z 100)).

Definition success_message (targetViews : Z) : string :=
  "Task successful: " ++ JSNumber.toString targetViews ++ " views distributed across "
  ++ JSNumber.toString (Z.of_nat (List.length SERVER_NODES)) ++ " nodes.".

(** The handoff entry; its latency is
    [Math.floor(Math.random() * 100 + 20)], product and sum in binary64. *)
Definition handoff_message (nextServer : ServerNode) (d : TickDraws) : string :=
  "Handoff to " ++ name nextServer ++ " (" ++ region nextServer ++ ") - Latency: "
  ++ JSNumber.toString
       (JSNumber.floor
          (JSNumber.add (JSNumber.mul (r_latency d) (JSNumber.of_Z 100))
                        (JSNumber.of_Z 20)))
  ++ "ms".

(** The server rotation of one tick.  [None] is the [TypeError] thrown by
    [nextServer.name] when [nextServer] is [undefined]. *)
Definition rotate (d : TickDraws) (s : AppState) : option AppState :=
  if JSNumber.gtb (r_rotation d) (85 # 100) then
    match JSString.index (availableServers s) (pick_index d s) with
    | Some nextServer =>
        Some (addLog (now d) (handoff_message nextServer d) info
                (setActiveServer nextServer s))
    | None => None
    end
  else Some s.

(** One run of the interval callback: the updater given to
    [setCurrentViews] with the updates it queues.  The boolean tells whether
    the callback called [clearInterval]; [None] is a thrown [TypeError].
    The counts are integers: [prev + increment] and the comparisons are
    those of the code when [targetViews] is a safe integer (the sum of two
    binary64 integers is rounded only above [2 ^ 53], where [Math.min]
    returns the target in any case). *)
Definition tick (d : TickDraws) (s : AppState) : option (AppState * bool) :=
  let prev := currentViews s in
  if targetViews s <=? prev then
    Some (setCurrentViews (targetViews s)
            (addLog (now d) (success_message (targetViews s)) success
               (setStatus COMPLETED s)),
          true)
  else
    match rotate d s with
    | None => None
    | Some s1 =>
        let nextVal := Z.min (prev + increment d) (targetViews s) in
        Some (setCurrentViews nextVal (setProgress (percent nextVal (targetViews s)) s1),
              false)
    end.

(** [!videoUrl || !videoUrl.includes('tiktok.com')] *)
Definition invalid_source (url : string) : bool :=
  String.eqb url "" || negb (JSString.includes url "tiktok.com").

(** [handleStartBoost], with the clock readings of its three log calls (an
    invalid source makes one call only).  The second component is the list
    of URLs for which an analysis request was sent. *)
Definition handleStartBoost (t1 t2 t3 : string) (s : AppState) : AppState * list string :=
  if invalid_source (videoUrl s) then
    (addLog t1 "Invalid source: Please provide a valid TikTok video link." error s, [])
  else
    let resource :=
      match getTikTokId (videoUrl s) with
      | Some i => if String.eqb i "" then "Generic_Stream" else i
      | None => "Generic_Stream"
      end in
    let s := setStatus PROCESSING s in
    let s := setCurrentViews 0 s in
    let s := setProgress (Some 0) s in
    let s := setAnalysis None s in
    let s := addLog t1 "Initiating View Distribution Protocol..." info s in
    let s := addLog t2 ("Targeting Resource ID: " ++ resource) info s in
    let s := addLog t3 ("Load balancing across "
                        ++ JSNumber.toString (Z.of_nat (List.length SERVER_NODES))
                        ++ " global relay points.") info s in
    let s := setIsAnalyzing true s in
    (s, [videoUrl s]).

(** The [then] callback of the analysis promise.  (The [catch] callback
    next to it runs when the promise rejects or the [then] callback throws;
    the promise of [analyzeTikTokContent] always resolves and the callback
    only queues updates.) *)
Definition analysisResolved (now : string) (res : ViralAnalysis) (s : AppState) : AppState :=
  addLog now "Content patterns analyzed. Viral score updated in dashboard." success
    (setIsAnalyzing false (setAnalysis (Some res) s)).

(** [handleReset] *)
Definition handleReset (now : string) (s : AppState) : AppState :=
  let s := setStatus IDLE s in
  let s := setCurrentViews 0 s in
  let s := setProgress (Some 0) s in
  let s := setLogs [] s in
  let s := setAnalysis None s in
  addLog now "Dashboard synchronized. Ready for next campaign." info s.

(** *** The component at run time

    Besides the hooks, the running component has the interval timer of the
    effect (live or not) and the analysis requests still in flight (the URL
    each was sent for). *)
Record World : Type := {
  app : AppState;
  interval : bool;
  pending : list string
}.

Definition mount : World :=
  {| app := initial; interval := false; pending := [] |}.

(** Whether a dependency of the effect, [[status, targetViews, addLog,
    activeServer.id]], differs between two renders ([addLog] never does). *)
Definition deps_changed (old new : AppState) : bool :=
  negb (BoostStatus_eqb (status old) (status new)
        && (targetViews old =? targetViews new)
        && String.eqb (id (activeServer old)) (id (activeServer new))).

(** The effect after a render: when a dependency changed, the cleanup
    clears the timer of the previous run and the body sets a new one if the
    status is [PROCESSING]; otherwise the timer is left as the handler left
    it. *)
Definition useEffect (old new : AppState) (live : bool) : bool :=
  if deps_changed old new then BoostStatus_eqb (status new) PROCESSING else live.

Inductive Event : Type :=
| TypeUrl (url : string)
| TypeTarget (n : Z)
| ClickPreset (k : nat)
| ClickStart (t1 t2 t3 : string)
| ClickAbort (now : string)
| TimerFires (d : TickDraws)
| AnalysisSettles (k : nat) (outcome : ServiceOutcome) (now : string).

Inductive Result : Type :=
| Next (w : World)
| NotEnabled
| Crash.

(** Whether React draws a value given as a child: it draws text and
    numbers, nothing for [null] and the booleans, the elements of an array,
    and it throws on an object ("Objects are not valid as a React
    child"). *)
Fixpoint renderable (v : json) : bool :=
  match v with
  | JNull | JBool _ | JNumber _ | JString _ => true
  | JArray l => forallb renderable l
  | JObject _ => false
  end.

(** Whether the analysis panel can be drawn from an analysis: the score
    and the reach are children of a paragraph, and
    [analysis.recommendations.map(...)], which makes each recommendation a
    child, throws a [TypeError] unless [recommendations] is an array. *)
Definition panel_renders (a : ViralAnalysis) : bool :=
  renderable (score a) && renderable (estimatedReach a)
  && match recommendations a with
     | JArray recs => forallb renderable recs
     | _ => false
     end.

(** The render after a handler, and the effect after the render.  The
    analysis panel is the one part of the render that can throw; it is drawn
    from [analysis] while [isAnalyzing] is false, and the one handler that
    stores an analysis is the callback of the analysis promise, which also
    lowers [isAnalyzing]: that render is checked in [step].  (In every
    state the component can be in, the panel can be drawn from the analysis
    it holds, as is proved below.) *)
Definition render (w : World) (new : AppState) (live : bool) (reqs : list string) : Result :=
  Next {| app := new; interval := useEffect (app w) new live; pending := reqs |}.

Fixpoint remove_nth {A : Type} (k : nat) (l : list A) : list A :=
  match l, k with
  | [], _ => []
  | _ :: l', O => l'
  | x :: l', S k' => x :: remove_nth k' l'
  end.

(** One event of the running component.  The two inputs and the presets
    are disabled while the status is [PROCESSING]; the start button is
    rendered unless the status is [PROCESSING], and the abort button (the
    only caller of [handleReset]) when it is; the timer fires only while it
    is live; when an analysis request settles, the render that follows
    draws the panel from its result, and throws if it cannot. *)
Definition step `{Builtins} (w : World) (e : Event) : Result :=
  let s := app w in
  let processing := BoostStatus_eqb (status s) PROCESSING in
  match e with
  | TypeUrl url =>
      if processing then NotEnabled
      else render w (setVideoUrl url s) (interval w) (pending w)
  | TypeTarget n =>
      if processing then NotEnabled
      else render w (setTargetViews n s) (interval w) (pending w)
  | ClickPreset k =>
      if processing then NotEnabled
      else match nth_error VIEW_PRESETS k with
           | Some preset => render w (setTargetViews preset s) (interval w) (pending w)
           | None => NotEnabled
           end
  | ClickStart t1 t2 t3 =>
      if processing then NotEnabled
      else let '(s', reqs) := handleStartBoost t1 t2 t3 s in
           render w s' (interval w) (pending w ++ reqs)
  | ClickAbort now =>
      if processing then render w (handleReset now s) (interval w) (pending w)
      else NotEnabled
  | TimerFires d =>
      if interval w then
        match tick d s with
        | Some (s', cleared) =>
            render w s' (if cleared then false else interval w) (pending w)
        | None => Crash
        end
      else NotEnabled
  | AnalysisSettles k outcome now =>
      match nth_error (pending w) k with
      | Some url =>
          let res := analyzeTikTokContent url outcome in
          if panel_renders res
          then render w (analysisResolved now res s) (interval w) (remove_nth k (pending w))
          else Crash
      | None => NotEnabled
      end
  end.

(** The events that can occur: what a timer callback reads from
    [Math.random()] is a number in [[0, 1)], and the number typed as a
    target is a safe integer, of either sign (the field sets no bounds). *)
Definition possible (e : Event) : Prop :=
  match e with
  | TimerFires d => valid_draws d
  | TypeTarget n => - JSNumber.MAX_SAFE_INTEGER <= n <= JSNumber.MAX_SAFE_INTEGER
  | _ => True
  end.

(** The states the component can be in. *)
Inductive reachable `{Builtins} : World -> Prop :=
| reachable_mount : reachable mount
| reachable_step : forall w e w',
    reachable w -> possible e -> step w e = Next w' -> reachable w'.

(** The tick loop: the timer fires, once per element of [ds], for as long
    as it is live. *)
Fixpoint tick_loop `{Builtins} (ds : list TickDraws) (w : World) : Result :=
  match ds with
  | [] => Next w
  | d :: ds' =>
      if interval w then
        match step w (TimerFires d) with
        | Next w' => tick_loop ds' w'
        | r => r
        end
      else Next w
  end.

(** A trace of events, from left to right. *)
Fixpoint run `{Builtins} (es : list Event) (w : World) : Result :=
  match es with
  | [] => Next w
  | e :: es' =>
      match step w e with
      | Next w' => run es' w'
      | r => r
      end
  end.

(** The state line of a registry node in the network grid:
    [activeServer.id === node.id ? 'ROUTING_VIEWS...' : 'STDBY_READY']. *)
Definition nodeLabel (s : AppState) (node : ServerNode) : string :=
  if String.eqb (id (activeServer s)) (id node) then "ROUTING_VIEWS..." else "STDBY_READY".

(** [SERVER_NODES.map(node => ...)]: the state lines of the grid, in order. *)
Definition networkGrid (s : AppState) : list string :=
  map (nodeLabel s) SERVER_NODES.

(** [addLog] called once per entry of [entries], in order. *)
Definition addLogs (entries : list LogEntry) (s : AppState) : AppState :=
  fold_left (fun s entry => addLog (timestamp entry) (message entry) (type entry) s)
            entries s.

End App.

(* ================================================================= *)
(** * Vocabulary of the properties *)

Import Types Constants GeminiService App.
Open Scope list_scope.
Open Scope Z_scope.

(** A number that is neither a zero nor [NaN]. *)
Definition nonzero (x : spec_float) : Prop :=
  match x with
  | S754_finite _ _ _ | S754_infinity _ => True
  | S754_zero _ | S754_nan => False
  end.

(** What holds of the component in every state it can be in. *)
Record invariant (w : World) : Prop := {
  inv_status : status (app w) <> ERROR;
  inv_server : In (activeServer (app w)) SERVER_NODES;
  inv_logs : (List.length (logs (app w)) <= 100)%nat;
  inv_timer : interval w = BoostStatus_eqb (status (app w)) PROCESSING;
  inv_counter :
    status (app w) = PROCESSING ->
    0 <= currentViews (app w) /\
    (0 <= targetViews (app w) -> currentViews (app w) <= targetViews (app w));
  inv_progress :
    status (app w) = PROCESSING -> 0 < targetViews (app w) ->
    progress (app w) = percent (currentViews (app w)) (targetViews (app w));
  inv_target :
    - JSNumber.MAX_SAFE_INTEGER <= targetViews (app w) <= JSNumber.MAX_SAFE_INTEGER
}.

(** A campaign that ran to its end: the timer is cleared, the status is
    [COMPLETED], the counter stands at the target and the last log entry
    is the success message. *)
Definition completed (target : Z) (w : World) : Prop :=
  interval w = false /\
  status (app w) = COMPLETED /\
  currentViews (app w) = target /\
  targetViews (app w) = target /\
  exists older stamp,
    logs (app w) =
    older ++ [{| timestamp := stamp; message := success_message target; type := success |}].

(** The events that update the counter: a tick, a start that passes the
    validation, a reset. *)
Definition counter_update (e : Event) (s : AppState) : Prop :=
  match e with
  | TimerFires _ | ClickAbort _ => True
  | ClickStart _ _ _ => invalid_source (videoUrl s) = false
  | _ => False
  end.

(** The entry logged by a start whose source is rejected. *)
Definition invalid_source_entry (now : string) : LogEntry :=
  {| timestamp := now;
     message := "Invalid source: Please provide a valid TikTok video link.";
     type := error |}.

(** The entry logged by a reset. *)
Definition reset_entry (now : string) : LogEntry :=
  {| timestamp := now;
     message := "Dashboard synchronized. Ready for next campaign.";
     type := info |}.

(** An append to a bounded history: the new history is [kept ++ added],
    where [kept] is the old history without its [evicted] oldest entries,
    at most three entries are added, and entries are evicted only when the
    new history is full. *)
Definition appended (old new : list LogEntry) : Prop :=
  exists evicted kept added,
    old = evicted ++ kept /\ new = kept ++ added /\
    (List.length added <= 3)%nat /\
    (evicted = [] \/ List.length new = 100%nat).

(** What an event does to the log history: the abort button leaves the one
    entry of the reset; every other event appends. *)
Definition log_change (e : Event) (old new : list LogEntry) : Prop :=
  match e with
  | ClickAbort now => new = [reset_entry now]
  | _ => appended old new
  end.

(** How the analysis request can fail: the call throws, or the response
    has a text, not the empty one, that is not JSON or is the JSON
    [null]. *)
Definition service_failure `{Builtins} (outcome : ServiceOutcome) : Prop :=
  outcome = Throws \/
  exists text,
    outcome = Responds (Some text) /\ text <> "" /\
    (JSON_parse text = None \/ JSON_parse text = Some JNull).

(** *** Concrete inputs, for the examples *)

(** A [JSON.parse] that knows the five shortest JSON texts (and rejects
    the empty text, as it must). *)
Definition literal_parser : Builtins :=
  {| JSON_parse := fun text =>
       if String.eqb text "{}" then Some (JObject [])
       else if String.eqb text "[]" then Some (JArray [])
       else if String.eqb text "null" then Some JNull
       else if String.eqb text "true" then Some (JBool true)
       else if String.eqb text "false" then Some (JBool false)
       else None |}.

(** A link that passes the validation of the start. *)
Definition demo_url : string := "https://www.tiktok.com/@someone/video/7301".

(** Draws that trigger a rotation (0.9 > 0.85), pick candidate 2, and give
    the latency 53 (from [1 / 3]) and the increment 28 (from [3 / 4]). *)
Definition demo_draws : TickDraws :=
  {| r_rotation := 9 # 10; r_pick := 1 # 2;
     r_latency := JSNumber.div (JSNumber.of_Z 1) (JSNumber.of_Z 3);
     r_increment := JSNumber.div (JSNumber.of_Z 3) (JSNumber.of_Z 4);
     now := "12:00:00" |}.

(** The component after the user typed a link and a target of 20 views. *)
Definition demo_ready : World :=
  {| app := setTargetViews 20 (setVideoUrl demo_url initial);
     interval := false; pending := [] |}.

(** The same, as events from the first render, followed by a start. *)
Definition demo_campaign : list Event :=
  [TypeUrl demo_url; TypeTarget 20; ClickStart "09:00:00" "09:00:00" "09:00:01"].

(** A campaign started with a target of -5 views, from the first render. *)
Definition negative_campaign : list Event :=
  [TypeUrl demo_url; TypeTarget (-5); ClickStart "09:00:00" "09:00:00" "09:00:01"].

(** The world an event led to (the first render when it led to none). *)
Definition world_of (r : Result) : World :=
  match r with
  | Next w => w
  | _ => mount
  end.

(** The demo campaign just started ... *)
Definition demo_started : World := world_of (@run literal_parser demo_campaign mount).

(** ... and after the first tick of that campaign. *)
Definition demo_ticked : World :=
  world_of (@step literal_parser demo_started (TimerFires demo_draws)).

(** The campaign with the negative target just started, and after its
    first tick. *)
Definition negative_started : World :=
  world_of (@run literal_parser negative_campaign mount).

Definition negative_ticked : World :=
  world_of (@step literal_parser negative_started (TimerFires demo_draws)).

(** *** Vocabulary of the further properties *)

(** Whether an id starts right at the head of [s]: ["/video/"] and a digit. *)
Definition id_here (s : string) : Prop :=
  exists c rest, s = ("/video/" ++ String c rest)%string /\ JSString.is_digit c = true.

(** The three entries logged by a start that passes the validation. *)
Definition start_entries (t1 t2 t3 url : string) : list LogEntry :=
  [ {| timestamp := t1; message := "Initiating View Distribution Protocol...";
       type := info |};
    {| timestamp := t2;
       message := ("Targeting Resource ID: "
                   ++ match getTikTokId url with
                      | Some i => i
                      | None => "Generic_Stream"
                      end)%string;
       type := info |};
    {| timestamp := t3; message := "Load balancing across 5 global relay points.";
       type := info |} ].

(** The entry logged when the analysis promise resolves. *)
Definition analysis_entry (now : string) : LogEntry :=
  {| timestamp := now;
     message := "Content patterns analyzed. Viral score updated in dashboard.";
     type := success |}.

(** What a response without any usable field is turned into. *)
Definition defaults : ViralAnalysis :=
  {| score := JNumber 0; recommendations := JArray []; estimatedReach := JString "Unknown" |}.

(** A record that stands for an exact multiple of [2 ^ j]. *)
Definition exact_multiple (j : Z) (mrs : shr_record) : Prop :=
  shr_r mrs = false /\ shr_s mrs = false /\ 0 <= shr_m mrs /\ (2 ^ j | shr_m mrs).

(** Draws that trigger no rotation and give the increment 10. *)
Definition quiet_draws : TickDraws :=
  {| r_rotation := 1 # 2; r_pick := 0; r_latency := S754_zero false;
     r_increment := S754_zero false; now := "12:00:00" |}.

(** The binary64 numbers [0.12] and [0.03]. *)
Definition draw_0_12 : spec_float := JSNumber.div (JSNumber.of_Z 12) (JSNumber.of_Z 100).
Definition draw_0_03 : spec_float := JSNumber.div (JSNumber.of_Z 3) (JSNumber.of_Z 100).

(** Draws that trigger no rotation and give the increment 29 (from
    [25 / 32]). *)
Definition draws_29 : TickDraws :=
  {| r_rotation := 1 # 2; r_pick := 0; r_latency := S754_zero false;
     r_increment := JSNumber.div (JSNumber.of_Z 25) (JSNumber.of_Z 32);
     now := "12:00:00" |}.

(** A campaign with a target of 100 views, just started, and after a first
    tick that adds 29 views. *)
Definition percent_campaign : list Event :=
  [TypeUrl demo_url; TypeTarget 100; ClickStart "09:00:00" "09:00:00" "09:00:01"].

Definition percent_started : World :=
  world_of (@run literal_parser percent_campaign mount).

Definition percent_ticked : World :=
  world_of (@step literal_parser percent_started (TimerFires draws_29)).

(** A [JSON.parse] that returns a given value whatever the text. *)
Definition parser_returning (v : json) : Builtins :=
  {| JSON_parse := fun _ => Some v |}.

(** A campaign with a target of 500 views, just started. *)
Definition long_campaign : list Event :=
  [TypeUrl demo_url; ClickStart "09:00:00" "09:00:00" "09:00:01"].

(** ... just started. *)
Definition long_started : World := world_of (@run literal_parser long_campaign mount).

(** A parsed response whose recommendations are a string. *)
Definition unusable : json := JObject [("recommendations", JString "none")].


(* ================================================================= *)
(** * Properties *)

#[local] Arguments JSString.slice_last : simpl never.
#[local] Arguments success_message : simpl never.
#[local] Arguments handoff_message : simpl never.
#[local] Arguments percent : simpl never.
#[local] Arguments JSNumber.toString : simpl never.
#[local] Arguments String.append : simpl never.

(** ** binary64 facts: the progress percentage and the scaled draws *)

Lemma digits2_pos_size (p : positive) : digits2_pos p = Pos.size p.
Proof. induction p; simpl; congruence. Qed.

Lemma size_bound (p : positive) (n : Z) :
  0 <= n -> Zpos p < 2 ^ n -> Zpos (Pos.size p) <= n.
Proof.
  intros Hn Hp.
  destruct (Z_le_gt_dec (Zpos (Pos.size p)) n) as [|Hgt]; [assumption|exfalso].
  pose proof (Pos.size_le p) as Hle.
  assert (H2 : 2 ^ Zpos (Pos.size p) <= 2 * Zpos p).
  { change (2 * Zpos p) with (Zpos p~0). rewrite <- Pos2Z.inj_pow. 
    apply Pos2Z.pos_le_pos. exact Hle. }
  assert (2 ^ (n + 1) <= 2 ^ Zpos (Pos.size p)) by (apply Z.pow_le_mono_r; lia).
  rewrite Z.pow_add_r in H by lia. lia.
Qed.

Lemma digits2_pos_iter_xO (k p : positive) :
  digits2_pos (Pos.iter xO p k) = (digits2_pos p + k)%positive.
Proof.
  induction k using Pos.peano_ind.
  - simpl. lia.
  - rewrite Pos.iter_succ. simpl. rewrite IHk. lia.
Qed.

Lemma binary_round_aux_canonical (s : bool) (m : positive) (e : Z) :
  Zpos (digits2_pos m) = 53 -> -1074 <= e <= 971 ->
  binary_round_aux JSNumber.prec JSNumber.emax s (Zpos m) e loc_Exact = S754_finite s m e.
Proof.
  intros Hd He.
  unfold binary_round_aux, shr_fexp, fexp, emin, JSNumber.prec, JSNumber.emax.
  cbn [Zdigits2 shr_record_of_loc]. rewrite Hd.
  replace (Z.max (53 + e - 53) (3 - 1024 - 53) - e) with 0 by lia.
  cbn [shr shr_m loc_of_shr_record round_nearest_even Zdigits2]. rewrite Hd.
  replace (Z.max (53 + e - 53) (3 - 1024 - 53) - e) with 0 by lia.
  cbn [shr shr_m].
  replace (e <=? 1024 - 53) with true by (symmetry; apply Z.leb_le; lia).
  reflexivity.
Qed.

Lemma of_Z_pos_finite (p : positive) :
  Zpos p < 2 ^ 53 -> exists m e, JSNumber.of_Z (Zpos p) = S754_finite false m e.
Proof.
  intros Hp.
  pose proof (size_bound p 53 ltac:(lia) Hp) as Hs.
  rewrite <- digits2_pos_size in Hs.
  unfold JSNumber.of_Z, binary_normalize, binary_round.
  unfold fexp at 1, emin, JSNumber.prec, JSNumber.emax.
  replace (Z.max (Zpos (digits2_pos p) + 0 - 53) (3 - 1024 - 53)) with (Zpos (digits2_pos p) - 53) by lia.
  unfold shl_align.
  destruct (Zpos (digits2_pos p) - 53 - 0) as [|k|k] eqn:Hk; try lia.
  - eexists _, _. apply binary_round_aux_canonical; lia.
  - eexists _, _. apply binary_round_aux_canonical.
    + rewrite digits2_pos_iter_xO. lia.
    + lia.
Qed.

Lemma shr_1_div2 (mrs : shr_record) :
  0 <= shr_m mrs -> shr_m (shr_1 mrs) = Z.div2 (shr_m mrs).
Proof.
  destruct mrs as [m r s]. cbn [shr_m]. intros Hm.
  destruct m as [|[p|p|]|p]; try reflexivity. lia.
Qed.

Lemma iter_shr_1 (n : positive) (mrs : shr_record) :
  0 <= shr_m mrs ->
  shr_m (iter_pos shr_1 n mrs) = Z.shiftr (shr_m mrs) (Zpos n).
Proof.
  revert mrs. induction n as [n IH|n IH|]; intros mrs Hm; cbn [iter_pos].
  - assert (H1 : 0 <= shr_m (shr_1 mrs))
      by (rewrite shr_1_div2 by assumption; apply Z.div2_nonneg; assumption).
    assert (H2 : 0 <= shr_m (iter_pos shr_1 n (shr_1 mrs)))
      by (rewrite IH by assumption; apply Z.shiftr_nonneg; assumption).
    rewrite IH, IH, shr_1_div2 by assumption.
    rewrite Z.div2_spec, !Z.shiftr_shiftr by lia. f_equal. lia.
  - assert (H2 : 0 <= shr_m (iter_pos shr_1 n mrs))
      by (rewrite IH by assumption; apply Z.shiftr_nonneg; assumption).
    rewrite IH, IH by assumption.
    rewrite Z.shiftr_shiftr by lia. f_equal. lia.
  - rewrite shr_1_div2 by assumption. apply Z.div2_spec.
Qed.

Lemma shr_m_of_loc (m : Z) (l : location) : shr_m (shr_record_of_loc m l) = m.
Proof. destruct l as [|[]]; reflexivity. Qed.

Lemma pow2_digits_le (p : positive) : 2 ^ (Zpos (digits2_pos p) - 1) <= Zpos p.
Proof.
  rewrite digits2_pos_size.
  pose proof (Pos.size_le p) as Hle.
  assert (H2 : 2 ^ Zpos (Pos.size p) <= 2 * Zpos p).
  { change (2 * Zpos p) with (Zpos p~0). rewrite <- Pos2Z.inj_pow.
    apply Pos2Z.pos_le_pos. exact Hle. }
  replace (Zpos (Pos.size p)) with (Zpos (Pos.size p) - 1 + 1) in H2 by lia.
  rewrite Z.pow_add_r in H2 by lia. lia.
Qed.

(** Rounding a positive mantissa whose exponent is not below [emin] leaves
    a positive mantissa. *)
Lemma shr_fexp_positive (m : positive) (e : Z) (l : location) :
  emin JSNumber.prec JSNumber.emax <= e ->
  0 < shr_m (fst (shr_fexp JSNumber.prec JSNumber.emax (Zpos m) e l)) /\
  emin JSNumber.prec JSNumber.emax <= snd (shr_fexp JSNumber.prec JSNumber.emax (Zpos m) e l).
Proof.
  intros He. unfold shr_fexp, shr. cbn [Zdigits2].
  set (n := fexp JSNumber.prec JSNumber.emax (Zpos (digits2_pos m) + e) - e).
  assert (Hn : n <= Zpos (digits2_pos m) - 1).
  { subst n. unfold fexp, emin, JSNumber.prec, JSNumber.emax in *. lia. }
  destruct n as [|k|k] eqn:Hk; cbn [fst snd]; rewrite ?shr_m_of_loc; try (split; lia).
  rewrite iter_shr_1 by (rewrite shr_m_of_loc; lia).
  rewrite shr_m_of_loc. split; [|lia].
  rewrite Z.shiftr_div_pow2 by lia.
  apply Z.div_str_pos. split; [apply Z.pow_pos_nonneg; lia|].
  etransitivity; [|apply pow2_digits_le].
  apply Z.pow_le_mono_r; lia.
Qed.

Lemma binary_round_aux_nonzero (s : bool) (m : positive) (e : Z) (l : location) :
  emin JSNumber.prec JSNumber.emax <= e ->
  nonzero (binary_round_aux JSNumber.prec JSNumber.emax s (Zpos m) e l).
Proof.
  intros He. unfold binary_round_aux.
  destruct (shr_fexp_positive m e l He) as [Hm1 He1].
  destruct (shr_fexp JSNumber.prec JSNumber.emax (Zpos m) e l) as [mrs1 e1].
  cbn [fst snd] in Hm1, He1.
  assert (Hr : 0 < round_nearest_even (shr_m mrs1) (loc_of_shr_record mrs1)).
  { unfold round_nearest_even.
    destruct (loc_of_shr_record mrs1) as [|[]]; try lia.
    destruct (Z.even _); lia. }
  destruct (round_nearest_even (shr_m mrs1) (loc_of_shr_record mrs1)) as [|m2|m2]; try lia.
  destruct (shr_fexp_positive m2 e1 loc_Exact He1) as [Hm2 _].
  destruct (shr_fexp JSNumber.prec JSNumber.emax (Zpos m2) e1 loc_Exact) as [mrs2 e2].
  cbn [fst] in Hm2.
  destruct (shr_m mrs2); try lia.
  destruct (_ <=? _); exact I.
Qed.

Lemma of_Z_pos_nonzero (t : Z) : 0 < t -> nonzero (JSNumber.of_Z t).
Proof.
  intros Ht. destruct t as [|p|p]; try lia.
  unfold JSNumber.of_Z, binary_normalize, binary_round, shl_align.
  set (e := fexp JSNumber.prec JSNumber.emax (Zpos (digits2_pos p) + 0)).
  assert (He : emin JSNumber.prec JSNumber.emax <= e) by (subst e; unfold fexp; lia).
  destruct (e - 0) as [|k|k] eqn:Hk; apply binary_round_aux_nonzero;
    unfold emin, JSNumber.prec, JSNumber.emax in *; lia.
Qed.

(** No views of a positive target are 0%. *)
Lemma percent_zero (t : Z) : 0 < t -> percent 0 t = Some 0.
Proof.
  intros Ht. pose proof (of_Z_pos_nonzero t Ht) as Hnz.
  unfold percent. destruct (JSNumber.of_Z t); try contradiction; reflexivity.
Qed.

Lemma div_self (s : bool) (m : positive) (e : Z) :
  JSNumber.div (S754_finite s m e) (S754_finite s m e) = JSNumber.of_Z 1.
Proof.
  unfold JSNumber.div, SFdiv, SFdiv_core_binary.
  cbn [Zdigits2].
  replace (Z.pos (digits2_pos m) + e - (Z.pos (digits2_pos m) + e)) with 0 by lia.
  replace (e - e) with 0 by lia.
  change (Z.min (fexp JSNumber.prec JSNumber.emax 0) 0) with (-53).
  change (0 - -53) with 53.
  cbv iota.
  rewrite Z.shiftl_mul_pow2 by lia.
  pose proof (Z.div_mul (2 ^ 53) (Zpos m) ltac:(lia)) as Hq.
  pose proof (Z.mod_mul (2 ^ 53) (Zpos m) ltac:(lia)) as Hr.
  rewrite (Z.mul_comm (Zpos m)).
  unfold Z.div in Hq. unfold Z.modulo in Hr.
  destruct (Z.div_eucl (2 ^ 53 * Zpos m) (Zpos m)) as [q r].
  cbn [fst snd] in Hq, Hr. subst q r.
  rewrite xorb_nilpotent.
  replace (new_location (Zpos m) 0) with loc_Exact
    by (unfold new_location, new_location_even, new_location_odd; destruct (Z.even _); reflexivity).
  vm_compute. reflexivity.
Qed.

(** All the views of a target that is a safe integer are 100%. *)
Lemma percent_full (t : Z) :
  0 < t <= JSNumber.MAX_SAFE_INTEGER -> percent t t = Some 100.
Proof.
  unfold JSNumber.MAX_SAFE_INTEGER.
  intros Ht. destruct t as [|p|p]; try lia.
  destruct (of_Z_pos_finite p) as (m & e & Hf); [lia|].
  unfold percent. rewrite Hf, div_self. vm_compute. reflexivity.
Qed.

(** The double product is not the exact one: 29 views of 100 show as 28%,
    because [29 / 100 * 100] is [28.999999999999996] in binary64. *)
Example percent_29_of_100 : percent 29 100 = Some 28.
Proof. vm_compute. reflexivity. Qed.

(** The binary64 result can also be one above the exact floor, for large
    counts. *)
Example percent_above_exact :
  percent 3687786653287273 7846354581462283 = Some 47 /\
  100 * 3687786653287273 / 7846354581462283 = 46.
Proof. vm_compute. split; reflexivity. Qed.

Lemma digits_bounds (p : positive) :
  2 ^ (Zpos (digits2_pos p) - 1) <= Zpos p < 2 ^ Zpos (digits2_pos p).
Proof.
  split; [apply pow2_digits_le|].
  rewrite digits2_pos_size. rewrite <- Pos2Z.inj_pow. apply Pos2Z.pos_lt_pos, Pos.size_gt.
Qed.

Lemma digits_unique (p : positive) (k : Z) :
  2 ^ (k - 1) <= Zpos p < 2 ^ k -> Zpos (digits2_pos p) = k.
Proof.
  intros [Hlo Hhi]. pose proof (digits_bounds p) as [Hlo' Hhi'].
  assert (0 < k).
  { destruct (Z_lt_le_dec 0 k); [assumption|exfalso].
    destruct (Z.eq_dec k 0) as [->|]; [cbn in Hhi; lia|].
    rewrite Z.pow_neg_r in Hhi by lia. lia. }
  assert (k - 1 < Zpos (digits2_pos p)).
  { apply (Z.pow_lt_mono_r_iff 2); lia. }
  assert (Zpos (digits2_pos p) - 1 < k).
  { apply (Z.pow_lt_mono_r_iff 2); lia. }
  lia.
Qed.

Lemma loc_of_record_of_loc (m : Z) (l : location) :
  loc_of_shr_record (shr_record_of_loc m l) = l.
Proof. destruct l as [|[]]; reflexivity. Qed.

Lemma shr_1_exact (j : Z) (mrs : shr_record) :
  0 <= j -> exact_multiple (j + 1) mrs -> exact_multiple j (shr_1 mrs).
Proof.
  intros Hj (Hr & Hs & Hm & k & Hk). destruct mrs as [m r s]. cbn in *. subst r s.
  assert (Hm2 : m = 2 * (k * 2 ^ j)) by (rewrite Hk, Z.pow_add_r by lia; ring).
  assert (Hkj : 0 <= k * 2 ^ j) by lia.
  unfold exact_multiple.
  destruct m as [|[p|p|]|p]; cbn; try lia.
  - repeat split; try lia. exists 0. lia.
  - repeat split; try lia. exists k. lia.
Qed.

Lemma iter_shr_1_exact (n : positive) (j : Z) (mrs : shr_record) :
  0 <= j -> exact_multiple (j + Zpos n) mrs -> exact_multiple j (iter_pos shr_1 n mrs).
Proof.
  revert j mrs. induction n as [n IH|n IH|]; intros j mrs Hj Hex; cbn [iter_pos].
  - apply IH; [assumption|]. apply IH; [lia|]. apply shr_1_exact; [lia|].
    replace (j + Zpos n + Zpos n + 1) with (j + Zpos n~1) by lia. assumption.
  - apply IH; [assumption|]. apply IH; [lia|].
    replace (j + Zpos n + Zpos n) with (j + Zpos n~0) by lia. assumption.
  - apply shr_1_exact; assumption.
Qed.

Lemma round_nearest_even_bounds (m : Z) (l : location) :
  m <= round_nearest_even m l <= m + 1 /\ (l = loc_Exact -> round_nearest_even m l = m).
Proof.
  unfold round_nearest_even. destruct l as [|[]]; try destruct (Z.even m);
    (split; [lia | intros; congruence || reflexivity]).
Qed.

(** The first step of [binary_round_aux]: a mantissa of [53 + n] digits
    loses its [n] low digits. *)
Lemma shr_fexp_shift (mx : positive) (ex n : Z) (lx : location) :
  Zpos (digits2_pos mx) = 53 + n -> 0 <= n ->
  emin JSNumber.prec JSNumber.emax <= ex + n ->
  exists mrs,
    shr_fexp JSNumber.prec JSNumber.emax (Zpos mx) ex lx = (mrs, ex + n) /\
    shr_m mrs = Zpos mx / 2 ^ n /\
    (lx = loc_Exact -> (2 ^ n | Zpos mx) -> loc_of_shr_record mrs = loc_Exact).
Proof.
  intros Hd Hn He. unfold shr_fexp, shr. cbn [Zdigits2]. rewrite Hd.
  replace (fexp JSNumber.prec JSNumber.emax (53 + n + ex) - ex) with n
    by (unfold fexp, emin, JSNumber.prec, JSNumber.emax in *; lia).
  destruct n as [|k|k]; try lia.
  - eexists. split; [f_equal; lia|]. rewrite shr_m_of_loc, Z.div_1_r.
    split; [reflexivity|]. intros -> _. reflexivity.
  - eexists. split; [reflexivity|].
    rewrite iter_shr_1 by (rewrite shr_m_of_loc; lia).
    rewrite shr_m_of_loc, Z.shiftr_div_pow2 by lia.
    split; [reflexivity|]. intros -> Hdiv.
    destruct (iter_shr_1_exact k 0 (shr_record_of_loc (Zpos mx) loc_Exact))
      as (Hr & Hs & _); [lia | repeat split; cbn; try lia; assumption |].
    destruct (iter_pos shr_1 k _) as [m r s]. cbn in Hr, Hs. subst. reflexivity.
Qed.

(** A bound [M * 2 ^ E] with [M < 2 ^ 53] and [E] at least the exponent of
    the input is not passed by the rounded result. *)
Lemma binary_round_aux_le (mx : positive) (ex : Z) (lx : location) (n M E : Z) :
  Zpos (digits2_pos mx) = 53 + n -> 0 <= n ->
  emin JSNumber.prec JSNumber.emax <= ex + n -> ex + n + 1 <= 971 ->
  0 < M < 2 ^ 53 -> ex <= E ->
  (if match lx with loc_Exact => true | _ => false end
   then Zpos mx else Zpos mx + 1) <= M * 2 ^ (E - ex) ->
  exists mf ef,
    binary_round_aux JSNumber.prec JSNumber.emax false (Zpos mx) ex lx
    = S754_finite false mf ef /\
    ex + n <= ef <= ex + n + 1 /\ ex + n <= E /\
    Zpos mf * 2 ^ (ef - (ex + n)) <= M * 2 ^ (E - (ex + n)).
Proof.
  intros Hd Hn Hemin Hemax HM HE HU.
  pose proof (digits_bounds mx) as [Hlo Hhi]. rewrite Hd in Hlo, Hhi.
  replace (53 + n - 1) with (52 + n) in Hlo by lia.
  (* the bound lies on the grid of the result *)
  assert (HnE : n <= E - ex).
  { assert (Hlt : 2 ^ (52 + n) < 2 ^ (53 + (E - ex))).
    { rewrite (Z.pow_add_r 2 53) by lia.
      assert (0 < 2 ^ (E - ex)) by (apply Z.pow_pos_nonneg; lia).
      destruct lx as [|c]; cbn in HU; nia. }
    apply Z.pow_lt_mono_r_iff in Hlt; lia. }
  set (K := M * 2 ^ (E - (ex + n))).
  assert (HB : M * 2 ^ (E - ex) = K * 2 ^ n).
  { subst K. rewrite <- Z.mul_assoc, <- Z.pow_add_r by lia. do 2 f_equal. lia. }
  rewrite HB in HU.
  assert (Hpn : 0 < 2 ^ n) by (apply Z.pow_pos_nonneg; lia).
  destruct (shr_fexp_shift mx ex n lx Hd Hn Hemin) as (mrs1 & Hshr1 & Hm1 & Hloc1).
  unfold binary_round_aux. rewrite Hshr1.
  pose proof (round_nearest_even_bounds (shr_m mrs1) (loc_of_shr_record mrs1)) as [[Hr1 Hr2] Hr3].
  set (m2 := round_nearest_even (shr_m mrs1) (loc_of_shr_record mrs1)) in *.
  (* the quotient has 53 digits *)
  assert (Hq : 2 ^ 52 <= Zpos mx / 2 ^ n < 2 ^ 53).
  { split.
    - apply Z.div_le_lower_bound; [lia|]. rewrite Z.mul_comm, <- Z.pow_add_r; lia.
    - apply Z.div_lt_upper_bound; [lia|]. rewrite <- Z.pow_add_r; [|lia|lia].
      replace (n + 53) with (53 + n) by lia. lia. }
  (* the rounded mantissa does not pass K *)
  assert (Hm2K : m2 <= K).
  { destruct (Z.eq_dec m2 (shr_m mrs1)) as [Heq|Hne].
    - rewrite Heq, Hm1. apply Z.div_le_upper_bound; [lia|].
      destruct lx; cbn in HU; lia.
    - assert (Hlt : Zpos mx < K * 2 ^ n).
      { destruct lx as [|c]; cbn in HU; [|lia].
        destruct (Z.eq_dec (Zpos mx) (K * 2 ^ n)) as [Heq|]; [|lia].
        exfalso. apply Hne. apply Hr3. apply Hloc1; [reflexivity|].
        exists K. exact Heq. }
      assert (Zpos mx / 2 ^ n < K) by (apply Z.div_lt_upper_bound; lia).
      lia. }
  rewrite Hm1 in Hr1, Hr2.
  destruct m2 as [|p2|p2] eqn:Hp2; try lia.
  destruct (Z_lt_le_dec (Zpos p2) (2 ^ 53)) as [Hsmall|Hbig].
  - (* no carry *)
    assert (Hd2 : Zpos (digits2_pos p2) = 53 + 0) by (apply digits_unique; cbn; lia).
    destruct (shr_fexp_shift p2 (ex + n) 0 loc_Exact Hd2 ltac:(lia) ltac:(lia))
      as (mrs2 & Hshr2 & Hm2 & _).
    rewrite Hshr2, Hm2, Z.div_1_r.
    replace (ex + n + 0 <=? JSNumber.emax - JSNumber.prec) with true
      by (symmetry; apply Z.leb_le; unfold JSNumber.emax, JSNumber.prec; lia).
    exists p2, (ex + n + 0). split; [reflexivity|].
    repeat split; try lia.
    replace (ex + n + 0 - (ex + n)) with 0 by lia. lia.
  - (* the mantissa was rounded up to 2 ^ 53 *)
    assert (Hp2v : Zpos p2 = 2 ^ 53) by lia.
    assert (Hd2 : Zpos (digits2_pos p2) = 53 + 1) by (apply digits_unique; cbn; lia).
    destruct (shr_fexp_shift p2 (ex + n) 1 loc_Exact Hd2 ltac:(lia) ltac:(lia))
      as (mrs2 & Hshr2 & Hm2 & _).
    rewrite Hshr2, Hm2, Hp2v.
    change (2 ^ 53 / 2 ^ 1) with (Zpos (2 ^ 52)).
    replace (ex + n + 1 <=? JSNumber.emax - JSNumber.prec) with true
      by (symmetry; apply Z.leb_le; unfold JSNumber.emax, JSNumber.prec; lia).
    exists (2 ^ 52)%positive, (ex + n + 1). split; [reflexivity|].
    repeat split; try lia.
    replace (ex + n + 1 - (ex + n)) with 1 by lia.
    change (Zpos (2 ^ 52) * 2 ^ 1) with (2 ^ 53). lia.
Qed.

Lemma Zpos_iter_xO (k p : positive) : Zpos (Pos.iter xO p k) = Zpos p * 2 ^ Zpos k.
Proof.
  induction k using Pos.peano_ind.
  - cbn. lia.
  - rewrite Pos.iter_succ, Pos2Z.inj_succ, Z.pow_succ_r by lia.
    change (Zpos (Pos.iter xO p k)~0) with (2 * Zpos (Pos.iter xO p k)). rewrite IHk. ring.
Qed.

(** The binary64 number of a positive safe integer: a mantissa of 53
    digits and the exponent that goes with it. *)
Lemma of_Z_pos_normal (p : positive) :
  Zpos p < 2 ^ 53 ->
  exists m e,
    JSNumber.of_Z (Zpos p) = S754_finite false m e /\
    Zpos m = Zpos p * 2 ^ (- e) /\ -52 <= e <= 0 /\ Zpos (digits2_pos m) = 53.
Proof.
  intros Hp.
  pose proof (size_bound p 53 ltac:(lia) Hp) as Hs.
  rewrite <- digits2_pos_size in Hs.
  unfold JSNumber.of_Z, binary_normalize, binary_round.
  unfold fexp at 1, emin, JSNumber.prec, JSNumber.emax.
  replace (Z.max (Zpos (digits2_pos p) + 0 - 53) (3 - 1024 - 53))
    with (Zpos (digits2_pos p) - 53) by lia.
  unfold shl_align.
  destruct (Zpos (digits2_pos p) - 53 - 0) as [|k|k] eqn:Hk; try lia.
  - exists p, 0. split; [apply binary_round_aux_canonical; lia|].
    split; [cbn; lia|]. split; lia.
  - exists (Pos.iter xO p k), (Zpos (digits2_pos p) - 53).
    split; [apply binary_round_aux_canonical; [rewrite digits2_pos_iter_xO|]; lia|].
    split; [rewrite Zpos_iter_xO; do 2 f_equal; lia|].
    split; [lia|]. rewrite digits2_pos_iter_xO. lia.
Qed.

(** The quotient of two numbers with 53-digit mantissas, the first below
    the second, is a number that is at most 1. *)
Lemma div_below_one (m1 m2 : positive) (e1 e2 : Z) :
  Zpos (digits2_pos m1) = 53 -> Zpos (digits2_pos m2) = 53 ->
  -52 <= e1 <= 0 -> -52 <= e2 <= 0 ->
  Zpos m1 * 2 ^ (- e2) < Zpos m2 * 2 ^ (- e1) ->
  exists mq eq,
    JSNumber.div (S754_finite false m1 e1) (S754_finite false m2 e2)
    = S754_finite false mq eq /\
    -106 <= eq <= 0 /\ Zpos mq <= 2 ^ (- eq).
Proof.
  intros Hd1 Hd2 He1 He2 Hlt.
  pose proof (digits_bounds m1) as [Hlo1 Hhi1]. rewrite Hd1 in Hlo1, Hhi1.
  pose proof (digits_bounds m2) as [Hlo2 Hhi2]. rewrite Hd2 in Hlo2, Hhi2.
  change (2 ^ (53 - 1)) with (2 ^ 52) in *.
  unfold JSNumber.div, SFdiv, SFdiv_core_binary. cbn [Zdigits2 xorb].
  rewrite Hd1, Hd2.
  replace (Z.min (fexp JSNumber.prec JSNumber.emax (53 + e1 - (53 + e2))) (e1 - e2))
    with (e1 - e2 - 53)
    by (unfold fexp, emin, JSNumber.prec, JSNumber.emax; lia).
  replace (e1 - e2 - (e1 - e2 - 53)) with 53 by lia.
  cbv iota. rewrite Z.shiftl_mul_pow2 by lia.
  pose proof (Z.div_mod (Zpos m1 * 2 ^ 53) (Zpos m2) ltac:(lia)) as Hdm.
  pose proof (Z.mod_pos_bound (Zpos m1 * 2 ^ 53) (Zpos m2) ltac:(lia)) as Hmb.
  unfold Z.div, Z.modulo in Hdm, Hmb.
  destruct (Z.div_eucl (Zpos m1 * 2 ^ 53) (Zpos m2)) as [q0 r0]. cbn [fst snd] in Hdm, Hmb.
  set (ex := e1 - e2 - 53).
  (* the integer quotient has 53 or 54 digits and is below 2 ^ (- ex) *)
  assert (Hq52 : 2 ^ 52 <= q0).
  { assert (2 ^ 52 * Zpos m2 < Zpos m2 * (q0 + 1)) by nia. nia. }
  assert (Hq54 : q0 < 2 ^ 54).
  { change (2 ^ 54) with (2 ^ 52 * 4). nia. }
  assert (Hpe : 2 ^ (- ex) * 2 ^ (- e2) = 2 ^ 53 * 2 ^ (- e1)).
  { rewrite <- !Z.pow_add_r by lia. f_equal. lia. }
  assert (Hqx : q0 + 1 <= 2 ^ (- ex)).
  { assert (0 < 2 ^ (- e1)) by (apply Z.pow_pos_nonneg; lia).
    assert (0 < 2 ^ (- e2)) by (apply Z.pow_pos_nonneg; lia).
    assert (0 < 2 ^ (- ex)) by (apply Z.pow_pos_nonneg; lia).
    assert (Zpos m2 * q0 * 2 ^ (- e2) < Zpos m2 * (2 ^ (- ex) * 2 ^ (- e2))).
    { rewrite Hpe. nia. }
    assert (q0 < 2 ^ (- ex)) by nia. lia. }
  destruct q0 as [|mq0|mq0]; try lia.
  set (n := Zpos (digits2_pos mq0) - 53).
  assert (Hn : 0 <= n <= 1).
  { subst n. pose proof (digits_bounds mq0) as [Hl Hh].
    assert (52 < Zpos (digits2_pos mq0)) by (apply (Z.pow_lt_mono_r_iff 2); lia).
    assert (Zpos (digits2_pos mq0) - 1 < 54) by (apply (Z.pow_lt_mono_r_iff 2); lia).
    lia. }
  destruct (binary_round_aux_le mq0 ex (new_location (Zpos m2) r0) n 1 0)
    as (mf & ef & Hres & Hef & HnE & Hle).
  - subst n. lia.
  - lia.
  - unfold emin, JSNumber.prec, JSNumber.emax. subst ex. lia.
  - subst ex. lia.
  - lia.
  - subst ex. lia.
  - rewrite Z.mul_1_l. replace (0 - ex) with (- ex) by lia.
    destruct (match new_location (Zpos m2) r0 with loc_Exact => true | _ => false end); lia.
  - exists mf, ef. split; [exact Hres|].
    rewrite Z.mul_1_l in Hle.
    assert (Hef0 : ef <= 0).
    { destruct (Z_le_gt_dec ef 0); [assumption|exfalso].
      assert (ef = 1 /\ ex + n = 0) as [-> Hz] by lia.
      rewrite Hz in Hle. cbn in Hle. lia. }
    split; [subst ex; lia|].
    assert (Hp1 : 0 < 2 ^ (ef - (ex + n))) by (apply Z.pow_pos_nonneg; lia).
    replace (2 ^ (0 - (ex + n))) with (2 ^ (- ef) * 2 ^ (ef - (ex + n))) in Hle
      by (rewrite <- Z.pow_add_r by lia; f_equal; lia).
    nia.
Qed.

(** A number that is at most 1, times 100, is a number that is at most
    100. *)
Lemma mul_100_below (mq : positive) (eq : Z) :
  -106 <= eq <= 0 -> Zpos mq <= 2 ^ (- eq) ->
  exists p,
    JSNumber.Math_floor (JSNumber.mul (S754_finite false mq eq) (JSNumber.of_Z 100)) = Some p /\
    0 <= p <= 100.
Proof.
  intros Heq Hmq.
  change (JSNumber.of_Z 100) with (S754_finite false 7036874417766400 (-46)).
  unfold JSNumber.mul, SFmul. cbn [xorb].
  set (mx := (mq * 7036874417766400)%positive).
  assert (Hmx : Zpos mx = Zpos mq * (100 * 2 ^ 46)) by (subst mx; rewrite Pos2Z.inj_mul; reflexivity).
  set (ex := eq + -46).
  assert (Hpe : 0 < 2 ^ (- eq)) by (apply Z.pow_pos_nonneg; lia).
  assert (HU : Zpos mx <= 100 * 2 ^ (0 - ex)).
  { subst ex. replace (0 - (eq + -46)) with (46 + - eq) by lia.
    rewrite Z.pow_add_r, Hmx by lia. nia. }
  set (n := Zpos (digits2_pos mx) - 53).
  pose proof (digits_bounds mx) as [Hlo Hhi].
  assert (Hn : 0 <= n).
  { subst n. assert (2 ^ 52 <= Zpos mx) by (rewrite Hmx; change (100 * 2 ^ 46) with (2 ^ 52 * 1 + 2533274790395904); nia).
    assert (52 < Zpos (digits2_pos mx)) by (apply (Z.pow_lt_mono_r_iff 2); lia). lia. }
  assert (Hn2 : ex + n <= -46).
  { assert (Hlt : 2 ^ (Zpos (digits2_pos mx) - 1) < 2 ^ (7 + (0 - ex))).
    { rewrite (Z.pow_add_r 2 7) by (subst ex; lia).
      assert (0 < 2 ^ (0 - ex)) by (apply Z.pow_pos_nonneg; subst ex; lia).
      change (2 ^ 7) with 128. nia. }
    apply Z.pow_lt_mono_r_iff in Hlt; subst n ex; lia. }
  destruct (binary_round_aux_le mx ex loc_Exact n 100 0)
    as (mf & ef & Hres & Hef & HnE & Hle).
  - subst n. lia.
  - exact Hn.
  - unfold emin, JSNumber.prec, JSNumber.emax. subst ex. lia.
  - lia.
  - cbn. lia.
  - subst ex. lia.
  - exact HU.
  - rewrite Hres. cbn [JSNumber.Math_floor].
    assert (Hef0 : ef < 0) by lia.
    destruct (Z.leb_spec 0 ef); [lia|].
    eexists. split; [reflexivity|].
    rewrite Z.shiftr_div_pow2 by lia.
    assert (Hp1 : 0 < 2 ^ (ef - (ex + n))) by (apply Z.pow_pos_nonneg; lia).
    assert (Hp2 : 0 < 2 ^ (- ef)) by (apply Z.pow_pos_nonneg; lia).
    replace (2 ^ (0 - (ex + n))) with (2 ^ (- ef) * 2 ^ (ef - (ex + n))) in Hle
      by (rewrite <- Z.pow_add_r by lia; f_equal; lia).
    assert (Zpos mf <= 100 * 2 ^ (- ef)) by nia.
    split.
    + apply Z.div_pos; lia.
    + apply Z.div_le_upper_bound; lia.
Qed.

Lemma percent_bounds (nextVal targetViews : Z) :
  0 <= nextVal <= targetViews ->
  0 < targetViews <= JSNumber.MAX_SAFE_INTEGER ->
  exists p, percent nextVal targetViews = Some p /\ 0 <= p <= 100.
Proof.
  intros Hn Ht.
  destruct (Z.eq_dec nextVal 0) as [->|Hn0].
  { exists 0. split; [apply percent_zero; lia | lia]. }
  destruct (Z.eq_dec nextVal targetViews) as [->|Hne].
  { exists 100. split; [apply percent_full; lia | lia]. }
  unfold JSNumber.MAX_SAFE_INTEGER in Ht.
  destruct nextVal as [|a|a]; try lia. destruct targetViews as [|b|b]; try lia.
  destruct (of_Z_pos_normal a) as (m1 & e1 & Ha & Hm1 & He1 & Hd1); [lia|].
  destruct (of_Z_pos_normal b) as (m2 & e2 & Hb & Hm2 & He2 & Hd2); [lia|].
  destruct (div_below_one m1 m2 e1 e2 Hd1 Hd2 He1 He2) as (mq & eq & Hq & Heq & Hmq).
  { rewrite Hm1, Hm2.
    assert (0 < 2 ^ (- e1)) by (apply Z.pow_pos_nonneg; lia).
    assert (0 < 2 ^ (- e2)) by (apply Z.pow_pos_nonneg; lia).
    nia. }
  unfold percent. rewrite Ha, Hb, Hq. apply mul_100_below; assumption.
Qed.

(** *** Rounding, in general *)

Lemma shr_fexp_down (mx : positive) (ex : Z) (lx : location) :
  let n := fexp JSNumber.prec JSNumber.emax (Zpos (digits2_pos mx) + ex) - ex in
  0 <= n ->
  exists mrs,
    shr_fexp JSNumber.prec JSNumber.emax (Zpos mx) ex lx = (mrs, ex + n) /\
    shr_m mrs = Zpos mx / 2 ^ n /\
    (lx = loc_Exact -> (2 ^ n | Zpos mx) -> loc_of_shr_record mrs = loc_Exact).
Proof.
  intros n Hn. unfold shr_fexp, shr. cbn [Zdigits2]. fold n.
  destruct n as [|k|k] eqn:Hk; try lia.
  - eexists. split; [f_equal; lia|]. rewrite shr_m_of_loc, Z.div_1_r.
    split; [reflexivity|]. intros -> _. reflexivity.
  - eexists. split; [reflexivity|].
    rewrite iter_shr_1 by (rewrite shr_m_of_loc; lia).
    rewrite shr_m_of_loc, Z.shiftr_div_pow2 by lia.
    split; [reflexivity|]. intros -> Hdiv.
    destruct (iter_shr_1_exact k 0 (shr_record_of_loc (Zpos mx) loc_Exact))
      as (Hr & Hs & _); [lia | repeat split; cbn; try lia; assumption |].
    destruct (iter_pos shr_1 k _) as [m r s]. cbn in Hr, Hs. subst. reflexivity.
Qed.

Lemma shr_fexp_stay (m : Z) (ex : Z) (lx : location) :
  fexp JSNumber.prec JSNumber.emax (Zdigits2 m + ex) - ex <= 0 ->
  shr_fexp JSNumber.prec JSNumber.emax m ex lx = (shr_record_of_loc m lx, ex).
Proof.
  intros Hn. unfold shr_fexp, shr.
  destruct (fexp _ _ _ - ex) as [|k|k]; try reflexivity. lia.
Qed.

(** The shape of a rounded number: with [e1] the exponent that the format
    gives to the input, the result is [m2 * 2 ^ e1] where [m2] is the
    mantissa cut at [e1] or its successor. *)
Lemma binary_round_aux_shape (mx : positive) (ex : Z) (lx : location) :
  let e1 := fexp JSNumber.prec JSNumber.emax (Zpos (digits2_pos mx) + ex) in
  ex <= e1 -> e1 + 1 <= 971 ->
  exists m2,
    Zpos mx / 2 ^ (e1 - ex) <= m2 <= Zpos mx / 2 ^ (e1 - ex) + 1 /\
    (lx = loc_Exact -> (2 ^ (e1 - ex) | Zpos mx) -> m2 = Zpos mx / 2 ^ (e1 - ex)) /\
    match binary_round_aux JSNumber.prec JSNumber.emax false (Zpos mx) ex lx with
    | S754_zero false => m2 = 0
    | S754_finite false mf ef => e1 <= ef <= e1 + 1 /\ Zpos mf * 2 ^ (ef - e1) = m2
    | _ => False
    end.
Proof.
  intros e1 He Hmax.
  assert (Hemin : -1074 <= e1) by (subst e1; unfold fexp, emin, JSNumber.prec, JSNumber.emax; lia).
  assert (HD : Zpos (digits2_pos mx) <= 53 + (e1 - ex))
    by (subst e1; unfold fexp, emin, JSNumber.prec, JSNumber.emax; lia).
  destruct (shr_fexp_down mx ex lx) as (mrs1 & Hshr1 & Hm1 & Hloc1); [fold e1; lia|].
  fold e1 in Hshr1, Hm1, Hloc1.
  replace (ex + (e1 - ex)) with e1 in Hshr1 by lia.
  set (n := e1 - ex) in *.
  assert (Hpn : 0 < 2 ^ n) by (apply Z.pow_pos_nonneg; lia).
  pose proof (digits_bounds mx) as [_ Hhi].
  assert (Hq : 0 <= Zpos mx / 2 ^ n < 2 ^ 53).
  { split; [apply Z.div_pos; lia|].
    apply Z.div_lt_upper_bound; [lia|]. rewrite <- Z.pow_add_r by lia.
    eapply Z.lt_le_trans; [exact Hhi|]. apply Z.pow_le_mono_r; lia. }
  unfold binary_round_aux. rewrite Hshr1.
  pose proof (round_nearest_even_bounds (shr_m mrs1) (loc_of_shr_record mrs1)) as [[Hr1 Hr2] Hr3].
  set (m2 := round_nearest_even (shr_m mrs1) (loc_of_shr_record mrs1)) in *.
  rewrite Hm1 in Hr1, Hr2.
  exists m2. split; [lia|]. split.
  { intros Hx Hdiv. rewrite <- Hm1. apply Hr3. apply Hloc1; assumption. }
  destruct m2 as [|p2|p2] eqn:Hp2; try lia.
  - rewrite shr_fexp_stay; [reflexivity|].
    cbn [Zdigits2]. unfold fexp, emin, JSNumber.prec, JSNumber.emax. lia.
  - destruct (Z_lt_le_dec (Zpos p2) (2 ^ 53)) as [Hsmall|Hbig].
    + pose proof (size_bound p2 53 ltac:(lia) Hsmall) as Hs.
      rewrite <- digits2_pos_size in Hs.
      rewrite shr_fexp_stay
        by (cbn [Zdigits2]; unfold fexp, emin, JSNumber.prec, JSNumber.emax; lia).
      rewrite shr_m_of_loc.
      replace (e1 <=? JSNumber.emax - JSNumber.prec) with true
        by (symmetry; apply Z.leb_le; unfold JSNumber.emax, JSNumber.prec; lia).
      split; [lia|]. replace (e1 - e1) with 0 by lia. lia.
    + assert (Hp2v : Zpos p2 = 2 ^ 53) by lia.
      assert (Hd2 : Zpos (digits2_pos p2) = 54) by (apply digits_unique; cbn; lia).
      destruct (shr_fexp_down p2 e1 loc_Exact) as (mrs2 & Hshr2 & Hm2 & _).
      { rewrite Hd2. unfold fexp, emin, JSNumber.prec, JSNumber.emax. lia. }
      rewrite Hd2 in Hshr2, Hm2.
      replace (fexp JSNumber.prec JSNumber.emax (54 + e1) - e1) with 1 in Hshr2, Hm2
        by (unfold fexp, emin, JSNumber.prec, JSNumber.emax; lia).
      rewrite Hshr2, Hm2, Hp2v.
      change (2 ^ 53 / 2 ^ 1) with (Zpos (2 ^ 52)).
      replace (e1 + 1 <=? JSNumber.emax - JSNumber.prec) with true
        by (symmetry; apply Z.leb_le; unfold JSNumber.emax, JSNumber.prec; lia).
      split; [lia|]. replace (e1 + 1 - e1) with 1 by lia. reflexivity.
Qed.

(** [Math.floor] of a rounded number whose exponent is negative. *)
Lemma floor_binary_round_aux (mx : positive) (ex : Z) (lx : location) :
  let e1 := fexp JSNumber.prec JSNumber.emax (Zpos (digits2_pos mx) + ex) in
  ex <= e1 -> e1 <= -2 ->
  exists m2,
    Zpos mx / 2 ^ (e1 - ex) <= m2 <= Zpos mx / 2 ^ (e1 - ex) + 1 /\
    (lx = loc_Exact -> (2 ^ (e1 - ex) | Zpos mx) -> m2 = Zpos mx / 2 ^ (e1 - ex)) /\
    JSNumber.Math_floor (binary_round_aux JSNumber.prec JSNumber.emax false (Zpos mx) ex lx)
    = Some (m2 / 2 ^ (- e1)).
Proof.
  intros e1 He Hneg.
  destruct (binary_round_aux_shape mx ex lx) as (m2 & Hb & Hx & Hres); [fold e1; lia ..|].
  fold e1 in Hb, Hx, Hres.
  exists m2. split; [exact Hb|]. split; [exact Hx|].
  destruct (binary_round_aux _ _ _ _ _ _) as [[]| | |[] mf ef]; try contradiction.
  - subst m2. cbn [JSNumber.Math_floor]. rewrite Zdiv_0_l. reflexivity.
  - destruct Hres as [Hef <-]. cbn [JSNumber.Math_floor].
    destruct (Z.leb_spec 0 ef); [lia|].
    rewrite Z.shiftr_div_pow2 by lia. f_equal.
    replace (2 ^ (- e1)) with (2 ^ (- ef) * 2 ^ (ef - e1))
      by (rewrite <- Z.pow_add_r by lia; f_equal; lia).
    rewrite Z.div_mul_cancel_r; [reflexivity| |]; apply Z.pow_nonzero; lia.
Qed.

(** [Math.floor] of a rounded number lies between the floors of two
    bounds [Mlo * 2 ^ E] and [Mhi * 2 ^ E] of the number that is rounded,
    when the grid of [E] is not finer than the one of the result. *)
Lemma floor_round_between (mx : positive) (ex : Z) (lx : location) (Mlo Mhi E : Z) :
  53 <= Zpos (digits2_pos mx) ->
  Zpos mx < 2 ^ (53 + E - ex) -> -1074 <= E <= -2 ->
  Mlo * 2 ^ (E - ex) <= Zpos mx ->
  (if match lx with loc_Exact => true | _ => false end
   then Zpos mx else Zpos mx + 1) <= Mhi * 2 ^ (E - ex) ->
  exists k,
    JSNumber.Math_floor (binary_round_aux JSNumber.prec JSNumber.emax false (Zpos mx) ex lx)
    = Some k /\
    Mlo / 2 ^ (- E) <= k <= Mhi / 2 ^ (- E).
Proof.
  intros HD Hlt HE Hlo HU.
  pose proof (digits_bounds mx) as [Hdlo Hdhi].
  assert (H0 : 0 <= 53 + E - ex).
  { destruct (Z_le_gt_dec 0 (53 + E - ex)); [assumption|].
    rewrite Z.pow_neg_r in Hlt by lia. lia. }
  assert (HDE : Zpos (digits2_pos mx) <= 53 + E - ex).
  { assert (Zpos (digits2_pos mx) - 1 < 53 + E - ex); [|lia].
    apply (Z.pow_lt_mono_r_iff 2); lia. }
  set (e1 := fexp JSNumber.prec JSNumber.emax (Zpos (digits2_pos mx) + ex)).
  assert (He1 : ex <= e1 <= E)
    by (subst e1; unfold fexp, emin, JSNumber.prec, JSNumber.emax; lia).
  destruct (floor_binary_round_aux mx ex lx) as (m2 & Hb & Hx & Hfl); [fold e1; lia ..|].
  fold e1 in Hb, Hx, Hfl.
  set (n := e1 - ex) in *.
  assert (Hpn : 0 < 2 ^ n) by (apply Z.pow_pos_nonneg; lia).
  assert (Hsplit : 2 ^ (E - ex) = 2 ^ (E - e1) * 2 ^ n).
  { rewrite <- Z.pow_add_r by lia. f_equal. lia. }
  assert (Hp1 : 0 < 2 ^ (E - e1)) by (apply Z.pow_pos_nonneg; lia).
  assert (Hcancel : forall M, M * 2 ^ (E - e1) / 2 ^ (- e1) = M / 2 ^ (- E)).
  { intros M. replace (2 ^ (- e1)) with (2 ^ (- E) * 2 ^ (E - e1))
      by (rewrite <- Z.pow_add_r by lia; f_equal; lia).
    apply Z.div_mul_cancel_r; apply Z.pow_nonzero; lia. }
  exists (m2 / 2 ^ (- e1)). split; [exact Hfl|].
  assert (Hpe : 0 < 2 ^ (- e1)) by (apply Z.pow_pos_nonneg; lia).
  split.
  - rewrite <- Hcancel. apply Z.div_le_mono; [lia|].
    apply Z.le_trans with (Zpos mx / 2 ^ n); [|lia].
    apply Z.div_le_lower_bound; [lia|]. rewrite Hsplit in Hlo. lia.
  - rewrite <- (Hcancel Mhi). apply Z.div_le_mono; [lia|].
    rewrite Hsplit, Z.mul_assoc in HU.
    set (K := Mhi * 2 ^ (E - e1)) in *.
    destruct (Z.eq_dec m2 (Zpos mx / 2 ^ n)) as [Heq|Hne].
    + rewrite Heq. apply Z.div_le_upper_bound; [lia|].
      destruct lx; cbn in HU; lia.
    + assert (Hlt2 : Zpos mx < K * 2 ^ n).
      { destruct lx as [|c]; cbn in HU; [|lia].
        destruct (Z.eq_dec (Zpos mx) (K * 2 ^ n)) as [Heq|]; [|lia].
        exfalso. apply Hne. apply Hx; [reflexivity|]. exists K. exact Heq. }
      assert (Zpos mx / 2 ^ n < K) by (apply Z.div_lt_upper_bound; lia).
      lia.
Qed.

(** *** The scaled draws *)

(** What [random_number] says of a positive draw. *)
Lemma random_number_finite (m : positive) (e : Z) :
  JSNumber.random_number (S754_finite false m e) = true ->
  Zpos m < 2 ^ 53 /\ Zpos m < 2 ^ (- e) /\ -1074 <= e <= -53 /\
  (e = -53 -> 2 ^ 52 <= Zpos m).
Proof.
  unfold JSNumber.random_number, bounded, canonical_mantissa. cbn [negb andb].
  rewrite !andb_true_iff, Z.eqb_eq, Z.leb_le, Z.ltb_lt.
  unfold fexp, emin, JSNumber.prec, JSNumber.emax.
  intros [[Hc _] Hlt].
  pose proof (digits_bounds m) as [Hlo Hhi].
  assert (Hd : Zpos (digits2_pos m) <= 53) by lia.
  assert (Hm : Zpos m < 2 ^ 53).
  { eapply Z.lt_le_trans; [exact Hhi|]. apply Z.pow_le_mono_r; lia. }
  assert (He0 : e < 0).
  { destruct (Z_lt_le_dec e 0); [assumption|exfalso].
    destruct (Z.eq_dec e 0) as [->|]; [cbn in Hlt; lia|].
    rewrite Z.pow_neg_r in Hlt by lia. lia. }
  assert (He : e <= -53).
  { destruct (Z_le_gt_dec e (-53)); [assumption|exfalso].
    assert (Hd53 : Zpos (digits2_pos m) = 53) by lia.
    rewrite Hd53 in Hlo. change (2 ^ (53 - 1)) with (2 ^ 52) in Hlo.
    assert (2 ^ (- e) <= 2 ^ 52) by (apply Z.pow_le_mono_r; lia). lia. }
  repeat split; try lia.
  intros ->. assert (Hd53 : Zpos (digits2_pos m) = 53) by lia.
  rewrite Hd53 in Hlo. exact Hlo.
Qed.

(** [Math.floor(r * c)] in binary64, for a draw [r = m * 2 ^ e] below 1 and
    a constant [c] whose binary64 number is [mc * 2 ^ ec]: it is the exact
    floor [j] of [r * c], or [j + 1]; and it is [j] when [r * c] is at
    least [2 ^ ec] below [j + 1]. *)
Lemma floor_mul_random (m : positive) (e : Z) (c : Z) (mc : positive) (ec : Z) :
  Zpos m < 2 ^ (- e) -> e < 0 ->
  Zpos mc = c * 2 ^ (- ec) -> 2 ^ 52 <= Zpos mc < 2 ^ 53 -> -52 <= ec <= -2 ->
  let j := c * Zpos m / 2 ^ (- e) in
  exists k,
    JSNumber.Math_floor (JSNumber.mul (S754_finite false m e) (S754_finite false mc ec))
    = Some k /\
    j <= k <= j + 1 /\
    (c * Zpos m * 2 ^ (- ec) <= ((j + 1) * 2 ^ (- ec) - 1) * 2 ^ (- e) -> k = j).
Proof.
  intros Hlt He Hmc Hmcb Hec j.
  unfold JSNumber.mul, SFmul. cbn [xorb].
  set (mx := (m * mc)%positive).
  assert (Hmx : Zpos mx = Zpos m * Zpos mc) by (subst mx; apply Pos2Z.inj_mul).
  set (P := 2 ^ (- e)) in *. set (T := 2 ^ (- ec)) in *.
  assert (HP : 0 < P) by (apply Z.pow_pos_nonneg; lia).
  assert (HT : 4 <= T).
  { subst T. change 4 with (2 ^ 2). apply Z.pow_le_mono_r; lia. }
  assert (Hc : 0 < c) by nia.
  assert (HD : 53 <= Zpos (digits2_pos mx)).
  { pose proof (digits_bounds mx) as [_ Hhi].
    assert (52 < Zpos (digits2_pos mx)); [|lia].
    apply (Z.pow_lt_mono_r_iff 2); [lia|lia|]. nia. }
  assert (Hexp : 2 ^ (ec - (e + ec)) = P) by (subst P; f_equal; lia).
  assert (Hval : Zpos mx < 2 ^ (53 + ec - (e + ec))).
  { replace (53 + ec - (e + ec)) with (53 + - e) by lia.
    rewrite Z.pow_add_r by lia. fold P. nia. }
  pose proof (Z.mul_div_le (c * Zpos m) P HP) as Hj1.
  pose proof (Z.mul_succ_div_gt (c * Zpos m) P HP) as Hj2.
  fold j in Hj1, Hj2.
  assert (Hj0 : 0 <= j) by (subst j; apply Z.div_pos; lia).
  assert (Hlo : j * T * 2 ^ (ec - (e + ec)) <= Zpos mx)
    by (rewrite Hexp, Hmx, Hmc; nia).
  assert (HE : -1074 <= ec <= -2) by lia.
  destruct (floor_round_between mx (e + ec) loc_Exact (j * T) ((j + 1) * T) ec
              HD Hval HE Hlo) as (k & Hk & Hkb).
  { cbv iota. rewrite Hexp, Hmx, Hmc. nia. }
  fold T in Hkb. rewrite !Z.div_mul in Hkb by lia.
  exists k. split; [exact Hk|]. split; [exact Hkb|].
  intros Htight.
  destruct (floor_round_between mx (e + ec) loc_Exact (j * T) ((j + 1) * T - 1) ec
              HD Hval HE Hlo) as (k' & Hk' & Hkb').
  { cbv iota. rewrite Hexp, Hmx, Hmc. nia. }
  rewrite Hk in Hk'. injection Hk' as <-. fold T in Hkb'.
  rewrite Z.div_mul in Hkb' by lia.
  assert (((j + 1) * T - 1) / T = j).
  { symmetry. apply Z.div_unique with (r := T - 1); lia. }
  lia.
Qed.

(** [Math.floor(Math.random() * 25)] lies between 0 and 24. *)
Lemma floor_mul_25 (r : spec_float) :
  JSNumber.is_random_number r ->
  let exact := Qfloor (25 * JSNumber.to_Q r) in
  exists k,
    JSNumber.Math_floor (JSNumber.mul r (JSNumber.of_Z 25)) = Some k /\
    0 <= k <= 24 /\ exact <= k <= exact + 1 /\
    ((25 * JSNumber.to_Q r <= inject_Z (exact + 1) - (1 # 2 ^ 48))%Q -> k = exact).
Proof.
  unfold JSNumber.is_random_number.
  destruct r as [s| | |s m e]; try discriminate.
  - destruct s; [discriminate|]. intros _. exists 0.
    split; [reflexivity|]. split; [lia|]. split; [vm_compute; split; discriminate|].
    intros _. reflexivity.
  - destruct s; [discriminate|]. intros Hr.
    destruct (random_number_finite m e Hr) as (Hm53 & Hlt & He & Hnorm).
    change (JSNumber.of_Z 25) with (S754_finite false 7036874417766400 (-48)).
    assert (HP : 0 < 2 ^ (- e)) by (apply Z.pow_pos_nonneg; lia).
    assert (HQ : JSNumber.to_Q (S754_finite false m e) = Zpos m # Z.to_pos (2 ^ (- e))).
    { unfold JSNumber.to_Q. destruct (Z.leb_spec 0 e); [lia|reflexivity]. }
    rewrite HQ.
    assert (Hex : Qfloor (25 * (Zpos m # Z.to_pos (2 ^ (- e)))) = 25 * Zpos m / 2 ^ (- e)).
    { unfold Qfloor, Qmult. cbn [Qnum Qden].
      rewrite Pos2Z.inj_mul, Z2Pos.id, Z.mul_1_l by lia. reflexivity. }
    rewrite Hex.
    destruct (floor_mul_random m e 25 7036874417766400 (-48))
      as (k & Hk & Hkb & Htight); try lia; try reflexivity.
    cbv zeta in Hkb, Htight.
    set (j := 25 * Zpos m / 2 ^ (- e)) in *.
    assert (Hj : 0 <= j <= 24).
    { subst j. split; [apply Z.div_pos; lia|].
      assert (25 * Zpos m / 2 ^ (- e) < 25); [|lia].
      apply Z.div_lt_upper_bound; lia. }
    assert (HtQ : (25 * (Zpos m # Z.to_pos (2 ^ (- e))) <= inject_Z (j + 1) - (1 # 2 ^ 48))%Q ->
                  k = j).
    { intros HleQ. apply Htight.
      unfold Qle, Qminus, Qplus, Qopp, Qmult, inject_Z in HleQ. cbn [Qnum Qden] in HleQ.
      rewrite !Pos2Z.inj_mul, Z2Pos.id in HleQ by lia.
      change (Zpos (2 ^ 48)) with (2 ^ 48) in HleQ.
      change (- -48) with 48. lia. }
    exists k. split; [exact Hk|]. split; [|split; [exact Hkb | exact HtQ]].
    split; [lia|].
    destruct (Z.eq_dec j 24) as [Hj24|]; [|lia].
    assert (Hgt : 25 * Zpos m < (j + 1) * 2 ^ (- e))
      by (subst j; rewrite (Z.mul_comm _ (2 ^ (- e))); apply Z.mul_succ_div_gt; lia).
    destruct (Z.eq_dec e (-53)) as [->|Hne].
    + destruct (Z.eq_dec (Zpos m) (2 ^ 53 - 1)) as [Hmax|Hnmax].
      * assert (m = 9007199254740991%positive) as -> by lia.
        vm_compute in Hk. injection Hk as <-. lia.
      * assert (k = j); [|lia]. apply Htight. rewrite Hj24.
        change (- -48) with 48. change (2 ^ (- -53)) with (2 ^ 53) in *. lia.
    + assert (k = j); [|lia]. apply Htight. rewrite Hj24. change (- -48) with 48.
      assert (2 ^ 54 <= 2 ^ (- e)) by (apply Z.pow_le_mono_r; lia). nia.
Qed.

(** A rounded number does not pass a bound [Mhi * 2 ^ E] of the number
    that is rounded, when the grid of [E] is not finer than the one of the
    result. *)
Lemma round_at_most (mx : positive) (ex : Z) (lx : location) (Mhi E : Z) :
  53 <= Zpos (digits2_pos mx) ->
  Zpos mx < 2 ^ (53 + E - ex) -> -1074 <= E <= 970 ->
  (if match lx with loc_Exact => true | _ => false end
   then Zpos mx else Zpos mx + 1) <= Mhi * 2 ^ (E - ex) ->
  match binary_round_aux JSNumber.prec JSNumber.emax false (Zpos mx) ex lx with
  | S754_zero false => True
  | S754_finite false mf ef =>
      forall L, L <= ef -> L <= E -> Zpos mf * 2 ^ (ef - L) <= Mhi * 2 ^ (E - L)
  | _ => False
  end.
Proof.
  intros HD Hlt HE HU.
  pose proof (digits_bounds mx) as [Hdlo Hdhi].
  assert (H0 : 0 <= 53 + E - ex).
  { destruct (Z_le_gt_dec 0 (53 + E - ex)); [assumption|].
    rewrite Z.pow_neg_r in Hlt by lia. lia. }
  assert (HDE : Zpos (digits2_pos mx) <= 53 + E - ex).
  { assert (Zpos (digits2_pos mx) - 1 < 53 + E - ex); [|lia].
    apply (Z.pow_lt_mono_r_iff 2); lia. }
  set (e1 := fexp JSNumber.prec JSNumber.emax (Zpos (digits2_pos mx) + ex)).
  assert (He1 : ex <= e1 <= E)
    by (subst e1; unfold fexp, emin, JSNumber.prec, JSNumber.emax; lia).
  destruct (binary_round_aux_shape mx ex lx) as (m2 & Hb & Hx & Hres); [fold e1; lia ..|].
  fold e1 in Hb, Hx, Hres.
  set (n := e1 - ex) in *.
  assert (Hpn : 0 < 2 ^ n) by (apply Z.pow_pos_nonneg; lia).
  assert (Hsplit : 2 ^ (E - ex) = 2 ^ (E - e1) * 2 ^ n).
  { rewrite <- Z.pow_add_r by lia. f_equal. lia. }
  assert (Hp1 : 0 < 2 ^ (E - e1)) by (apply Z.pow_pos_nonneg; lia).
  assert (Hhi2 : m2 <= Mhi * 2 ^ (E - e1)).
  { rewrite Hsplit, Z.mul_assoc in HU.
    set (K := Mhi * 2 ^ (E - e1)) in *.
    destruct (Z.eq_dec m2 (Zpos mx / 2 ^ n)) as [Heq|Hne].
    - rewrite Heq. apply Z.div_le_upper_bound; [lia|].
      destruct lx; cbn in HU; lia.
    - assert (Hlt2 : Zpos mx < K * 2 ^ n).
      { destruct lx as [|c]; cbn in HU; [|lia].
        destruct (Z.eq_dec (Zpos mx) (K * 2 ^ n)) as [Heq|]; [|lia].
        exfalso. apply Hne. apply Hx; [reflexivity|]. exists K. exact Heq. }
      assert (Zpos mx / 2 ^ n < K) by (apply Z.div_lt_upper_bound; lia).
      lia. }
  destruct (binary_round_aux _ _ _ _ _ _) as [[]| | |[] mf ef]; try contradiction; [exact I|].
  destruct Hres as [Hef Hm2]. intros L HL1 HL2.
  destruct (Z_le_gt_dec L e1) as [HLe|HLe].
  - replace (2 ^ (ef - L)) with (2 ^ (ef - e1) * 2 ^ (e1 - L))
      by (rewrite <- Z.pow_add_r by lia; f_equal; lia).
    replace (2 ^ (E - L)) with (2 ^ (E - e1) * 2 ^ (e1 - L))
      by (rewrite <- Z.pow_add_r by lia; f_equal; lia).
    rewrite !Z.mul_assoc. apply Z.mul_le_mono_nonneg_r; [apply Z.pow_nonneg; lia|].
    rewrite Hm2. exact Hhi2.
  - assert (L = ef /\ ef = e1 + 1) as [-> Hef1] by lia.
    replace (ef - ef) with 0 by lia. rewrite Z.mul_1_r.
    rewrite Hef1 in Hm2. replace (e1 + 1 - e1) with 1 in Hm2 by lia.
    replace (2 ^ (E - e1)) with (2 ^ (E - ef) * 2 ^ 1) in Hhi2
      by (rewrite <- Z.pow_add_r by lia; f_equal; lia).
    change (2 ^ 1) with 2 in *. lia.
Qed.

Lemma shl_align_fst (m : positive) (e ez : Z) :
  ez <= e -> Zpos (fst (shl_align m e ez)) = Zpos m * 2 ^ (e - ez).
Proof.
  intros He. unfold shl_align.
  destruct (ez - e) as [|d|d] eqn:Hd; try lia; cbn [fst].
  - replace (e - ez) with 0 by lia. lia.
  - rewrite Zpos_iter_xO. do 2 f_equal. lia.
Qed.

(** [Math.floor] of the binary64 number nearest to [S * 2 ^ ez], between
    the floors of two bounds of that number. *)
Lemma floor_binary_normalize (S ez Mlo Mhi E : Z) :
  2 ^ 52 <= S -> S < 2 ^ (53 + E - ez) -> -1074 <= E <= -2 ->
  Mlo * 2 ^ (E - ez) <= S <= Mhi * 2 ^ (E - ez) ->
  exists k,
    JSNumber.Math_floor (binary_normalize JSNumber.prec JSNumber.emax S ez false) = Some k /\
    Mlo / 2 ^ (- E) <= k <= Mhi / 2 ^ (- E).
Proof.
  intros HS Hlt HE [Hlo Hhi].
  destruct S as [|s|s]; try lia.
  assert (HD : 53 <= Zpos (digits2_pos s)).
  { pose proof (digits_bounds s) as [_ Hh].
    assert (52 < Zpos (digits2_pos s)); [|lia].
    apply (Z.pow_lt_mono_r_iff 2); lia. }
  unfold binary_normalize, binary_round, shl_align.
  destruct (fexp JSNumber.prec JSNumber.emax (Zpos (digits2_pos s) + ez) - ez)
    as [|d|d] eqn:Hd;
    try (apply floor_round_between; assumption).
  exfalso. unfold fexp, emin, JSNumber.prec, JSNumber.emax in Hd. lia.
Qed.

(** A draw that is not the largest number below 1 is at least [2 ^ -52]
    below 1. *)
Lemma random_number_gap (m : positive) (e : Z) :
  Zpos m < 2 ^ 53 -> Zpos m < 2 ^ (- e) -> e <= -53 ->
  ~ (e = -53 /\ Zpos m = 2 ^ 53 - 1) ->
  Zpos m * 7036874417766400 <= (7036874417766400 - 1) * 2 ^ (- e).
Proof.
  intros Hm Hlt He Hnot.
  destruct (Z.eq_dec e (-53)) as [->|Hne].
  - change (2 ^ (- -53)) with 9007199254740992 in *.
    change (2 ^ 53) with 9007199254740992 in *. lia.
  - assert (2 ^ 54 <= 2 ^ (- e)) by (apply Z.pow_le_mono_r; lia).
    change (2 ^ 54) with 18014398509481984 in *.
    change (2 ^ 53) with 9007199254740992 in *. nia.
Qed.

(** [Math.floor(Math.random() * 100 + 20)] lies between 20 and 119. *)
Lemma floor_latency (r : spec_float) :
  JSNumber.is_random_number r ->
  exists l,
    JSNumber.Math_floor
      (JSNumber.add (JSNumber.mul r (JSNumber.of_Z 100)) (JSNumber.of_Z 20)) = Some l /\
    20 <= l <= 119.
Proof.
  unfold JSNumber.is_random_number.
  destruct r as [s| | |s m e]; try discriminate.
  { destruct s; [discriminate|]. intros _. exists 20. split; [reflexivity | lia]. }
  destruct s; [discriminate|]. intros Hr.
  destruct (random_number_finite m e Hr) as (Hm53 & Hlt & He & Hnorm).
  assert (Hcase : (e = -53 /\ Zpos m = 2 ^ 53 - 1) \/ ~ (e = -53 /\ Zpos m = 2 ^ 53 - 1))
    by lia.
  destruct Hcase as [[-> Hmax]|Hnot].
  { assert (m = 9007199254740991%positive) as -> by lia.
    exists 119. split; [vm_compute; reflexivity | lia]. }
  pose proof (random_number_gap m e Hm53 Hlt ltac:(lia) Hnot) as Hgap.
  change (JSNumber.of_Z 100) with (S754_finite false 7036874417766400 (-46)).
  change (JSNumber.of_Z 20) with (S754_finite false 5629499534213120 (-48)).
  unfold JSNumber.mul, SFmul. cbn [xorb].
  set (mx := (m * 7036874417766400)%positive).
  assert (Hmx : Zpos mx = Zpos m * 7036874417766400) by (subst mx; apply Pos2Z.inj_mul).
  assert (HP : 0 < 2 ^ (- e)) by (apply Z.pow_pos_nonneg; lia).
  assert (HDx : 53 <= Zpos (digits2_pos mx)).
  { pose proof (digits_bounds mx) as [_ Hhi].
    assert (52 < Zpos (digits2_pos mx)); [|lia].
    apply (Z.pow_lt_mono_r_iff 2); [lia|lia|].
    change (2 ^ 52) with 4503599627370496. nia. }
  assert (Hvx : Zpos mx < 2 ^ (53 + -46 - (e + -46))).
  { replace (53 + -46 - (e + -46)) with (53 + - e) by lia.
    rewrite Z.pow_add_r by lia. change (2 ^ 53) with 9007199254740992. nia. }
  assert (Htop : Zpos mx <= (7036874417766400 - 1) * 2 ^ (-46 - (e + -46))).
  { replace (-46 - (e + -46)) with (- e) by lia. rewrite Hmx. exact Hgap. }
  pose proof (round_at_most mx (e + -46) loc_Exact (7036874417766400 - 1) (-46)
                HDx Hvx ltac:(lia) Htop) as Hp.
  destruct (binary_round_aux JSNumber.prec JSNumber.emax false (Zpos mx) (e + -46) loc_Exact)
    as [[]| | |[] mp ep] eqn:Hprod; try contradiction.
  { exists 20. split; [reflexivity | lia]. }
  unfold JSNumber.add, SFadd. cbn [cond_Zopp].
  set (ez := Z.min ep (-48)).
  assert (Hez : ez <= ep /\ ez <= -48) by (subst ez; lia).
  rewrite !shl_align_fst by lia.
  specialize (Hp ez ltac:(lia) ltac:(lia)).
  assert (Hpz : 0 < 2 ^ (-48 - ez)) by (apply Z.pow_pos_nonneg; lia).
  assert (Hpe : 0 < 2 ^ (ep - ez)) by (apply Z.pow_pos_nonneg; lia).
  assert (Hsplit : 2 ^ (-46 - ez) = 4 * 2 ^ (-48 - ez)).
  { replace (-46 - ez) with (2 + (-48 - ez)) by lia.
    rewrite Z.pow_add_r by lia. reflexivity. }
  apply (floor_binary_normalize _ ez 1407374883553280 (8444249301319680 - 1) (-46)).
  - change (2 ^ 52) with 4503599627370496. nia.
  - replace (53 + -46 - ez) with (55 + (-48 - ez)) by lia.
    rewrite Z.pow_add_r by lia. change (2 ^ 55) with 36028797018963968.
    rewrite Hsplit in Hp. nia.
  - lia.
  - rewrite Hsplit in Hp |- *. lia.
Qed.

(** *** The percentage and the exact quotient *)

(** A rounded number in the normal range lies between two bounds
    [Mlo * 2 ^ E] and [Mhi * 2 ^ E] of the number that is rounded. *)
Lemma round_between (mx : positive) (ex : Z) (lx : location) (Mlo Mhi E : Z) :
  53 <= Zpos (digits2_pos mx) ->
  -1074 <= Zpos (digits2_pos mx) + ex - 53 ->
  Zpos mx < 2 ^ (52 + E - ex) -> E <= 970 ->
  Mlo * 2 ^ (E - ex) <= Zpos mx ->
  (if match lx with loc_Exact => true | _ => false end
   then Zpos mx else Zpos mx + 1) <= Mhi * 2 ^ (E - ex) ->
  exists mf ef,
    binary_round_aux JSNumber.prec JSNumber.emax false (Zpos mx) ex lx
    = S754_finite false mf ef /\
    ex <= ef <= E /\
    Mlo * 2 ^ (E - ef) <= Zpos mf <= Mhi * 2 ^ (E - ef).
Proof.
  intros HD Hnorm Hlt HE Hlo HU.
  pose proof (digits_bounds mx) as [Hdlo Hdhi].
  assert (H0 : 0 <= 52 + E - ex).
  { destruct (Z_le_gt_dec 0 (52 + E - ex)); [assumption|].
    rewrite Z.pow_neg_r in Hlt by lia. lia. }
  assert (HDE : Zpos (digits2_pos mx) <= 52 + E - ex).
  { assert (Zpos (digits2_pos mx) - 1 < 52 + E - ex); [|lia].
    apply (Z.pow_lt_mono_r_iff 2); lia. }
  set (e1 := fexp JSNumber.prec JSNumber.emax (Zpos (digits2_pos mx) + ex)).
  assert (He1 : e1 = Zpos (digits2_pos mx) + ex - 53)
    by (subst e1; unfold fexp, emin, JSNumber.prec, JSNumber.emax; lia).
  destruct (binary_round_aux_shape mx ex lx) as (m2 & Hb & Hx & Hres); [fold e1; lia ..|].
  fold e1 in Hb, Hx, Hres.
  set (n := e1 - ex) in *.
  assert (Hpn : 0 < 2 ^ n) by (apply Z.pow_pos_nonneg; lia).
  assert (Hsplit : 2 ^ (E - ex) = 2 ^ (E - e1) * 2 ^ n).
  { rewrite <- Z.pow_add_r by lia. f_equal. lia. }
  assert (Hp1 : 0 < 2 ^ (E - e1)) by (apply Z.pow_pos_nonneg; lia).
  assert (Hm1 : 2 ^ 52 <= Zpos mx / 2 ^ n).
  { apply Z.div_le_lower_bound; [lia|]. rewrite Z.mul_comm, <- Z.pow_add_r by lia.
    replace (52 + n) with (Zpos (digits2_pos mx) - 1) by lia. exact Hdlo. }
  assert (Hlo2 : Mlo * 2 ^ (E - e1) <= m2).
  { apply Z.le_trans with (Zpos mx / 2 ^ n); [|lia].
    apply Z.div_le_lower_bound; [lia|]. rewrite Hsplit in Hlo. lia. }
  assert (Hhi2 : m2 <= Mhi * 2 ^ (E - e1)).
  { rewrite Hsplit, Z.mul_assoc in HU.
    set (K := Mhi * 2 ^ (E - e1)) in *.
    destruct (Z.eq_dec m2 (Zpos mx / 2 ^ n)) as [Heq|Hne].
    - rewrite Heq. apply Z.div_le_upper_bound; [lia|].
      destruct lx; cbn in HU; lia.
    - assert (Hlt2 : Zpos mx < K * 2 ^ n).
      { destruct lx as [|c]; cbn in HU; [|lia].
        destruct (Z.eq_dec (Zpos mx) (K * 2 ^ n)) as [Heq|]; [|lia].
        exfalso. apply Hne. apply Hx; [reflexivity|]. exists K. exact Heq. }
      assert (Zpos mx / 2 ^ n < K) by (apply Z.div_lt_upper_bound; lia).
      lia. }
  destruct (binary_round_aux _ _ _ _ _ _) as [[]| | |[] mf ef]; try contradiction; [lia|].
  destruct Hres as [Hef Hm2]. exists mf, ef. split; [reflexivity|]. split; [lia|].
  assert (Hp2 : 0 < 2 ^ (ef - e1)) by (apply Z.pow_pos_nonneg; lia).
  assert (Hs2 : 2 ^ (E - e1) = 2 ^ (E - ef) * 2 ^ (ef - e1)).
  { rewrite <- Z.pow_add_r by lia. f_equal. lia. }
  rewrite Hs2, Z.mul_assoc in Hlo2, Hhi2. rewrite <- Hm2 in Hlo2, Hhi2.
  split; [apply (Z.mul_le_mono_pos_r _ _ (2 ^ (ef - e1))) | apply (Z.mul_le_mono_pos_r _ _ (2 ^ (ef - e1)))]; assumption.
Qed.

(** The quotient of two positive safe integers [a <= b], in binary64, lies
    between two bounds [Nlo / 2 ^ 20] and [Nhi / 2 ^ 20] of [a / b]. *)
Lemma div_between (a b : positive) (Nlo Nhi : Z) :
  Zpos a < 2 ^ 53 -> Zpos b < 2 ^ 53 -> Zpos a <= Zpos b ->
  Nlo * Zpos b <= Zpos a * 2 ^ 20 -> Zpos a * 2 ^ 20 <= Nhi * Zpos b -> Nhi <= 2 ^ 21 ->
  exists mq eq,
    JSNumber.div (JSNumber.of_Z (Zpos a)) (JSNumber.of_Z (Zpos b)) = S754_finite false mq eq /\
    -200 <= eq <= -20 /\
    Nlo * 2 ^ (-20 - eq) <= Zpos mq <= Nhi * 2 ^ (-20 - eq).
Proof.
  intros Ha Hb Hab Hlo Hhi HN.
  destruct (of_Z_pos_normal a Ha) as (m1 & e1 & -> & Hm1 & He1 & Hd1).
  destruct (of_Z_pos_normal b Hb) as (m2 & e2 & -> & Hm2 & He2 & Hd2).
  pose proof (digits_bounds m1) as [Hlo1 Hhi1]. rewrite Hd1 in Hlo1, Hhi1.
  pose proof (digits_bounds m2) as [Hlo2 Hhi2]. rewrite Hd2 in Hlo2, Hhi2.
  change (2 ^ (53 - 1)) with (2 ^ 52) in *.
  unfold JSNumber.div, SFdiv, SFdiv_core_binary. cbn [Zdigits2 xorb].
  rewrite Hd1, Hd2.
  replace (Z.min (fexp JSNumber.prec JSNumber.emax (53 + e1 - (53 + e2))) (e1 - e2))
    with (e1 - e2 - 53)
    by (unfold fexp, emin, JSNumber.prec, JSNumber.emax; lia).
  replace (e1 - e2 - (e1 - e2 - 53)) with 53 by lia.
  cbv iota. rewrite Z.shiftl_mul_pow2 by lia.
  pose proof (Z.div_mod (Zpos m1 * 2 ^ 53) (Zpos m2) ltac:(lia)) as Hdm.
  pose proof (Z.mod_pos_bound (Zpos m1 * 2 ^ 53) (Zpos m2) ltac:(lia)) as Hmb.
  unfold Z.div, Z.modulo in Hdm, Hmb.
  destruct (Z.div_eucl (Zpos m1 * 2 ^ 53) (Zpos m2)) as [q0 r0]. cbn [fst snd] in Hdm, Hmb.
  set (ex := e1 - e2 - 53).
  assert (Hq52 : 2 ^ 52 <= q0).
  { assert (2 ^ 52 * Zpos m2 < Zpos m2 * (q0 + 1)) by nia. nia. }
  assert (Hq54 : q0 < 2 ^ 54).
  { change (2 ^ 54) with (2 ^ 52 * 4). nia. }
  destruct q0 as [|mq0|mq0]; try lia.
  pose proof (digits_bounds mq0) as [Hl Hh].
  assert (HD : 53 <= Zpos (digits2_pos mq0) <= 54).
  { assert (52 < Zpos (digits2_pos mq0)) by (apply (Z.pow_lt_mono_r_iff 2); lia).
    assert (Zpos (digits2_pos mq0) - 1 < 54) by (apply (Z.pow_lt_mono_r_iff 2); lia).
    lia. }
  assert (Hp1 : 0 < 2 ^ (- e1)) by (apply Z.pow_pos_nonneg; lia).
  assert (Hp2 : 0 < 2 ^ (- e2)) by (apply Z.pow_pos_nonneg; lia).
  assert (He12 : e1 <= e2).
  { destruct (Z_le_gt_dec e1 e2); [assumption|exfalso].
    assert (2 ^ (- e2) = 2 ^ (- e1) * 2 ^ (e1 - e2))
      by (rewrite <- Z.pow_add_r by lia; f_equal; lia).
    assert (2 ^ 1 <= 2 ^ (e1 - e2)) by (apply Z.pow_le_mono_r; lia).
    change (2 ^ 1) with 2 in *. nia. }
  (* the bounds, on the grid of 2 ^ (-20 - ex) *)
  assert (Hgrid : 2 ^ (-20 - ex) * 2 ^ (- e2) * 2 ^ 20 = 2 ^ 53 * 2 ^ (- e1)).
  { subst ex. replace (-20 - (e1 - e2 - 53)) with (33 + (e2 - e1)) by lia.
    rewrite <- !Z.pow_add_r by lia. f_equal. lia. }
  assert (Hpg : 0 < 2 ^ (-20 - ex)) by (apply Z.pow_pos_nonneg; subst ex; lia).
  assert (HloZ : Nlo * 2 ^ (-20 - ex) <= Zpos mq0).
  { assert (Hk : Nlo * 2 ^ (-20 - ex) * Zpos m2 <= Zpos m1 * 2 ^ 53).
    2:{ assert (Hk2 : Nlo * 2 ^ (-20 - ex) * Zpos m2 < (Zpos mq0 + 1) * Zpos m2) by lia.
        apply Z.mul_lt_mono_pos_r in Hk2; lia. }
    rewrite Hm1, Hm2.
    assert (Nlo * Zpos b * (2 ^ (-20 - ex) * 2 ^ (- e2) * 2 ^ 20)
            <= Zpos a * 2 ^ 20 * (2 ^ (-20 - ex) * 2 ^ (- e2) * 2 ^ 20)).
    { apply Z.mul_le_mono_nonneg_r; [lia|exact Hlo]. }
    rewrite Hgrid in H at 2. nia. }
  assert (HhiZ : Zpos m1 * 2 ^ 53 <= Nhi * 2 ^ (-20 - ex) * Zpos m2).
  { rewrite Hm1, Hm2.
    assert (Zpos a * 2 ^ 20 * (2 ^ (-20 - ex) * 2 ^ (- e2) * 2 ^ 20)
            <= Nhi * Zpos b * (2 ^ (-20 - ex) * 2 ^ (- e2) * 2 ^ 20)).
    { apply Z.mul_le_mono_nonneg_r; [lia|exact Hhi]. }
    rewrite Hgrid in H at 1. nia. }
  destruct (round_between mq0 ex (new_location (Zpos m2) r0) Nlo Nhi (-20))
    as (mf & ef & Hres & Hef & Hbd).
  - lia.
  - subst ex. lia.
  - eapply Z.lt_le_trans; [exact Hq54|]. apply Z.pow_le_mono_r; subst ex; lia.
  - lia.
  - exact HloZ.
  - destruct (Z.eq_dec r0 0) as [->|Hr0].
    + replace (new_location (Zpos m2) 0) with loc_Exact
        by (unfold new_location, new_location_even, new_location_odd;
            destruct (Z.even _); reflexivity).
      cbv iota.
      assert (Hk2 : Zpos mq0 * Zpos m2 <= Nhi * 2 ^ (-20 - ex) * Zpos m2) by lia.
      apply Z.mul_le_mono_pos_r in Hk2; lia.
    + assert (Hk2 : Zpos mq0 * Zpos m2 < Nhi * 2 ^ (-20 - ex) * Zpos m2) by lia.
      apply Z.mul_lt_mono_pos_r in Hk2; [|lia].
      destruct (match new_location (Zpos m2) r0 with loc_Exact => true | _ => false end); lia.
  - exists mf, ef. split; [exact Hres|]. split; [subst ex; lia | exact Hbd].
Qed.

(** The percentage computed in binary64 is within one of the exact floor
    of [100 * count / target]. *)
Lemma percent_near_exact (nextVal targetViews : Z) :
  0 <= nextVal <= targetViews ->
  0 < targetViews <= JSNumber.MAX_SAFE_INTEGER ->
  exists p,
    percent nextVal targetViews = Some p /\
    100 * nextVal / targetViews - 1 <= p <= 100 * nextVal / targetViews + 1.
Proof.
  intros Hn Ht. unfold JSNumber.MAX_SAFE_INTEGER in Ht.
  destruct (Z.eq_dec nextVal 0) as [->|Hn0].
  { exists 0. split; [apply percent_zero; lia|]. cbn. lia. }
  destruct nextVal as [|a|a]; try lia. destruct targetViews as [|b|b]; try lia.
  set (K := 100 * Zpos a / Zpos b).
  pose proof (Z.mul_div_le (100 * Zpos a) (Zpos b) ltac:(lia)) as HK1.
  pose proof (Z.mul_succ_div_gt (100 * Zpos a) (Zpos b) ltac:(lia)) as HK2.
  fold K in HK1, HK2.
  assert (HK : 0 <= K <= 100).
  { subst K. split; [apply Z.div_pos; lia|]. apply Z.div_le_upper_bound; lia. }
  set (Nlo := ((K - 1) * 2 ^ 20 + 99) / 100).
  set (Nhi := ((K + 1) * 2 ^ 20 + 99) / 100).
  pose proof (Z.mul_div_le ((K - 1) * 2 ^ 20 + 99) 100 ltac:(lia)) as Hlo1.
  pose proof (Z.mul_succ_div_gt ((K - 1) * 2 ^ 20 + 99) 100 ltac:(lia)) as Hlo2.
  pose proof (Z.mul_div_le ((K + 1) * 2 ^ 20 + 99) 100 ltac:(lia)) as Hhi1.
  pose proof (Z.mul_succ_div_gt ((K + 1) * 2 ^ 20 + 99) 100 ltac:(lia)) as Hhi2.
  fold Nlo in Hlo1, Hlo2. fold Nhi in Hhi1, Hhi2.
  change (2 ^ 20) with 1048576 in *.
  assert (Hb1 : Nlo * Zpos b <= Zpos a * 2 ^ 20) by (change (2 ^ 20) with 1048576; nia).
  assert (Hb2 : Zpos a * 2 ^ 20 <= Nhi * Zpos b) by (change (2 ^ 20) with 1048576; nia).
  assert (Hb3 : Nhi <= 2 ^ 21) by (change (2 ^ 21) with 2097152; lia).
  destruct (div_between a b Nlo Nhi ltac:(lia) ltac:(lia) ltac:(lia) Hb1 Hb2 Hb3)
    as (mq & eq & Hq & Heq & Hmq).
  unfold percent. rewrite Hq.
  change (JSNumber.of_Z 100) with (S754_finite false 7036874417766400 (-46)).
  unfold JSNumber.mul, SFmul. cbn [xorb].
  set (mx := (mq * 7036874417766400)%positive).
  assert (Hmx : Zpos mx = Zpos mq * (100 * 2 ^ 46)) by (subst mx; rewrite Pos2Z.inj_mul; reflexivity).
  set (G := 2 ^ (-20 - eq)) in *.
  assert (HG : 0 < G) by (apply Z.pow_pos_nonneg; lia).
  assert (Hexp : 2 ^ (-20 - (eq + -46)) = G * 2 ^ 46).
  { subst G. rewrite <- Z.pow_add_r by lia. f_equal. lia. }
  destruct (floor_round_between mx (eq + -46) loc_Exact (100 * Nlo) (100 * Nhi) (-20))
    as (k & Hk & Hkb).
  - pose proof (digits_bounds mx) as [_ Hhi].
    assert (52 < Zpos (digits2_pos mx)); [|lia].
    apply (Z.pow_lt_mono_r_iff 2); [lia|lia|].
    change (2 ^ 46) with 70368744177664 in Hmx. change (2 ^ 52) with 4503599627370496. nia.
  - replace (53 + -20 - (eq + -46)) with (99 + (-20 - eq)) by lia.
    rewrite Z.pow_add_r by lia. fold G. rewrite Hmx.
    change (2 ^ 46) with 70368744177664. change (2 ^ 99) with 633825300114114700748351602688.
    change (2 ^ 21) with 2097152 in Hb3. nia.
  - lia.
  - rewrite Hexp, Hmx. nia.
  - cbv iota. rewrite Hexp, Hmx. nia.
  - exists k. split; [exact Hk|].
    change (2 ^ (- -20)) with 1048576 in Hkb.
    assert (K - 1 <= 100 * Nlo / 1048576) by (apply Z.div_le_lower_bound; lia).
    assert (100 * Nhi / 1048576 < K + 2) by (apply Z.div_lt_upper_bound; lia).
    lia.
Qed.

(** ** Lists and random draws *)

Section SliceLast.
Context {A : Type}.
Implicit Types (l : list A) (n : nat).

Lemma slice_last_length n l :
  List.length (JSString.slice_last n l) = Nat.min n (List.length l).
Proof. unfold JSString.slice_last. rewrite length_skipn. lia. Qed.

Lemma slice_last_all n l :
  (List.length l <= n)%nat -> JSString.slice_last n l = l.
Proof.
  intros H. unfold JSString.slice_last.
  replace (List.length l - n)%nat with 0%nat by lia. reflexivity.
Qed.

Lemma slice_last_split n l :
  l = firstn (List.length l - n) l ++ JSString.slice_last n l.
Proof. unfold JSString.slice_last. symmetry. apply firstn_skipn. Qed.

Lemma slice_last_snoc n l (x : A) :
  JSString.slice_last (S n) (l ++ [x]) = JSString.slice_last n l ++ [x].
Proof.
  unfold JSString.slice_last. rewrite length_app. cbn [List.length].
  replace (List.length l + 1 - S n)%nat with (List.length l - n)%nat by lia.
  rewrite skipn_app.
  replace (List.length l - n - List.length l)%nat with 0%nat by lia.
  reflexivity.
Qed.

Lemma slice_last_app_slice n l l2 :
  JSString.slice_last n (JSString.slice_last n l ++ l2) = JSString.slice_last n (l ++ l2).
Proof.
  unfold JSString.slice_last.
  rewrite !length_app, length_skipn.
  rewrite !skipn_app, skipn_skipn, length_skipn.
  f_equal.
  - f_equal. lia.
  - f_equal. lia.
Qed.

Lemma slice_last_full_snoc n l (x : A) :
  List.length l = S n -> JSString.slice_last (S n) (l ++ [x]) = tl l ++ [x].
Proof.
  intros H. rewrite slice_last_snoc. f_equal.
  unfold JSString.slice_last. rewrite H.
  replace (S n - n)%nat with 1%nat by lia.
  destruct l; reflexivity.
Qed.
End SliceLast.

Lemma slice_last_100 {A : Type} (l : list A) :
  (List.length (JSString.slice_last 100 l) <= 100)%nat.
Proof. rewrite slice_last_length. lia. Qed.

Lemma slice_last_ends {A : Type} (n : nat) (l : list A) (x : A) :
  exists older, JSString.slice_last (S n) (l ++ [x]) = older ++ [x].
Proof. rewrite slice_last_snoc. eexists; reflexivity. Qed.

Lemma floor_scaled_bounds (r : Q) (n : Z) :
  JSNumber.is_random r -> 0 < n ->
  0 <= JSNumber.Math_floor_Q (r * inject_Z n) < n.
Proof.
  intros [H0 H1] Hn. destruct r as [a b].
  unfold Qle in H0. unfold Qlt in H1. cbn in H0, H1.
  unfold JSNumber.Math_floor_Q, Qfloor, Qmult, inject_Z. cbn [Qnum Qden].
  rewrite Pos.mul_1_r.
  split.
  - apply Z.div_pos; nia.
  - apply Z.div_lt_upper_bound; nia.
Qed.

Lemma floor_scaled_uniform (r : Q) (n : positive) (k : Z) :
  JSNumber.Math_floor_Q (r * inject_Z (Zpos n)) = k <->
  (k # n <= r)%Q /\ (r < (k + 1) # n)%Q.
Proof.
  destruct r as [a b].
  unfold JSNumber.Math_floor_Q, Qfloor, Qmult, inject_Z, Qle, Qlt. cbn [Qnum Qden].
  rewrite Pos.mul_1_r.
  split.
  - intros <-.
    pose proof (Z.mul_div_le (a * Zpos n) (Zpos b) ltac:(lia)).
    pose proof (Z.mul_succ_div_gt (a * Zpos n) (Zpos b) ltac:(lia)).
    nia.
  - intros [H1 H2]. symmetry. apply Z.div_unique with (r := a * Zpos n - Zpos b * k); nia.
Qed.

(** ** The registry and the rotation *)

Lemma BoostStatus_eqb_eq (a b : BoostStatus) : BoostStatus_eqb a b = true <-> a = b.
Proof. destruct a, b; cbn; split; congruence. Qed.

Lemma BoostStatus_eqb_refl (a : BoostStatus) : BoostStatus_eqb a a = true.
Proof. destruct a; reflexivity. Qed.

Lemma BoostStatus_eqb_neq (a b : BoostStatus) : BoostStatus_eqb a b = false <-> a <> b.
Proof. destruct a, b; cbn; split; congruence. Qed.

Lemma NoDup_SERVER_NODES : NoDup SERVER_NODES.
Proof.
  unfold SERVER_NODES.
  repeat (constructor; [cbn; intuition discriminate|]). constructor.
Qed.

(** The registry without the node of a given id keeps at least four nodes. *)
Lemma availableServers_length (s : AppState) :
  (4 <= List.length (availableServers s) <= 5)%nat.
Proof.
  unfold availableServers, SERVER_NODES.
  generalize (id (activeServer s)) as x. intros x.
  cbn [filter id us_east_1 eu_west_1 ap_southeast_1 br_south_1 jp_tokyo_1].
  repeat match goal with
         | |- context [String.eqb ?a ?b] =>
             destruct (String.eqb_spec a b); try subst x; try discriminate
         end; cbn; lia.
Qed.

Lemma availableServers_length_registered (s : AppState) :
  In (activeServer s) SERVER_NODES -> List.length (availableServers s) = 4%nat.
Proof.
  unfold availableServers. generalize (activeServer s) as n. intros n Hin.
  cbn in Hin. repeat destruct Hin as [<- | Hin]; try reflexivity. contradiction.
Qed.

Lemma availableServers_In (s : AppState) (n : ServerNode) :
  In n (availableServers s) <-> In n SERVER_NODES /\ id n <> id (activeServer s).
Proof.
  unfold availableServers. rewrite filter_In.
  rewrite negb_true_iff. 
  destruct (String.eqb_spec (id n) (id (activeServer s))); intuition congruence.
Qed.

Lemma index_in_bounds {A : Type} (l : list A) (i : Z) :
  0 <= i < Z.of_nat (List.length l) -> exists x, JSString.index l i = Some x /\ In x l.
Proof.
  intros Hi. unfold JSString.index.
  destruct (Z.ltb_spec i 0); [lia|].
  destruct (nth_error l (Z.to_nat i)) as [x|] eqn:Hn.
  - exists x. split; [reflexivity|]. eapply nth_error_In; eassumption.
  - apply nth_error_None in Hn. lia.
Qed.

Lemma index_Some_In {A : Type} (l : list A) (i : Z) (x : A) :
  JSString.index l i = Some x -> In x l.
Proof.
  unfold JSString.index. destruct (i <? 0); [discriminate|].
  apply nth_error_In.
Qed.

Lemma pick_index_bounds (d : TickDraws) (s : AppState) :
  JSNumber.is_random (r_pick d) ->
  0 <= pick_index d s < Z.of_nat (List.length (availableServers s)).
Proof.
  intros Hr. unfold pick_index. apply floor_scaled_bounds; [assumption|].
  pose proof (availableServers_length s). lia.
Qed.

(** The increment of a tick is the floor of a finite product, plus 10: it
    lies between 10 and 34; it is the exact [floor (25 * r) + 10] or one
    more, and it is the exact one unless [25 * r] is within [2 ^ -48] of the
    next integer. *)
Lemma increment_floor (d : TickDraws) :
  JSNumber.is_random_number (r_increment d) ->
  JSNumber.Math_floor (JSNumber.mul (r_increment d) (JSNumber.of_Z 25))
  = Some (increment d - 10) /\
  10 <= increment d <= 34 /\
  Qfloor (25 * JSNumber.to_Q (r_increment d)) + 10 <= increment d
  <= Qfloor (25 * JSNumber.to_Q (r_increment d)) + 11 /\
  ((25 * JSNumber.to_Q (r_increment d)
    <= inject_Z (Qfloor (25 * JSNumber.to_Q (r_increment d)) + 1) - (1 # 2 ^ 48))%Q ->
   increment d = Qfloor (25 * JSNumber.to_Q (r_increment d)) + 10).
Proof.
  intros Hr. destruct (floor_mul_25 _ Hr) as (k & Hk & Hb & Hex & Htight).
  unfold increment, JSNumber.floor. rewrite Hk.
  split; [f_equal; lia|]. split; [lia|]. split; [lia|].
  intros Hle. rewrite (Htight Hle). reflexivity.
Qed.

Lemma increment_bounds (d : TickDraws) :
  JSNumber.is_random_number (r_increment d) -> 10 <= increment d <= 34.
Proof. intros Hr. apply (increment_floor d Hr). Qed.

(** The product is the binary64 one: [0.12 * 25] is [3], not
    [2.9999999999999996], and [0.03 * 100 + 20] is [23]. *)
Example increment_at_0_12 (d : TickDraws) :
  r_increment d = draw_0_12 -> increment d = 13.
Proof. intros Hd. unfold increment. rewrite Hd. vm_compute. reflexivity. Qed.

Example latency_at_0_03 (nextServer : ServerNode) (d : TickDraws) :
  r_latency d = draw_0_03 ->
  handoff_message nextServer d =
  ("Handoff to " ++ name nextServer ++ " (" ++ region nextServer ++ ") - Latency: "
   ++ "23" ++ "ms")%string.
Proof.
  intros Hd. unfold handoff_message. rewrite Hd.
  replace (JSNumber.toString
             (JSNumber.floor
                (JSNumber.add (JSNumber.mul draw_0_03 (JSNumber.of_Z 100))
                              (JSNumber.of_Z 20))))
    with "23" by (vm_compute; reflexivity).
  reflexivity.
Qed.

Lemma addLog_length (now msg : string) (ty : LogType) (s : AppState) :
  (List.length (logs (addLog now msg ty s)) <= 100)%nat.
Proof. unfold addLog. cbn. rewrite slice_last_length. lia. Qed.

(** The rotation never throws, and a handoff moves to another registry node. *)
Lemma rotate_defined (d : TickDraws) (s : AppState) :
  JSNumber.is_random (r_pick d) -> exists s1, rotate d s = Some s1.
Proof.
  intros Hr. unfold rotate.
  destruct (JSNumber.gtb _ _); [|eexists; reflexivity].
  destruct (index_in_bounds _ _ (pick_index_bounds d s Hr)) as (n & -> & _).
  eexists; reflexivity.
Qed.

Lemma rotate_fields (d : TickDraws) (s s1 : AppState) :
  rotate d s = Some s1 ->
  videoUrl s1 = videoUrl s /\ targetViews s1 = targetViews s /\
  currentViews s1 = currentViews s /\ status s1 = status s /\
  analysis s1 = analysis s /\ isAnalyzing s1 = isAnalyzing s /\
  progress s1 = progress s.
Proof.
  unfold rotate. destruct (JSNumber.gtb _ _).
  - destruct (JSString.index _ _); intros [= <-]; repeat split.
  - intros [= <-]; repeat split.
Qed.

Lemma rotate_server (d : TickDraws) (s s1 : AppState) :
  rotate d s = Some s1 ->
  activeServer s1 = activeServer s \/
  (In (activeServer s1) SERVER_NODES /\ id (activeServer s1) <> id (activeServer s)).
Proof.
  unfold rotate. destruct (JSNumber.gtb _ _).
  - destruct (JSString.index _ _) as [n|] eqn:Hn; intros [= <-].
    right. apply availableServers_In. apply index_Some_In in Hn. exact Hn.
  - intros [= <-]. left; reflexivity.
Qed.

Lemma rotate_logs (d : TickDraws) (s s1 : AppState) :
  rotate d s = Some s1 ->
  (List.length (logs s) <= 100 -> List.length (logs s1) <= 100)%nat.
Proof.
  unfold rotate. destruct (JSNumber.gtb _ _).
  - destruct (JSString.index _ _); intros [= <-] _. apply addLog_length.
  - intros [= <-]. trivial.
Qed.

(** ** The handlers *)

Lemma useEffect_sync (old new : AppState) (live : bool) :
  (status old = status new -> live = BoostStatus_eqb (status old) PROCESSING) ->
  useEffect old new live = BoostStatus_eqb (status new) PROCESSING.
Proof.
  intros Hlive. unfold useEffect, deps_changed.
  destruct (BoostStatus_eqb (status old) (status new)) eqn:Hs; cbn [andb negb].
  - apply BoostStatus_eqb_eq in Hs.
    destruct (_ && _); cbn [negb]; [rewrite <- Hs; auto | reflexivity].
  - reflexivity.
Qed.

Lemma useEffect_same_deps (old new : AppState) (live : bool) :
  status new = status old -> targetViews new = targetViews old ->
  activeServer new = activeServer old ->
  useEffect old new live = live.
Proof.
  intros Hs Ht Ha. unfold useEffect, deps_changed.
  rewrite Hs, Ht, Ha, BoostStatus_eqb_refl, Z.eqb_refl, String.eqb_refl. reflexivity.
Qed.

Lemma handleStartBoost_invalid (t1 t2 t3 : string) (s : AppState) :
  invalid_source (videoUrl s) = true ->
  handleStartBoost t1 t2 t3 s =
  (addLog t1 "Invalid source: Please provide a valid TikTok video link." error s, []).
Proof. intros H. unfold handleStartBoost. rewrite H. reflexivity. Qed.

Lemma handleStartBoost_valid (t1 t2 t3 : string) (s s' : AppState) (reqs : list string) :
  invalid_source (videoUrl s) = false ->
  handleStartBoost t1 t2 t3 s = (s', reqs) ->
  status s' = PROCESSING /\ currentViews s' = 0 /\ progress s' = Some 0 /\
  analysis s' = None /\ isAnalyzing s' = true /\
  targetViews s' = targetViews s /\ activeServer s' = activeServer s /\
  videoUrl s' = videoUrl s /\ reqs = [videoUrl s] /\
  (List.length (logs s') <= 100)%nat.
Proof.
  intros H. unfold handleStartBoost. rewrite H. intros [= <- <-].
  repeat split. apply addLog_length.
Qed.

(** A tick of a running campaign, when the target is not yet reached. *)
Lemma tick_running (d : TickDraws) (s : AppState) :
  JSNumber.is_random (r_pick d) ->
  currentViews s < targetViews s ->
  exists s1,
    rotate d s = Some s1 /\
    tick d s =
    Some (setCurrentViews (Z.min (currentViews s + increment d) (targetViews s))
            (setProgress (percent (Z.min (currentViews s + increment d) (targetViews s))
                                  (targetViews s)) s1),
          false).
Proof.
  intros Hr Hlt. destruct (rotate_defined d s Hr) as [s1 Hs1].
  exists s1. split; [assumption|].
  unfold tick. destruct (Z.leb_spec (targetViews s) (currentViews s)); [lia|].
  rewrite Hs1. reflexivity.
Qed.

(** The tick of a campaign that has reached its target. *)
Lemma tick_done (d : TickDraws) (s : AppState) :
  targetViews s <= currentViews s ->
  tick d s =
  Some (setCurrentViews (targetViews s)
          (addLog (now d) (success_message (targetViews s)) success
             (setStatus COMPLETED s)),
        true).
Proof.
  intros Hle. unfold tick.
  destruct (Z.leb_spec (targetViews s) (currentViews s)); [reflexivity|lia].
Qed.

Lemma step_timer `{Builtins} (w w' : World) (d : TickDraws) :
  step w (TimerFires d) = Next w' ->
  interval w = true /\
  exists s' cleared,
    tick d (app w) = Some (s', cleared) /\
    w' = {| app := s';
            interval := useEffect (app w) s' (if cleared then false else interval w);
            pending := pending w |}.
Proof.
  unfold step. destruct (interval w); [|discriminate].
  destruct (tick d (app w)) as [[s' cleared]|]; [|discriminate].
  unfold render. intros [= <-]. split; [reflexivity|].
  exists s', cleared. split; reflexivity.
Qed.

(** ** The invariant of the running component *)

Lemma invariant_mount : invariant mount.
Proof.
  constructor; cbn; try discriminate; try lia; auto.
Qed.

Lemma VIEW_PRESETS_safe (k : nat) (preset : Z) :
  nth_error VIEW_PRESETS k = Some preset ->
  - JSNumber.MAX_SAFE_INTEGER <= preset <= JSNumber.MAX_SAFE_INTEGER.
Proof.
  unfold VIEW_PRESETS.
  do 4 (destruct k as [|k]; [intros [= <-]; vm_compute; split; discriminate|]).
  destruct k; discriminate.
Qed.

Ltac not_processing Hp :=
  let Hs := fresh "Hs" in
  intro Hs; cbn in Hs; rewrite Hs in Hp; discriminate.

Lemma step_invariant `{Builtins} (w w' : World) (e : Event) :
  invariant w -> possible e -> step w e = Next w' -> invariant w'.
Proof.
  intros [Hst Hsrv Hlog Htm Hcnt Hprg Htgt] Hposs.
  unfold step, render.
  destruct e as [url|n|k|t1 t2 t3|now|d|k outcome now].
  - (* TypeUrl *)
    destruct (BoostStatus_eqb (status (app w)) PROCESSING) eqn:Hp; [discriminate|].
    intros [= <-]. constructor; cbn; auto; try solve [not_processing Hp].
    rewrite useEffect_sync; cbn; [reflexivity | intros _; congruence].
  - destruct (BoostStatus_eqb (status (app w)) PROCESSING) eqn:Hp; [discriminate|].
    intros [= <-]. constructor; cbn; auto; try solve [not_processing Hp].
    rewrite useEffect_sync; cbn; [reflexivity | intros _; congruence].
  - destruct (BoostStatus_eqb (status (app w)) PROCESSING) eqn:Hp; [discriminate|].
    destruct (nth_error VIEW_PRESETS k) as [preset|] eqn:Hk; [|discriminate].
    intros [= <-]. constructor; cbn; auto; try solve [not_processing Hp].
    + rewrite useEffect_sync; cbn; [reflexivity | intros _; congruence].
    + eapply VIEW_PRESETS_safe; eassumption.
  - (* ClickStart *)
    destruct (BoostStatus_eqb (status (app w)) PROCESSING) eqn:Hp; [discriminate|].
    destruct (invalid_source (videoUrl (app w))) eqn:Hv.
    + rewrite handleStartBoost_invalid by assumption.
      intros [= <-]. constructor; cbn; auto; try solve [not_processing Hp].
      * apply slice_last_100.
      * rewrite useEffect_sync; cbn; [reflexivity | intros _; congruence].
    + destruct (handleStartBoost t1 t2 t3 (app w)) as [s' reqs] eqn:Hh.
      apply handleStartBoost_valid in Hh; [|assumption].
      destruct Hh as (Hs' & Hc' & Hp' & _ & _ & Ht' & Ha' & _ & _ & Hl').
      intros [= <-]. constructor; cbn.
      * rewrite Hs'. discriminate.
      * rewrite Ha'. assumption.
      * assumption.
      * rewrite useEffect_sync; auto. intros Heq. rewrite Heq, Hs' in Hp. discriminate.
      * intros _. rewrite Hc'. split; [lia | auto].
      * intros _ Ht. rewrite Hp', Hc'. symmetry. apply percent_zero. lia.
      * rewrite Ht'. assumption.
  - (* ClickAbort *)
    destruct (BoostStatus_eqb (status (app w)) PROCESSING) eqn:Hp; [|discriminate].
    intros [= <-]. constructor; cbn; try discriminate; auto.
    + apply slice_last_100.
    + rewrite useEffect_sync; cbn; auto. intros Heq. rewrite Heq in Hp. discriminate.
  - (* TimerFires *)
    destruct (interval w) eqn:Hi; [|discriminate].
    symmetry in Htm. apply BoostStatus_eqb_eq in Htm.
    specialize (Hcnt Htm). specialize (Hprg Htm). destruct Hcnt as [Hc0 Hct].
    unfold tick.
    destruct (Z.leb_spec (targetViews (app w)) (currentViews (app w))) as [Hdone|Hrun].
    + intros [= <-]. constructor; cbn; try discriminate; auto.
      * apply slice_last_100.
      * rewrite useEffect_sync; cbn; [reflexivity | intros Heq; rewrite Htm in Heq; discriminate].
    + destruct (rotate d (app w)) as [s1|] eqn:Hr; [|discriminate].
      pose proof (rotate_fields _ _ _ Hr) as (_ & Ht1 & _ & Hs1 & _).
      pose proof (rotate_server _ _ _ Hr) as Hsv.
      pose proof (rotate_logs _ _ _ Hr Hlog) as Hlg.
      intros [= <-]. constructor; cbn.
      * congruence.
      * destruct Hsv as [-> | [? _]]; assumption.
      * assumption.
      * rewrite useEffect_sync; cbn; rewrite Hs1, Htm; reflexivity.
      * intros _. rewrite Ht1.
        pose proof (increment_bounds d (proj2 (proj2 (proj2 Hposs)))). lia.
      * intros _ Ht. rewrite Ht1. reflexivity.
      * rewrite Ht1. assumption.
  - (* AnalysisSettles *)
    destruct (nth_error (pending w) k); [|discriminate].
    cbv zeta. destruct (panel_renders _); [|discriminate].
    intros [= <-]. constructor; cbn; auto.
    + apply slice_last_100.
    + rewrite useEffect_sync; cbn; [reflexivity | intros _; assumption].
Qed.

Lemma reachable_invariant `{Builtins} (w : World) : reachable w -> invariant w.
Proof.
  induction 1 as [|w e w' _ IH Hposs Hstep].
  - apply invariant_mount.
  - eapply step_invariant; eassumption.
Qed.

Lemma run_reachable `{Builtins} (es : list Event) (w w' : World) :
  reachable w -> Forall possible es -> run es w = Next w' -> reachable w'.
Proof.
  revert w. induction es as [|e es IH]; intros w Hw Hes; cbn [run].
  - intros [= <-]. assumption.
  - inversion Hes as [|? ? He Hes']; subst.
    destruct (step w e) as [w1| |] eqn:Hstep; try discriminate.
    apply IH; [|assumption]. eapply reachable_step; eassumption.
Qed.

Lemma valid_demo_draws : valid_draws demo_draws.
Proof.
  split; [|split; [|split]]; try (split; unfold Qle, Qlt; cbn; lia);
    vm_compute; reflexivity.
Qed.

Lemma valid_repeat (d : TickDraws) (n : nat) :
  valid_draws d -> Forall valid_draws (repeat d n).
Proof.
  intros Hd. apply Forall_forall. intros x Hx. apply repeat_spec in Hx. subst x. exact Hd.
Qed.

Lemma demo_started_reachable : @reachable literal_parser demo_started.
Proof.
  apply (@run_reachable literal_parser demo_campaign mount).
  - apply reachable_mount.
  - repeat constructor; vm_compute; discriminate.
  - vm_compute. reflexivity.
Qed.

Lemma demo_ticked_reachable : @reachable literal_parser demo_ticked.
Proof.
  apply (@reachable_step literal_parser demo_started (TimerFires demo_draws)).
  - exact demo_started_reachable.
  - exact valid_demo_draws.
  - vm_compute. reflexivity.
Qed.

(** ** The tick loop *)

Lemma tick_loop_completes `{Builtins} (ds : list TickDraws) (w : World) :
  interval w = true ->
  status (app w) = PROCESSING ->
  currentViews (app w) <= targetViews (app w) ->
  Forall valid_draws ds ->
  (Z.to_nat ((targetViews (app w) - currentViews (app w) + 9) / 10) + 1 <= List.length ds)%nat ->
  exists w', tick_loop ds w = Next w' /\ completed (targetViews (app w)) w'.
Proof.
  revert w. induction ds as [|d ds IH]; intros w Hi Hs Hle Hds Hlen.
  - cbn in Hlen. lia.
  - inversion Hds as [|? ? Hd Hds']; subst.
    cbn [tick_loop]. rewrite Hi. unfold step. rewrite Hi.
    destruct (Z_le_gt_dec (targetViews (app w)) (currentViews (app w))) as [Hdone|Hrun].
    + rewrite tick_done by assumption. unfold render. cbv beta iota.
      match goal with
      | |- exists w', tick_loop ds ?x = _ /\ _ => set (w1 := x)
      end.
      assert (Hi1 : interval w1 = false).
      { subst w1. cbn [interval]. rewrite useEffect_sync; cbn; [reflexivity|].
        rewrite Hs. discriminate. }
      exists w1. split.
      * destruct ds; cbn [tick_loop]; [reflexivity | rewrite Hi1; reflexivity].
      * unfold completed. split; [exact Hi1|]. subst w1. cbn.
        repeat split.
        destruct (slice_last_ends 99 (logs (app w))
                    {| timestamp := now d; message := success_message (targetViews (app w));
                       type := success |}) as [older Ho].
        exists older, (now d). exact Ho.
    + destruct Hd as (_ & Hpick & _ & Hinc).
      destruct (tick_running d (app w) Hpick ltac:(lia)) as (s1 & Hrot & ->).
      pose proof (rotate_fields _ _ _ Hrot) as (_ & Ht1 & _ & Hs1 & _).
      pose proof (increment_bounds d Hinc) as Hb.
      unfold render. cbv beta iota.
      match goal with
      | |- exists w', tick_loop ds ?w1 = _ /\ _ =>
          destruct (IH w1) as (w' & Hloop & Hc)
      end.
      * cbn. rewrite useEffect_sync; cbn; rewrite Hs1, Hs; reflexivity.
      * cbn. congruence.
      * cbn. rewrite Ht1. lia.
      * assumption.
      * cbn. rewrite Ht1. cbn in Hlen.
        assert (Hm : Z.min (currentViews (app w) + increment d) (targetViews (app w))
                     = targetViews (app w) \/
                     currentViews (app w) + 10 <=
                     Z.min (currentViews (app w) + increment d) (targetViews (app w))) by lia.
        destruct Hm as [-> | Hm].
        -- replace (targetViews (app w) - targetViews (app w) + 9) with 9 by lia.
           change (9 / 10) with 0. cbn.
           assert (1 <= (targetViews (app w) - currentViews (app w) + 9) / 10)
             by (apply Z.div_le_lower_bound; lia).
           lia.
        -- assert ((targetViews (app w)
                    - Z.min (currentViews (app w) + increment d) (targetViews (app w)) + 9) / 10
                   + 1 <= (targetViews (app w) - currentViews (app w) + 9) / 10).
           { rewrite <- Z.div_add by lia. apply Z.div_le_mono; lia. }
           assert (0 <= (targetViews (app w)
                    - Z.min (currentViews (app w) + increment d) (targetViews (app w)) + 9) / 10)
             by (apply Z.div_pos; lia).
           lia.
      * exists w'. split; [assumption|]. cbn in Hc. rewrite Ht1 in Hc. exact Hc.
Qed.

(** Keeping the last 100 of a history of at most 100 entries followed by
    at most three new ones is an append. *)
Lemma appended_slice (old added : list LogEntry) :
  (List.length old <= 100)%nat -> (List.length added <= 3)%nat ->
  appended old (JSString.slice_last 100 (old ++ added)).
Proof.
  intros Ho Ha. unfold appended.
  destruct (Nat.le_gt_cases (List.length old + List.length added) 100) as [Hle|Hgt].
  - exists [], old, added.
    rewrite slice_last_all by (rewrite length_app; lia). repeat split; auto.
  - set (k := (List.length old + List.length added - 100)%nat).
    exists (firstn k old), (skipn k old), added.
    split; [symmetry; apply firstn_skipn|].
    assert (Hs : JSString.slice_last 100 (old ++ added) = skipn k old ++ added).
    { unfold JSString.slice_last. rewrite length_app. fold k. rewrite skipn_app.
      replace (k - List.length old)%nat with 0%nat by lia. reflexivity. }
    rewrite Hs. split; [reflexivity|]. split; [assumption|].
    right. rewrite length_app, length_skipn. lia.
Qed.

Lemma appended_none (l : list LogEntry) :
  (List.length l <= 100)%nat -> appended l l.
Proof.
  intros Hl. pose proof (appended_slice l [] Hl ltac:(cbn; lia)) as Ha.
  rewrite app_nil_r, slice_last_all in Ha by assumption. exact Ha.
Qed.

Lemma step_log_change `{Builtins} (w w' : World) (e : Event) :
  (List.length (logs (app w)) <= 100)%nat ->
  step w e = Next w' -> log_change e (logs (app w)) (logs (app w')).
Proof.
  intros Hl. unfold step, render.
  destruct e as [url|n|k|t1 t2 t3|now|d|k outcome now]; cbn [log_change].
  - destruct (BoostStatus_eqb _ _); [discriminate|]. intros [= <-]. cbn.
    apply appended_none; assumption.
  - destruct (BoostStatus_eqb _ _); [discriminate|]. intros [= <-]. cbn.
    apply appended_none; assumption.
  - destruct (BoostStatus_eqb _ _); [discriminate|].
    destruct (nth_error _ _); [|discriminate]. intros [= <-]. cbn.
    apply appended_none; assumption.
  - destruct (BoostStatus_eqb _ _); [discriminate|].
    unfold handleStartBoost. destruct (invalid_source _).
    + intros [= <-]. cbn. apply appended_slice; [assumption | cbn; lia].
    + intros [= <-]. cbn.
      rewrite slice_last_app_slice, <- app_assoc.
      rewrite slice_last_app_slice, <- app_assoc.
      apply appended_slice; [assumption | cbn; lia].
  - destruct (BoostStatus_eqb _ _); [|discriminate]. intros [= <-]. reflexivity.
  - destruct (interval w); [|discriminate]. unfold tick.
    destruct (targetViews (app w) <=? currentViews (app w)).
    + intros [= <-]. cbn. apply appended_slice; [assumption | cbn; lia].
    + unfold rotate. destruct (JSNumber.gtb _ _).
      * destruct (JSString.index _ _); [|discriminate]. intros [= <-]. cbn.
        apply appended_slice; [assumption | cbn; lia].
      * intros [= <-]. cbn. apply appended_none; assumption.
  - destruct (nth_error _ _); [|discriminate].
    cbv zeta. destruct (panel_renders _); [|discriminate].
    intros [= <-]. cbn. apply appended_slice; [assumption | cbn; lia].
Qed.

Lemma step_never_assigns_error `{Builtins} (w w' : World) (e : Event) :
  step w e = Next w' -> status (app w') = ERROR -> status (app w) = ERROR.
Proof.
  unfold step, render.
  destruct e as [url|n|k|t1 t2 t3|now|d|k outcome now].
  - destruct (BoostStatus_eqb _ _); [discriminate|]. intros [= <-]. cbn. auto.
  - destruct (BoostStatus_eqb _ _); [discriminate|]. intros [= <-]. cbn. auto.
  - destruct (BoostStatus_eqb _ _); [discriminate|].
    destruct (nth_error _ _); [|discriminate]. intros [= <-]. cbn. auto.
  - destruct (BoostStatus_eqb _ _); [discriminate|].
    unfold handleStartBoost. destruct (invalid_source _); intros [= <-]; cbn; auto.
    discriminate.
  - destruct (BoostStatus_eqb _ _); [|discriminate]. intros [= <-]. cbn. discriminate.
  - destruct (interval w); [|discriminate]. unfold tick.
    destruct (targetViews (app w) <=? currentViews (app w)).
    + intros [= <-]. cbn. discriminate.
    + destruct (rotate d (app w)) as [s1|] eqn:Hrot; [|discriminate].
      pose proof (rotate_fields _ _ _ Hrot) as (_ & _ & _ & Hs1 & _).
      intros [= <-]. cbn. congruence.
  - destruct (nth_error _ _); [|discriminate].
    cbv zeta. destruct (panel_renders _); [|discriminate].
    intros [= <-]. cbn. auto.
Qed.

(** The percentage of a count: within one of the exact floor, 0 for no
    views and 100 for all of them. *)
Lemma percent_spec (nextVal targetViews : Z) :
  0 <= nextVal <= targetViews ->
  0 < targetViews <= JSNumber.MAX_SAFE_INTEGER ->
  exists p,
    percent nextVal targetViews = Some p /\
    100 * nextVal / targetViews - 1 <= p <= 100 * nextVal / targetViews + 1 /\
    (nextVal = 0 -> p = 0) /\
    (nextVal = targetViews -> p = 100).
Proof.
  intros Hn Ht. destruct (percent_near_exact _ _ Hn Ht) as (p & Hp & Hb).
  exists p. split; [exact Hp|]. split; [exact Hb|]. split.
  - intros ->. rewrite percent_zero in Hp by lia. congruence.
  - intros ->. rewrite percent_full in Hp by lia. congruence.
Qed.

(* ================================================================= *)
(** * The claims of the specification *)

(** C1.  For every valid start with a positive target that is a safe
    integer, running the tick loop to completion (the timer fires for as
    long as it is live, with any draws in [[0, 1)]; [targetViews / 10 + 2]
    firings are enough) ends with the timer cleared,
    [currentViews = targetViews], [status = COMPLETED], and the log ending
    with the success entry, whose message names the target count and the
    number of registry nodes. *)
Theorem start_runs_to_completion `{Builtins} (w : World) (t1 t2 t3 : string)
    (ds : list TickDraws) :
  status (app w) <> PROCESSING ->
  invalid_source (videoUrl (app w)) = false ->
  0 < targetViews (app w) <= JSNumber.MAX_SAFE_INTEGER ->
  Forall valid_draws ds ->
  (Z.to_nat (targetViews (app w) / 10) + 2 <= List.length ds)%nat ->
  exists w0 w1 older stamp,
    step w (ClickStart t1 t2 t3) = Next w0 /\
    tick_loop ds w0 = Next w1 /\
    interval w1 = false /\
    status (app w1) = COMPLETED /\
    currentViews (app w1) = targetViews (app w) /\
    logs (app w1) =
    older ++ [{| timestamp := stamp;
                 message :=
                   ("Task successful: " ++ JSNumber.toString (targetViews (app w))
                    ++ " views distributed across "
                    ++ JSNumber.toString (Z.of_nat (List.length SERVER_NODES))
                    ++ " nodes.")%string;
                 type := success |}].
Proof.
  intros Hst Hv [Ht _] Hds Hlen.
  apply BoostStatus_eqb_neq in Hst.
  destruct (handleStartBoost t1 t2 t3 (app w)) as [s' reqs] eqn:Hh.
  pose proof (handleStartBoost_valid _ _ _ _ _ _ Hv Hh)
    as (Hs' & Hc' & _ & _ & _ & Ht' & _ & _ & _ & _).
  set (w0 := {| app := s'; interval := useEffect (app w) s' (interval w);
                pending := pending w ++ reqs |}).
  assert (Hstep : step w (ClickStart t1 t2 t3) = Next w0).
  { unfold step. rewrite Hst, Hh. reflexivity. }
  destruct (tick_loop_completes ds w0) as (w1 & Hloop & Hi1 & Hs1 & Hc1 & _ & older & stamp & Hl1).
  - subst w0. cbn. rewrite useEffect_sync; [rewrite Hs'; reflexivity|].
    intros Heq. rewrite Heq, Hs' in Hst. discriminate.
  - exact Hs'.
  - subst w0. cbn. lia.
  - assumption.
  - subst w0. cbn. rewrite Hc', Ht'.
    replace (targetViews (app w) - 0 + 9) with (targetViews (app w) + 9) by lia.
    assert ((targetViews (app w) + 9) / 10 <= targetViews (app w) / 10 + 1).
    { rewrite <- Z.div_add by lia. apply Z.div_le_mono; lia. }
    assert (0 <= targetViews (app w) / 10) by (apply Z.div_pos; lia).
    lia.
  - exists w0, w1, older, stamp. subst w0. cbn in *. rewrite Ht' in *.
    repeat split; assumption.
Qed.

Lemma start_runs_to_completion_witness :
  exists w0 w1 older stamp,
    @step literal_parser demo_ready (ClickStart "09:00:00" "09:00:00" "09:00:01") = Next w0 /\
    @tick_loop literal_parser (repeat demo_draws 4) w0 = Next w1 /\
    interval w1 = false /\
    status (app w1) = COMPLETED /\
    currentViews (app w1) = 20 /\
    logs (app w1) =
    older ++ [{| timestamp := stamp;
                 message := "Task successful: 20 views distributed across 5 nodes.";
                 type := success |}].
Proof.
  apply (@start_runs_to_completion literal_parser demo_ready
           "09:00:00" "09:00:00" "09:00:01" (repeat demo_draws 4)).
  - discriminate.
  - reflexivity.
  - split; [reflexivity | vm_compute; discriminate].
  - apply valid_repeat, valid_demo_draws.
  - vm_compute. lia.
Defined.

(** C2, as stated, fails on a campaign started with the target -5: it is
    reachable, its counter (0) exceeds the target, and the first tick lowers
    the counter to -5. *)
Lemma negative_target_counts_down :
  @reachable literal_parser negative_started /\
  status (app negative_started) = PROCESSING /\
  targetViews (app negative_started) = -5 /\
  currentViews (app negative_started) = 0 /\
  @step literal_parser negative_started (TimerFires demo_draws) = Next negative_ticked /\
  currentViews (app negative_ticked) = -5 /\
  currentViews (app negative_ticked) < currentViews (app negative_started) /\
  targetViews (app negative_started) < currentViews (app negative_started).
Proof.
  split.
  - apply (@run_reachable literal_parser negative_campaign mount).
    + apply reachable_mount.
    + repeat constructor; vm_compute; discriminate.
    + vm_compute. reflexivity.
  - vm_compute. repeat split; reflexivity.
Qed.

(** C2, amended.  A tick happens only while the status is [PROCESSING] and
    leaves the target as it is.  When the counter is below the target, the
    new counter is [min (old + d) target], where [d = increment] is
    [Math.floor(r * 25) + 10] for the draw [r], the product being the
    binary64 one (a finite number).  [d] lies between 10 and 34.  It is the
    exact [floor (25 * r) + 10], or one more; and it is the exact one
    whenever [25 * r] is not within [2 ^ -48] of the next integer: each of
    the 25 values is taken on an interval of draws of length [1 / 25] up to
    the rounding of the product, so [d] is uniform when the draw is.
    Consequently, when the target is not negative, no tick lowers the
    counter or takes it above the target. *)
Theorem tick_advances_counter `{Builtins} (w w' : World) (d : TickDraws) :
  reachable w ->
  valid_draws d ->
  step w (TimerFires d) = Next w' ->
  status (app w) = PROCESSING /\
  targetViews (app w') = targetViews (app w) /\
  (currentViews (app w) < targetViews (app w) ->
   currentViews (app w') =
   Z.min (currentViews (app w) + increment d) (targetViews (app w)) /\
   JSNumber.Math_floor (JSNumber.mul (r_increment d) (JSNumber.of_Z 25))
   = Some (increment d - 10) /\
   10 <= increment d <= 34 /\
   Qfloor (25 * JSNumber.to_Q (r_increment d)) + 10 <= increment d
   <= Qfloor (25 * JSNumber.to_Q (r_increment d)) + 11 /\
   ((25 * JSNumber.to_Q (r_increment d)
     <= inject_Z (Qfloor (25 * JSNumber.to_Q (r_increment d)) + 1) - (1 # 2 ^ 48))%Q ->
    increment d = Qfloor (25 * JSNumber.to_Q (r_increment d)) + 10)) /\
  (0 <= targetViews (app w) ->
   currentViews (app w) <= currentViews (app w') <= targetViews (app w)).
Proof.
  intros Hreach Hd Hstep.
  apply reachable_invariant in Hreach. destruct Hreach as [_ _ _ Htm Hcnt _ _].
  apply step_timer in Hstep. destruct Hstep as (Hi & s' & cleared & Htick & ->).
  rewrite Hi in Htm. symmetry in Htm. apply BoostStatus_eqb_eq in Htm.
  destruct (Hcnt Htm) as [Hc0 Hct].
  pose proof (increment_floor d (proj2 (proj2 (proj2 Hd)))) as (Hfl & Hb & Hex & Htight).
  split; [assumption|]. cbn [app].
  destruct (Z_le_gt_dec (targetViews (app w)) (currentViews (app w))) as [Hdone|Hrun].
  - rewrite tick_done in Htick by assumption. injection Htick as <- <-. cbn.
    split; [reflexivity|]. split; [lia|]. intros Ht. specialize (Hct Ht). lia.
  - destruct (tick_running d (app w) (proj1 (proj2 Hd)) ltac:(lia)) as (s1 & Hrot & Ht2).
    rewrite Ht2 in Htick. injection Htick as <- <-.
    pose proof (rotate_fields _ _ _ Hrot) as (_ & Ht1 & _).
    cbn. split; [assumption|]. split.
    + intros _. split; [reflexivity|]. split; [exact Hfl|]. split; [exact Hb|].
      split; [exact Hex | exact Htight].
    + intros _. lia.
Qed.

Lemma tick_advances_counter_witness :
  status (app demo_started) = PROCESSING /\
  targetViews (app demo_ticked) = targetViews (app demo_started) /\
  (currentViews (app demo_started) < targetViews (app demo_started) ->
   currentViews (app demo_ticked) =
   Z.min (currentViews (app demo_started) + increment demo_draws)
         (targetViews (app demo_started)) /\
   JSNumber.Math_floor (JSNumber.mul (r_increment demo_draws) (JSNumber.of_Z 25))
   = Some (increment demo_draws - 10) /\
   10 <= increment demo_draws <= 34 /\
   Qfloor (25 * JSNumber.to_Q (r_increment demo_draws)) + 10 <= increment demo_draws
   <= Qfloor (25 * JSNumber.to_Q (r_increment demo_draws)) + 11 /\
   ((25 * JSNumber.to_Q (r_increment demo_draws)
     <= inject_Z (Qfloor (25 * JSNumber.to_Q (r_increment demo_draws)) + 1)
        - (1 # 2 ^ 48))%Q ->
    increment demo_draws = Qfloor (25 * JSNumber.to_Q (r_increment demo_draws)) + 10)) /\
  (0 <= targetViews (app demo_started) ->
   currentViews (app demo_started) <= currentViews (app demo_ticked)
   <= targetViews (app demo_started)).
Proof.
  apply (@tick_advances_counter literal_parser demo_started demo_ticked demo_draws).
  - exact demo_started_reachable.
  - exact valid_demo_draws.
  - vm_compute. reflexivity.
Defined.

Lemma percent_started_reachable : @reachable literal_parser percent_started.
Proof.
  apply (@run_reachable literal_parser percent_campaign mount).
  - apply reachable_mount.
  - repeat constructor; vm_compute; discriminate.
  - vm_compute. reflexivity.
Qed.

Lemma valid_draws_29 : valid_draws draws_29.
Proof.
  split; [|split; [|split]]; try (split; unfold Qle, Qlt; cbn; lia);
    vm_compute; reflexivity.
Qed.

(** C3, as stated, fails after a tick that takes the counter of a campaign
    of 100 views to 29: the progress is 28, and the floor of
    [29 / 100 * 100] is 29. *)
Lemma progress_28_at_29_of_100 :
  @reachable literal_parser percent_started /\
  @step literal_parser percent_started (TimerFires draws_29) = Next percent_ticked /\
  status (app percent_ticked) = PROCESSING /\
  targetViews (app percent_ticked) = 100 /\
  currentViews (app percent_ticked) = 29 /\
  progress (app percent_ticked) = Some 28 /\
  Qfloor ((29 # 100) * 100) = 29.
Proof.
  split; [exact percent_started_reachable|].
  vm_compute. repeat split; reflexivity.
Qed.

(** C3, amended.  After every update of the counter (a tick, a start that
    passes the validation, a reset), given [targetViews > 0], [progress] is
    [Math.floor((currentViews / targetViews) * 100)] with the division and
    the product of binary64 numbers.  That integer is within one of the
    exact floor of [100 * currentViews / targetViews]; it is 0 when the
    counter is 0 and 100 when the counter is at the target. *)
Theorem progress_after_counter_update `{Builtins} (w w' : World) (e : Event) :
  reachable w ->
  possible e ->
  counter_update e (app w) ->
  step w e = Next w' ->
  0 < targetViews (app w') ->
  progress (app w') = percent (currentViews (app w')) (targetViews (app w')) /\
  exists p,
    progress (app w') = Some p /\
    100 * currentViews (app w') / targetViews (app w') - 1 <= p
    <= 100 * currentViews (app w') / targetViews (app w') + 1 /\
    (currentViews (app w') = 0 -> p = 0) /\
    (currentViews (app w') = targetViews (app w') -> p = 100).
Proof.
  intros Hreach Hposs Hupd Hstep Ht.
  apply reachable_invariant in Hreach. destruct Hreach as [_ _ _ Htm Hcnt Hprg Htgt].
  assert (Hzero : forall s : AppState,
             currentViews s = 0 -> progress s = Some 0 -> 0 < targetViews s ->
             progress s = percent (currentViews s) (targetViews s) /\
             exists p,
               progress s = Some p /\
               100 * currentViews s / targetViews s - 1 <= p
               <= 100 * currentViews s / targetViews s + 1 /\
               (currentViews s = 0 -> p = 0) /\
               (currentViews s = targetViews s -> p = 100)).
  { intros s Hc Hp Hts. rewrite Hc, Hp. split; [symmetry; apply percent_zero; assumption|].
    exists 0. split; [reflexivity|]. rewrite Z.mul_0_r, Zdiv_0_l.
    split; [lia|]. split; [reflexivity | lia]. }
  destruct e as [url|n|k|t1 t2 t3|now|d|k outcome now]; cbn in Hupd; try contradiction.
  - (* start *)
    unfold step in Hstep.
    destruct (BoostStatus_eqb (status (app w)) PROCESSING); [discriminate|].
    destruct (handleStartBoost t1 t2 t3 (app w)) as [s' reqs] eqn:Hh.
    pose proof (handleStartBoost_valid _ _ _ _ _ _ Hupd Hh) as (_ & Hc' & Hp' & _).
    unfold render in Hstep. injection Hstep as <-. cbn [app] in *.
    apply Hzero; assumption.
  - (* reset *)
    unfold step in Hstep.
    destruct (BoostStatus_eqb (status (app w)) PROCESSING); [|discriminate].
    unfold render in Hstep. injection Hstep as <-. cbn [app] in *.
    apply Hzero; [reflexivity | reflexivity | exact Ht].
  - (* tick *)
    apply step_timer in Hstep. destruct Hstep as (Hi & s' & cleared & Htick & ->).
    rewrite Hi in Htm. symmetry in Htm. apply BoostStatus_eqb_eq in Htm.
    cbn [app] in *. destruct (Hcnt Htm) as [Hc0 Hct].
    destruct (Z_le_gt_dec (targetViews (app w)) (currentViews (app w))) as [Hdone|Hrun].
    + rewrite tick_done in Htick by assumption. injection Htick as <- <-.
      cbn [currentViews targetViews progress setCurrentViews setStatus addLog setLogs] in *.
      assert (Heq : currentViews (app w) = targetViews (app w)) by lia.
      rewrite (Hprg Htm Ht), Heq.
      split; [reflexivity|]. apply percent_spec; lia.
    + unfold tick in Htick.
      destruct (Z.leb_spec (targetViews (app w)) (currentViews (app w))); [lia|].
      destruct (rotate d (app w)) as [s1|] eqn:Hrot; [|discriminate].
      pose proof (rotate_fields _ _ _ Hrot) as (_ & Ht1 & _).
      pose proof (increment_bounds d (proj2 (proj2 (proj2 Hposs)))) as Hb.
      injection Htick as <- <-.
      cbn [currentViews targetViews progress setCurrentViews setProgress] in *.
      rewrite Ht1 in *.
      split; [reflexivity|]. apply percent_spec; lia.
Qed.

Lemma progress_after_counter_update_witness :
  progress (app demo_ticked) =
  percent (currentViews (app demo_ticked)) (targetViews (app demo_ticked)) /\
  exists p,
    progress (app demo_ticked) = Some p /\
    100 * currentViews (app demo_ticked) / targetViews (app demo_ticked) - 1 <= p
    <= 100 * currentViews (app demo_ticked) / targetViews (app demo_ticked) + 1 /\
    (currentViews (app demo_ticked) = 0 -> p = 0) /\
    (currentViews (app demo_ticked) = targetViews (app demo_ticked) -> p = 100).
Proof.
  apply (@progress_after_counter_update literal_parser demo_started demo_ticked
           (TimerFires demo_draws)).
  - exact demo_started_reachable.
  - exact valid_demo_draws.
  - exact I.
  - vm_compute. reflexivity.
  - vm_compute. reflexivity.
Defined.

(** C4.  Whenever a tick performs a handoff (the counter is below the
    target and the rotation draw exceeds 0.85), the candidates are exactly
    the registry nodes whose id differs from the active one's, four distinct
    nodes; the index [k] is chosen exactly when the draw lies in
    [[k / 4, (k + 1) / 4)] (so the choice is uniform when the draw is); and
    the new active node is the candidate at that index, a registry node
    whose id is not the id of the node that was active. *)
Theorem handoff_selects_other_node `{Builtins} (w w' : World) (d : TickDraws) :
  reachable w ->
  valid_draws d ->
  step w (TimerFires d) = Next w' ->
  currentViews (app w) < targetViews (app w) ->
  JSNumber.gtb (r_rotation d) (85 # 100) = true ->
  (forall n, In n (availableServers (app w)) <->
             In n SERVER_NODES /\ id n <> id (activeServer (app w))) /\
  NoDup (availableServers (app w)) /\
  List.length (availableServers (app w)) = 4%nat /\
  (forall k, pick_index d (app w) = k <->
             (k # 4 <= r_pick d)%Q /\ (r_pick d < (k + 1) # 4)%Q) /\
  JSString.index (availableServers (app w)) (pick_index d (app w))
  = Some (activeServer (app w')) /\
  In (activeServer (app w')) SERVER_NODES /\
  id (activeServer (app w')) <> id (activeServer (app w)).
Proof.
  intros Hreach Hd Hstep Hrun Hrot.
  apply reachable_invariant in Hreach. destruct Hreach as [_ Hsrv _ _ _ _ _].
  apply step_timer in Hstep. destruct Hstep as (_ & s' & cleared & Htick & ->).
  pose proof (availableServers_length_registered _ Hsrv) as Hlen.
  split; [apply availableServers_In|].
  split; [apply NoDup_filter, NoDup_SERVER_NODES|].
  split; [assumption|].
  split.
  { intros k. unfold pick_index. rewrite Hlen. apply floor_scaled_uniform. }
  unfold tick in Htick.
  destruct (Z.leb_spec (targetViews (app w)) (currentViews (app w))); [lia|].
  unfold rotate in Htick. rewrite Hrot in Htick.
  destruct (JSString.index (availableServers (app w)) (pick_index d (app w)))
    as [nextServer|] eqn:Hidx; [|discriminate].
  injection Htick as <- <-. cbn.
  split; [reflexivity|].
  apply index_Some_In, availableServers_In in Hidx. exact Hidx.
Qed.

Lemma handoff_selects_other_node_witness :
  activeServer (app demo_ticked) = br_south_1 /\
  id (activeServer (app demo_ticked)) <> id (activeServer (app demo_started)).
Proof.
  pose proof (@handoff_selects_other_node literal_parser demo_started demo_ticked demo_draws
                demo_started_reachable valid_demo_draws
                ltac:(vm_compute; reflexivity) ltac:(vm_compute; reflexivity)
                ltac:(vm_compute; reflexivity))
    as (_ & _ & _ & _ & _ & _ & Hne).
  split; [vm_compute; reflexivity | exact Hne].
Defined.

(** C5.  A start with an empty URL, or with a URL that does not contain
    ["tiktok.com"], sends no analysis request and changes nothing but the
    log, to which it appends one error entry: the status (be it [IDLE]),
    the counter, the progress, the target, the active node and the analysis
    stay as they were, the timer too; and it does not throw. *)
Theorem invalid_start_only_logs `{Builtins} (w : World) (t1 t2 t3 : string) :
  videoUrl (app w) = "" \/ JSString.includes (videoUrl (app w)) "tiktok.com" = false ->
  exists s',
    handleStartBoost t1 t2 t3 (app w) = (s', []) /\
    status s' = status (app w) /\
    currentViews s' = currentViews (app w) /\
    progress s' = progress (app w) /\
    targetViews s' = targetViews (app w) /\
    activeServer s' = activeServer (app w) /\
    analysis s' = analysis (app w) /\
    isAnalyzing s' = isAnalyzing (app w) /\
    logs s' = JSString.slice_last 100 (logs (app w) ++ [invalid_source_entry t1]) /\
    (exists older, logs s' = older ++ [invalid_source_entry t1]) /\
    ((List.length (logs (app w)) < 100)%nat ->
     logs s' = logs (app w) ++ [invalid_source_entry t1]) /\
    (status (app w) <> PROCESSING ->
     step w (ClickStart t1 t2 t3)
     = Next {| app := s'; interval := interval w; pending := pending w |}) /\
    step w (ClickStart t1 t2 t3) <> Crash.
Proof.
  intros Hbad.
  assert (Hinv : invalid_source (videoUrl (app w)) = true).
  { unfold invalid_source. destruct Hbad as [-> | ->]; [reflexivity|].
    apply orb_true_r. }
  pose proof (handleStartBoost_invalid t1 t2 t3 (app w) Hinv) as Hh.
  eexists. split; [exact Hh|]. cbn.
  repeat split.
  - apply slice_last_ends.
  - intros Hlen. apply slice_last_all. rewrite length_app. cbn. lia.
  - intros Hst. apply BoostStatus_eqb_neq in Hst.
    unfold step. rewrite Hst, Hh. unfold render.
    rewrite useEffect_same_deps by reflexivity. rewrite app_nil_r. reflexivity.
  - unfold step. destruct (BoostStatus_eqb _ _); [discriminate|].
    rewrite Hh. discriminate.
Qed.

Lemma invalid_start_only_logs_witness :
  @step literal_parser mount (ClickStart "09:00:00" "09:00:00" "09:00:00")
  = Next {| app := setLogs [invalid_source_entry "09:00:00"] initial;
            interval := false; pending := [] |}.
Proof.
  destruct (@invalid_start_only_logs literal_parser mount "09:00:00" "09:00:00" "09:00:00"
              (or_introl eq_refl))
    as (s' & Hh & _ & _ & _ & _ & _ & _ & _ & _ & _ & _ & Hstep & _).
  injection Hh as <-.
  rewrite Hstep by discriminate. reflexivity.
Defined.

(** C6, as stated, fails on a response whose text is empty or absent: the
    empty text is not JSON, and the result is not the fallback but score 0,
    no recommendation and reach ["Unknown"]. *)
Lemma empty_text_is_not_fallback :
  @JSON_parse literal_parser "" = None /\
  @analyzeTikTokContent literal_parser demo_url (Responds (Some "")) = defaults /\
  @analyzeTikTokContent literal_parser demo_url (Responds None) = defaults /\
  defaults <> fallback.
Proof. repeat split. discriminate. Qed.

(** C6, amended.  For every URL, when the service call throws, or its
    response has a text, not the empty one, that is not JSON (or is the JSON
    [null]), [analyzeTikTokContent] returns the fixed fallback: score 0,
    the three canned recommendations, reach ["N/A"].  The result is a value
    in every case: the promise never rejects. *)
Theorem analysis_failure_yields_fallback `{Builtins} (videoUrl : string)
    (outcome : ServiceOutcome) :
  service_failure outcome ->
  analyzeTikTokContent videoUrl outcome =
  {| score := JNumber 0;
     recommendations :=
       JArray [JString "Ensure high lighting"; JString "Use trending sounds";
               JString "Post at peak hours"];
     estimatedReach := JString "N/A" |}.
Proof.
  intros [-> | (text & -> & Hne & Hp)]; [reflexivity|].
  unfold analyzeTikTokContent, text_or_empty_object.
  apply String.eqb_neq in Hne. rewrite Hne.
  destruct Hp as [-> | ->]; reflexivity.
Qed.

Lemma analysis_failure_yields_fallback_witness :
  @analyzeTikTokContent literal_parser demo_url (Responds (Some "<html>502</html>"))
  = fallback.
Proof.
  apply (@analysis_failure_yields_fallback literal_parser demo_url
           (Responds (Some "<html>502</html>"))).
  right. exists "<html>502</html>". split; [reflexivity|]. split; [discriminate|].
  left. reflexivity.
Defined.

(** C7.  [handleReset], run in any state the component can be in and
    followed by the render and its effect, leaves [status = IDLE],
    [currentViews = 0], [progress = 0], no analysis, and a log that consists
    of the one informational entry; the timer is cleared, so that no tick
    can fire in the state after the reset.  While the status is
    [PROCESSING] this is what a click on the abort button does. *)
Theorem reset_returns_to_idle `{Builtins} (w : World) (now : string) :
  reachable w ->
  exists w',
    render w (handleReset now (app w)) (interval w) (pending w) = Next w' /\
    (status (app w) = PROCESSING -> step w (ClickAbort now) = Next w') /\
    status (app w') = IDLE /\
    currentViews (app w') = 0 /\
    progress (app w') = Some 0 /\
    analysis (app w') = None /\
    logs (app w') = [reset_entry now] /\
    interval w' = false /\
    forall d, step w' (TimerFires d) = NotEnabled.
Proof.
  intros Hreach. apply reachable_invariant in Hreach. destruct Hreach as [_ _ _ Htm _ _ _].
  eexists. split; [reflexivity|].
  assert (Hi : useEffect (app w) (handleReset now (app w)) (interval w) = false).
  { rewrite useEffect_sync; [reflexivity|]. cbn. intros Heq. rewrite Htm, Heq. reflexivity. }
  cbn [app interval]. repeat split.
  - intros Hs. unfold step. rewrite Hs. reflexivity.
  - exact Hi.
  - intros d. unfold step. cbn [interval]. rewrite Hi. reflexivity.
Qed.

Lemma reset_returns_to_idle_witness :
  exists w',
    @step literal_parser demo_ticked (ClickAbort "12:00:01") = Next w' /\
    status (app w') = IDLE /\ currentViews (app w') = 0 /\
    logs (app w') = [reset_entry "12:00:01"] /\ interval w' = false.
Proof.
  destruct (@reset_returns_to_idle literal_parser demo_ticked "12:00:01")
    as (w' & _ & Hstep & Hs & Hc & _ & _ & Hl & Hi & _).
  - exact demo_ticked_reachable.
  - exists w'. repeat split; try assumption. apply Hstep. vm_compute. reflexivity.
Defined.

(** C8.  In every state the component can be in the log history has at
    most 100 entries.  The abort button replaces the history by the one
    entry of the reset.  Every other event appends: the new history is what
    is kept of the old one followed by at most three new entries, where
    what is kept is the old history without its oldest entries, and entries
    are evicted only when the new history has its 100 entries.  [addLog]
    appends the new entry and keeps the last 100: below 100 entries nothing
    leaves, at 100 entries the oldest one leaves. *)
Theorem log_history_bounded `{Builtins} (w : World) :
  reachable w ->
  (List.length (logs (app w)) <= 100)%nat /\
  (forall e w', step w e = Next w' ->
     match e with
     | ClickAbort now => logs (app w') = [reset_entry now]
     | _ =>
         exists evicted kept added,
           logs (app w) = evicted ++ kept /\
           logs (app w') = kept ++ added /\
           (List.length added <= 3)%nat /\
           (evicted = [] \/ List.length (logs (app w')) = 100%nat)
     end) /\
  (forall now message type,
     let newLog := {| timestamp := now; message := message; type := type |} in
     let logs' := logs (addLog now message type (app w)) in
     logs' = JSString.slice_last 100 (logs (app w) ++ [newLog]) /\
     (List.length logs' <= 100)%nat /\
     ((List.length (logs (app w)) < 100)%nat -> logs' = logs (app w) ++ [newLog]) /\
     (List.length (logs (app w)) = 100%nat -> logs' = tl (logs (app w)) ++ [newLog])).
Proof.
  intros Hreach. apply reachable_invariant in Hreach. destruct Hreach as [_ _ Hl _ _ _ _].
  split; [assumption|]. split.
  - intros e w' Hstep. pose proof (step_log_change w w' e Hl Hstep) as Hc.
    destruct e; exact Hc.
  - intros now message type newLog logs'. subst logs'. cbn.
    split; [reflexivity|]. split; [apply slice_last_100|]. split.
    + intros Hlt. apply slice_last_all. rewrite length_app. cbn. lia.
    + intros Hfull. apply slice_last_full_snoc. assumption.
Qed.

Lemma log_history_bounded_witness :
  (List.length (logs (app demo_ticked)) <= 100)%nat /\
  exists w', @step literal_parser demo_ticked (ClickAbort "12:00:01") = Next w' /\
             logs (app w') = [reset_entry "12:00:01"].
Proof.
  destruct (@log_history_bounded literal_parser demo_ticked demo_ticked_reachable)
    as (Hlen & Hev & _).
  split; [exact Hlen|].
  exists (world_of (@step literal_parser demo_ticked (ClickAbort "12:00:01"))).
  split; [vm_compute; reflexivity|].
  apply (Hev (ClickAbort "12:00:01")). vm_compute. reflexivity.
Defined.

(** C9.  In every state the component can be in the status is [IDLE],
    [PROCESSING] or [COMPLETED], and no event leads to the status
    [ERROR]. *)
Theorem status_never_error `{Builtins} (w : World) :
  reachable w ->
  (status (app w) = IDLE \/ status (app w) = PROCESSING \/ status (app w) = COMPLETED) /\
  forall e w', step w e = Next w' -> status (app w') <> ERROR.
Proof.
  intros Hreach. apply reachable_invariant in Hreach. destruct Hreach as [Hst _ _ _ _ _ _].
  split.
  - destruct (status (app w)); auto. contradiction.
  - intros e w' Hstep Herr. apply Hst. eapply step_never_assigns_error; eassumption.
Qed.

Lemma status_never_error_witness :
  status (app demo_ticked) = IDLE \/ status (app demo_ticked) = PROCESSING \/
  status (app demo_ticked) = COMPLETED.
Proof.
  apply (@status_never_error literal_parser demo_ticked).
  exact demo_ticked_reachable.
Defined.

(** C10.  In every state the component can be in the active server is one
    of the five registry nodes, so the candidate list of the rotation has
    exactly four elements; whatever is drawn, the index lies in [[0, 4)],
    the selected node is defined and is a registry node, and the timer
    callback does not throw. *)
Theorem rotation_index_in_bounds `{Builtins} (w : World) :
  reachable w ->
  In (activeServer (app w)) SERVER_NODES /\
  List.length SERVER_NODES = 5%nat /\
  List.length (availableServers (app w)) = 4%nat /\
  forall d, valid_draws d ->
    0 <= pick_index d (app w) < 4 /\
    (exists nextServer,
       JSString.index (availableServers (app w)) (pick_index d (app w)) = Some nextServer /\
       In nextServer SERVER_NODES) /\
    step w (TimerFires d) <> Crash.
Proof.
  intros Hreach. apply reachable_invariant in Hreach. destruct Hreach as [_ Hsrv _ _ _ _ _].
  pose proof (availableServers_length_registered _ Hsrv) as Hlen.
  split; [assumption|]. split; [reflexivity|]. split; [assumption|].
  intros d Hd. destruct Hd as (_ & Hpick & _ & _).
  pose proof (pick_index_bounds d (app w) Hpick) as Hb. rewrite Hlen in Hb.
  split; [lia|]. split.
  - destruct (index_in_bounds (availableServers (app w)) (pick_index d (app w)))
      as (n & Hn & Hin); [rewrite Hlen; lia|].
    exists n. split; [assumption|]. apply availableServers_In in Hin. tauto.
  - unfold step. destruct (interval w); [|discriminate].
    unfold tick. destruct (targetViews (app w) <=? currentViews (app w)); [discriminate|].
    destruct (rotate_defined d (app w) Hpick) as [s1 ->]. discriminate.
Qed.

Lemma rotation_index_in_bounds_witness :
  In (activeServer (app demo_ticked)) SERVER_NODES /\
  List.length (availableServers (app demo_ticked)) = 4%nat.
Proof.
  destruct (@rotation_index_in_bounds literal_parser demo_ticked) as (Hin & _ & Hlen & _).
  - exact demo_ticked_reachable.
  - split; assumption.
Defined.

(* ================================================================= *)
(** * Further properties of the code *)

(** ** The resource id and the validation of the source *)

Lemma append_nil_l (q : string) : ("" ++ q)%string = q.
Proof. reflexivity. Qed.

Lemma append_cons (c : ascii) (p q : string) :
  (String c p ++ q)%string = String c (p ++ q)%string.
Proof. reflexivity. Qed.

Lemma strip_prefix_app (p s r : string) :
  JSString.strip_prefix p s = Some r <-> s = (p ++ r)%string.
Proof.
  revert s. induction p as [|a p IH]; intros s; cbn [JSString.strip_prefix].
  - split; [intros [= ->]; reflexivity | intros ->; reflexivity].
  - destruct s as [|b s].
    + split; [discriminate | intros [=]].
    + destruct (Ascii.eqb_spec a b) as [->|Hne].
      * rewrite IH. split; [intros ->; reflexivity | intros [= ->]; reflexivity].
      * split; [discriminate | intros [= Hab _]; congruence].
Qed.

Lemma prefix_app (p s : string) :
  String.prefix p s = true <-> exists r, s = (p ++ r)%string.
Proof.
  revert s. induction p as [|a p IH]; intros s; destruct s as [|b s]; simpl String.prefix.
  - split; [intros _; exists ""; reflexivity | reflexivity].
  - split; [intros _; exists (String b s); reflexivity | reflexivity].
  - split; [discriminate | intros [r [=]]].
  - destruct (ascii_dec a b) as [->|Hne].
    + rewrite IH. split; intros [r Hr]; exists r.
      * rewrite Hr. reflexivity.
      * injection Hr as ->. reflexivity.
    + split; [discriminate | intros [r [= Hab _]]; congruence].
Qed.

Lemma includes_app (s sub : string) :
  JSString.includes s sub = true <-> exists pre post, s = (pre ++ sub ++ post)%string.
Proof.
  induction s as [|c s IH]; cbn [JSString.includes].
  - destruct (String.prefix sub "") eqn:Hp.
    + split; [intros _|reflexivity].
      apply prefix_app in Hp. destruct Hp as [r Hr]. exists "", r. exact Hr.
    + split; [discriminate|]. intros (pre & post & Heq).
      destruct pre; [|discriminate].
      assert (String.prefix sub "" = true) by (apply prefix_app; exists post; exact Heq).
      congruence.
  - destruct (String.prefix sub (String c s)) eqn:Hp.
    + split; [intros _|reflexivity].
      apply prefix_app in Hp. destruct Hp as [r Hr]. exists "", r. exact Hr.
    + rewrite IH. split.
      * intros (pre & post & ->). exists (String c pre), post. reflexivity.
      * intros (pre & post & Heq). destruct pre as [|c' pre].
        -- assert (String.prefix sub (String c s) = true)
             by (apply prefix_app; exists post; exact Heq).
           congruence.
        -- injection Heq as _ ->. exists pre, post. reflexivity.
Qed.

Lemma digits_split (s : string) :
  exists post, s = (JSString.digits s ++ post)%string /\ JSString.digits post = "".
Proof.
  induction s as [|c s (post & Hs & Hp)]; cbn [JSString.digits].
  - exists "". split; reflexivity.
  - destruct (JSString.is_digit c) eqn:Hc.
    + exists post. split; [|assumption].
      change ((String c (JSString.digits s) ++ post)%string)
        with (String c (JSString.digits s ++ post)%string).
      f_equal. exact Hs.
    + exists (String c s). split; [reflexivity|]. cbn. rewrite Hc. reflexivity.
Qed.

Lemma digits_idem (s : string) : JSString.digits (JSString.digits s) = JSString.digits s.
Proof.
  induction s as [|c s IH]; cbn [JSString.digits]; [reflexivity|].
  destruct (JSString.is_digit c) eqn:Hc; [|reflexivity].
  cbn [JSString.digits]. rewrite Hc, IH. reflexivity.
Qed.

Lemma digits_head (c : ascii) (s : string) :
  JSString.is_digit c = true -> JSString.digits (String c s) <> "".
Proof. intros Hc. cbn. rewrite Hc. discriminate. Qed.

Lemma digits_nonempty_head (s : string) :
  JSString.digits s <> "" -> exists c s', s = String c s' /\ JSString.is_digit c = true.
Proof.
  destruct s as [|c s]; cbn; [congruence|].
  destruct (JSString.is_digit c) eqn:Hc; [|congruence].
  intros _. exists c, s. split; [reflexivity | exact Hc].
Qed.

Lemma getTikTokId_unfold (url : string) :
  getTikTokId url =
  match JSString.strip_prefix "/video/" url with
  | Some rest =>
      match JSString.digits rest with
      | EmptyString =>
          match url with
          | EmptyString => None
          | String _ url' => getTikTokId url'
          end
      | ds => Some ds
      end
  | None =>
      match url with
      | EmptyString => None
      | String _ url' => getTikTokId url'
      end
  end.
Proof.
  destruct url as [|c url]; [reflexivity|].
  cbn [getTikTokId].
  destruct (JSString.strip_prefix "/video/" (String c url)) as [rest|]; [|reflexivity].
  destruct (JSString.digits rest); reflexivity.
Qed.

Lemma id_here_spec (s : string) :
  id_here s <->
  exists rest, JSString.strip_prefix "/video/" s = Some rest /\ JSString.digits rest <> "".
Proof.
  split.
  - intros (c & rest & -> & Hc). exists (String c rest). split.
    + apply strip_prefix_app. reflexivity.
    + apply digits_head. assumption.
  - intros (rest & Hs & Hd). apply strip_prefix_app in Hs.
    destruct (digits_nonempty_head rest Hd) as (c & s' & -> & Hc).
    exists c, s'. split; assumption.
Qed.

Lemma getTikTokId_nonempty (url ds : string) :
  getTikTokId url = Some ds -> ds <> "".
Proof.
  induction url as [|c url IH]; rewrite getTikTokId_unfold.
  - cbn. discriminate.
  - destruct (JSString.strip_prefix "/video/" (String c url)) as [rest|]; [|exact IH].
    destruct (JSString.digits rest); [exact IH|]. intros [= <-]. discriminate.
Qed.

(** X1.  When [getTikTokId] returns an id, the id is a non-empty run of
    digits, the URL reads [pre ++ "/video/" ++ id ++ post] where [post] does
    not start with a digit (the run is maximal), and no earlier position of
    the URL has ["/video/"] followed by a digit (the match is the leftmost
    one). *)
Theorem getTikTokId_sound (url ds : string) :
  getTikTokId url = Some ds ->
  ds <> "" /\ JSString.digits ds = ds /\
  exists pre post,
    url = (pre ++ "/video/" ++ ds ++ post)%string /\
    JSString.digits post = "" /\
    forall p q, pre = (p ++ q)%string -> q <> "" ->
                ~ id_here (q ++ "/video/" ++ ds ++ post)%string.
Proof.
  revert ds. induction url as [|c url IH]; intros ds; rewrite getTikTokId_unfold.
  - cbn. discriminate.
  - destruct (JSString.strip_prefix "/video/" (String c url)) as [rest|] eqn:Hs.
    + destruct (JSString.digits rest) as [|d0 dr] eqn:Hd.
      * intros Hrec. destruct (IH ds Hrec) as (Hne & Hdd & pre & post & -> & Hpost & Hleft).
        split; [assumption|]. split; [assumption|].
        exists (String c pre), post. split; [reflexivity|]. split; [assumption|].
        intros p q Hpq Hq. destruct p as [|c' p].
        -- rewrite append_nil_l in Hpq. subst q. intros Hhere. apply id_here_spec in Hhere.
           destruct Hhere as (rest' & Hs' & Hd').
           change ((String c pre ++ "/video/" ++ ds ++ post)%string)
             with (String c (pre ++ "/video/" ++ ds ++ post)%string) in Hs'.
           rewrite Hs in Hs'. injection Hs' as <-. congruence.
        -- rewrite append_cons in Hpq. injection Hpq as _ ->. apply Hleft with (p := p); [reflexivity|assumption].
      * intros [= <-]. split; [discriminate|].
        split; [rewrite <- Hd; apply digits_idem|].
        destruct (digits_split rest) as (post & Hrest & Hpost).
        apply strip_prefix_app in Hs.
        exists "", post. split.
        -- rewrite append_nil_l, Hs, <- Hd, <- Hrest. reflexivity.
        -- split; [assumption|]. intros p q Hpq Hq. destruct p; [rewrite append_nil_l in Hpq; congruence | discriminate].
    + intros Hrec. destruct (IH ds Hrec) as (Hne & Hdd & pre & post & -> & Hpost & Hleft).
      split; [assumption|]. split; [assumption|].
      exists (String c pre), post. split; [reflexivity|]. split; [assumption|].
      intros p q Hpq Hq. destruct p as [|c' p].
      * rewrite append_nil_l in Hpq. subst q. intros Hhere. apply id_here_spec in Hhere.
        destruct Hhere as (rest' & Hs' & _).
        change ((String c pre ++ "/video/" ++ ds ++ post)%string)
          with (String c (pre ++ "/video/" ++ ds ++ post)%string) in Hs'.
        congruence.
      * rewrite append_cons in Hpq. injection Hpq as _ ->. apply Hleft with (p := p); [reflexivity|assumption].
Qed.

Lemma getTikTokId_sound_witness :
  getTikTokId demo_url = Some "7301" /\
  exists pre post, demo_url = (pre ++ "/video/" ++ "7301" ++ post)%string.
Proof.
  split; [reflexivity|].
  destruct (getTikTokId_sound demo_url "7301" eq_refl) as (_ & _ & pre & post & Hurl & _).
  exists pre, post. exact Hurl.
Defined.

(** X2.  [getTikTokId] returns [null] exactly when no position of the URL
    has ["/video/"] followed by a digit. *)
Theorem getTikTokId_complete (url : string) :
  getTikTokId url = None <->
  forall pre rest, url = (pre ++ rest)%string -> ~ id_here rest.
Proof.
  induction url as [|c url IH]; rewrite getTikTokId_unfold.
  - cbn. split; [|reflexivity]. intros _ pre rest Heq (c & r & -> & _).
    destruct pre; discriminate.
  - destruct (JSString.strip_prefix "/video/" (String c url)) as [rest0|] eqn:Hs.
    + destruct (JSString.digits rest0) as [|d0 dr] eqn:Hd.
      * rewrite IH. split.
        -- intros Hno pre rest Heq. destruct pre as [|c' pre].
           ++ rewrite append_nil_l in Heq. subst rest. intros Hhere. apply id_here_spec in Hhere.
              destruct Hhere as (r' & Hs' & Hd'). rewrite Hs in Hs'. injection Hs' as <-.
              congruence.
           ++ rewrite append_cons in Heq. injection Heq as _ ->. apply (Hno pre rest). reflexivity.
        -- intros Hno pre rest ->. apply (Hno (String c pre) rest). reflexivity.
      * split; [discriminate|]. intros Hno. exfalso.
        apply (Hno "" (String c url) eq_refl). apply id_here_spec.
        exists rest0. split; [assumption|]. rewrite Hd. discriminate.
    + rewrite IH. split.
      * intros Hno pre rest Heq. destruct pre as [|c' pre].
        -- rewrite append_nil_l in Heq. subst rest. intros Hhere. apply id_here_spec in Hhere.
           destruct Hhere as (r' & Hs' & _). congruence.
        -- rewrite append_cons in Heq. injection Heq as _ ->. apply (Hno pre rest). reflexivity.
      * intros Hno pre rest ->. apply (Hno (String c pre) rest). reflexivity.
Qed.

(** X3.  A start accepts a source exactly when ["tiktok.com"] occurs
    somewhere in it, whatever stands before and after. *)
Theorem start_accepts_substring (url : string) :
  invalid_source url = false <->
  exists pre post, url = (pre ++ "tiktok.com" ++ post)%string.
Proof.
  unfold invalid_source. rewrite <- includes_app.
  destruct (String.eqb_spec url "") as [->|Hne]; cbn [orb].
  - split; [discriminate|]. cbn. discriminate.
  - rewrite negb_false_iff. reflexivity.
Qed.

(** ** The start and the analysis *)

(** X4.  A start that passes the validation, whatever the state it is
    clicked in, sets the status to [PROCESSING], the counter and the
    progress to 0, clears the analysis, raises the analyzing flag, appends
    the three informational entries (the second names the id found by
    [getTikTokId], or [Generic_Stream]), leaves URL, target and active
    server alone, starts the timer and sends one analysis request for the
    URL. *)
Theorem valid_start_begins_campaign `{Builtins} (w : World) (t1 t2 t3 : string) :
  status (app w) <> PROCESSING ->
  invalid_source (videoUrl (app w)) = false ->
  exists w',
    step w (ClickStart t1 t2 t3) = Next w' /\
    status (app w') = PROCESSING /\
    currentViews (app w') = 0 /\
    progress (app w') = Some 0 /\
    analysis (app w') = None /\
    isAnalyzing (app w') = true /\
    videoUrl (app w') = videoUrl (app w) /\
    targetViews (app w') = targetViews (app w) /\
    activeServer (app w') = activeServer (app w) /\
    logs (app w') =
    JSString.slice_last 100 (logs (app w) ++ start_entries t1 t2 t3 (videoUrl (app w))) /\
    interval w' = true /\
    pending w' = pending w ++ [videoUrl (app w)].
Proof.
  intros Hst Hv. apply BoostStatus_eqb_neq in Hst.
  eexists. unfold step. rewrite Hst. unfold handleStartBoost. rewrite Hv.
  unfold render. split; [reflexivity|]. cbn.
  repeat split.
  - rewrite slice_last_app_slice, <- app_assoc.
    rewrite slice_last_app_slice, <- app_assoc.
    unfold start_entries. cbn [app].
    destruct (getTikTokId (videoUrl (app w))) as [i|] eqn:Hid; [|reflexivity].
    pose proof (getTikTokId_nonempty _ _ Hid) as Hne.
    apply String.eqb_neq in Hne. rewrite Hne. reflexivity.
  - rewrite useEffect_sync; cbn; [reflexivity|].
    intros Heq. rewrite Heq in Hst. discriminate.
Qed.

Lemma valid_start_begins_campaign_witness :
  exists w',
    @step literal_parser demo_ready (ClickStart "09:00:00" "09:00:00" "09:00:01") = Next w' /\
    status (app w') = PROCESSING /\ interval w' = true /\ pending w' = [demo_url] /\
    logs (app w') = start_entries "09:00:00" "09:00:00" "09:00:01" demo_url.
Proof.
  destruct (@valid_start_begins_campaign literal_parser demo_ready
              "09:00:00" "09:00:00" "09:00:01")
    as (w' & Hstep & Hs & _ & _ & _ & _ & _ & _ & _ & Hl & Hi & Hp).
  - discriminate.
  - reflexivity.
  - exists w'. repeat split; assumption.
Defined.

(** X5.  Whatever the service does, the reach and the recommendations of
    the result are truthy values (never [null], [false], 0 or an empty
    string), and the score is truthy or the number 0. *)
Theorem analysis_fields_never_blank `{Builtins} (videoUrl : string) (outcome : ServiceOutcome) :
  let res := analyzeTikTokContent videoUrl outcome in
  (truthy (score res) = true \/ score res = JNumber 0) /\
  (truthy (recommendations res) = true) /\
  (truthy (estimatedReach res) = true).
Proof.
  assert (Hor : forall v d, truthy d = true -> truthy (or_else v d) = true).
  { intros [x|] d Hd; cbn; [|assumption]. destruct (truthy x) eqn:Hx; assumption. }
  assert (Hsc : forall v, truthy (or_else v (JNumber 0)) = true \/ or_else v (JNumber 0) = JNumber 0).
  { intros [x|]; cbn; [|right; reflexivity].
    destruct (truthy x) eqn:Hx; [left; assumption | right; reflexivity]. }
  cbv zeta. unfold analyzeTikTokContent.
  destruct outcome as [|text].
  - cbn. auto.
  - destruct (JSON_parse (text_or_empty_object text)) as [result|]; [|cbn; auto].
    destruct (get result "score") as [s|]; [|cbn; auto].
    destruct (get result "recommendations") as [r|]; [|cbn; auto].
    destruct (get result "estimatedReach") as [e|]; [|cbn; auto].
    cbn [score recommendations estimatedReach].
    split; [apply Hsc|]. split; apply Hor; reflexivity.
Qed.

(** X6.  A response whose text is [undefined], empty or ["{}"] is not a
    failure: given that [JSON.parse("{}")] is the empty object, the result
    is score 0, no recommendation and reach ["Unknown"], which is not the
    fallback. *)
Theorem empty_response_gives_defaults `{Builtins} (videoUrl : string) (text : option string) :
  JSON_parse "{}" = Some (JObject []) ->
  text = None \/ text = Some "" \/ text = Some "{}" ->
  analyzeTikTokContent videoUrl (Responds text) = defaults /\
  defaults <> fallback.
Proof.
  intros Hparse Htext. split; [|discriminate].
  unfold analyzeTikTokContent.
  replace (text_or_empty_object text) with "{}"
    by (destruct Htext as [-> | [-> | ->]]; reflexivity).
  rewrite Hparse. reflexivity.
Qed.

Lemma empty_response_gives_defaults_witness :
  @analyzeTikTokContent literal_parser demo_url (Responds None) = defaults.
Proof.
  apply (@empty_response_gives_defaults literal_parser demo_url None).
  - reflexivity.
  - left. reflexivity.
Defined.

(** X7.  A reset does not cancel the analysis request: when a request is
    in flight at the reset and settles afterwards, and the panel can be
    drawn from its result, the result is stored in the analysis that the
    reset had cleared and a success entry is logged, while the status stays
    [IDLE], the counter 0 and the timer as it was; when the panel cannot be
    drawn from the result, the render throws. *)
Theorem analysis_settles_after_reset `{Builtins} (w : World) (k : nat) (url : string)
    (outcome : ServiceOutcome) (now1 now2 : string) :
  status (app w) = PROCESSING ->
  nth_error (pending w) k = Some url ->
  exists w1,
    step w (ClickAbort now1) = Next w1 /\
    analysis (app w1) = None /\
    (panel_renders (analyzeTikTokContent url outcome) = false ->
     step w1 (AnalysisSettles k outcome now2) = Crash) /\
    (panel_renders (analyzeTikTokContent url outcome) = true ->
     exists w2,
       step w1 (AnalysisSettles k outcome now2) = Next w2 /\
       status (app w2) = IDLE /\
       currentViews (app w2) = 0 /\
       interval w2 = interval w1 /\
       analysis (app w2) = Some (analyzeTikTokContent url outcome) /\
       isAnalyzing (app w2) = false /\
       logs (app w2) = [reset_entry now1; analysis_entry now2] /\
       pending w2 = remove_nth k (pending w)).
Proof.
  intros Hs Hk.
  eexists. unfold step at 1. rewrite Hs. cbn [BoostStatus_eqb]. unfold render.
  split; [reflexivity|]. split; [reflexivity|].
  unfold step. cbn [app pending interval]. rewrite Hk. cbv zeta. split.
  - intros ->. reflexivity.
  - intros ->. unfold render. eexists. split; [reflexivity|].
    cbn [app pending interval]. repeat split.
    rewrite useEffect_same_deps; reflexivity.
Qed.

Lemma analysis_settles_after_reset_witness :
  exists w1 w2,
    @step literal_parser demo_ticked (ClickAbort "12:00:01") = Next w1 /\
    @step literal_parser w1 (AnalysisSettles 0 Throws "12:00:02") = Next w2 /\
    status (app w2) = IDLE /\
    analysis (app w2) = Some fallback.
Proof.
  destruct (@analysis_settles_after_reset literal_parser demo_ticked 0%nat demo_url Throws
              "12:00:01" "12:00:02")
    as (w1 & H1 & _ & _ & Hok).
  - vm_compute. reflexivity.
  - vm_compute. reflexivity.
  - destruct (Hok eq_refl) as (w2 & H2 & Hs & _ & _ & Ha & _).
    exists w1, w2. repeat split; assumption.
Defined.

Lemma valid_quiet_draws : valid_draws quiet_draws.
Proof.
  split; [|split; [|split]]; try (split; unfold Qle, Qlt; cbn; lia); reflexivity.
Qed.

Lemma long_started_reachable : @reachable literal_parser long_started.
Proof.
  apply (@run_reachable literal_parser long_campaign mount).
  - apply reachable_mount.
  - repeat constructor.
  - vm_compute. reflexivity.
Qed.

(** X8.  In every state the component can be in, the analyzing flag is
    raised only while an analysis request is in flight. *)
Theorem analyzing_implies_request_in_flight `{Builtins} (w : World) :
  reachable w -> isAnalyzing (app w) = true -> pending w <> [].
Proof.
  induction 1 as [|w e w' _ IH _ Hstep]; [discriminate|].
  revert Hstep. unfold step, render.
  destruct e as [url|n|k|t1 t2 t3|now|d|k outcome now].
  - destruct (BoostStatus_eqb _ _); [discriminate|]. intros [= <-]. exact IH.
  - destruct (BoostStatus_eqb _ _); [discriminate|]. intros [= <-]. exact IH.
  - destruct (BoostStatus_eqb _ _); [discriminate|].
    destruct (nth_error _ _); [|discriminate]. intros [= <-]. exact IH.
  - destruct (BoostStatus_eqb _ _); [discriminate|].
    unfold handleStartBoost. destruct (invalid_source _).
    + intros [= <-]. cbn. rewrite app_nil_r. exact IH.
    + intros [= <-]. cbn. intros _ Hnil. apply app_eq_nil in Hnil. destruct Hnil; discriminate.
  - destruct (BoostStatus_eqb _ _); [|discriminate]. intros [= <-]. exact IH.
  - destruct (interval w); [|discriminate]. unfold tick.
    destruct (targetViews (app w) <=? currentViews (app w)).
    + intros [= <-]. exact IH.
    + destruct (rotate d (app w)) as [s1|] eqn:Hrot; [|discriminate].
      pose proof (rotate_fields _ _ _ Hrot) as (_ & _ & _ & _ & _ & Hia & _).
      intros [= <-]. cbn. rewrite Hia. exact IH.
  - destruct (nth_error _ _); [|discriminate].
    cbv zeta. destruct (panel_renders _); [|discriminate].
    intros [= <-]. cbn. discriminate.
Qed.

Lemma analyzing_implies_request_in_flight_witness : pending long_started <> [].
Proof.
  apply (@analyzing_implies_request_in_flight literal_parser long_started).
  - exact long_started_reachable.
  - vm_compute. reflexivity.
Defined.

(** ** The timer and the counter *)

(** X9.  In every state the component can be in, the timer is live
    exactly when the status is [PROCESSING]; in any other status no tick
    can fire. *)
Theorem timer_live_iff_processing `{Builtins} (w : World) :
  reachable w ->
  (interval w = true <-> status (app w) = PROCESSING) /\
  (status (app w) <> PROCESSING -> forall d, step w (TimerFires d) = NotEnabled).
Proof.
  intros Hreach. apply reachable_invariant in Hreach.
  destruct Hreach as [_ _ _ Htm _ _ _].
  split.
  - rewrite Htm. apply BoostStatus_eqb_eq.
  - intros Hs d. apply BoostStatus_eqb_neq in Hs. unfold step. rewrite Htm, Hs. reflexivity.
Qed.

Lemma timer_live_iff_processing_witness :
  interval demo_ticked = true <-> status (app demo_ticked) = PROCESSING.
Proof.
  apply (@timer_live_iff_processing literal_parser demo_ticked).
  exact demo_ticked_reachable.
Defined.

(** X10.  The tick that completes a campaign with a positive target sets
    the status to [COMPLETED] with the counter at the target, leaves the
    progress at 100 and the active server as it was, and clears the
    timer. *)
Theorem completion_shows_full_progress `{Builtins} (w w' : World) (d : TickDraws) :
  reachable w ->
  0 < targetViews (app w) ->
  targetViews (app w) <= currentViews (app w) ->
  step w (TimerFires d) = Next w' ->
  status (app w') = COMPLETED /\
  currentViews (app w') = targetViews (app w') /\
  progress (app w') = Some 100 /\
  activeServer (app w') = activeServer (app w) /\
  interval w' = false.
Proof.
  intros Hreach Hpos Hdone Hstep.
  apply reachable_invariant in Hreach.
  destruct Hreach as [_ _ _ Htm Hcnt Hprg Htgt].
  apply step_timer in Hstep. destruct Hstep as (Hi & s' & cleared & Htick & ->).
  rewrite Hi in Htm. symmetry in Htm. apply BoostStatus_eqb_eq in Htm.
  rewrite tick_done in Htick by assumption. injection Htick as <- <-. cbn.
  repeat split.
  - rewrite (Hprg Htm Hpos).
    destruct (Hcnt Htm) as [_ Hct].
    replace (currentViews (app w)) with (targetViews (app w)) by lia.
    apply percent_full. lia.
  - rewrite useEffect_sync; cbn; [reflexivity|]. rewrite Htm. discriminate.
Qed.

Lemma completion_shows_full_progress_witness :
  exists w', @step literal_parser demo_ticked (TimerFires demo_draws) = Next w' /\
             status (app w') = COMPLETED /\ progress (app w') = Some 100.
Proof.
  exists (world_of (@step literal_parser demo_ticked (TimerFires demo_draws))).
  split; [vm_compute; reflexivity|].
  destruct (@completion_shows_full_progress literal_parser demo_ticked
              (world_of (@step literal_parser demo_ticked (TimerFires demo_draws)))
              demo_draws demo_ticked_reachable)
    as (Hs & _ & Hp & _).
  - reflexivity.
  - vm_compute. discriminate.
  - vm_compute. reflexivity.
  - split; assumption.
Defined.

(** X11.  A tick below the target whose rotation draw does not exceed
    0.85 changes the counter and the progress only: the active server, the
    log, the status, the analysis and the target stay as they were, and the
    timer stays live. *)
Theorem quiet_tick_changes_counter_only `{Builtins} (w w' : World) (d : TickDraws) :
  currentViews (app w) < targetViews (app w) ->
  JSNumber.gtb (r_rotation d) (85 # 100) = false ->
  step w (TimerFires d) = Next w' ->
  activeServer (app w') = activeServer (app w) /\
  logs (app w') = logs (app w) /\
  status (app w') = status (app w) /\
  analysis (app w') = analysis (app w) /\
  targetViews (app w') = targetViews (app w) /\
  interval w' = true /\
  pending w' = pending w.
Proof.
  intros Hrun Hrot Hstep.
  apply step_timer in Hstep. destruct Hstep as (Hi & s' & cleared & Htick & ->).
  unfold tick in Htick.
  destruct (Z.leb_spec (targetViews (app w)) (currentViews (app w))); [lia|].
  unfold rotate in Htick. rewrite Hrot in Htick. injection Htick as <- <-.
  cbn. repeat split. rewrite useEffect_same_deps; [assumption | reflexivity ..].
Qed.

Lemma quiet_tick_changes_counter_only_witness :
  exists w', @step literal_parser long_started (TimerFires quiet_draws) = Next w' /\
             logs (app w') = logs (app long_started) /\
             activeServer (app w') = us_east_1.
Proof.
  exists (world_of (@step literal_parser long_started (TimerFires quiet_draws))).
  split; [vm_compute; reflexivity|].
  destruct (@quiet_tick_changes_counter_only literal_parser long_started
              (world_of (@step literal_parser long_started (TimerFires quiet_draws)))
              quiet_draws)
    as (Ha & Hl & _).
  - vm_compute. reflexivity.
  - vm_compute. reflexivity.
  - vm_compute. reflexivity.
  - split; [exact Hl | rewrite Ha; reflexivity].
Defined.

(** X12.  A campaign cannot end early: with counts that are safe
    integers, while [34 * n] more views do not reach the target, [n]
    firings of the timer leave the campaign [PROCESSING] with the timer
    live, and advance the counter by at least [10 * n] and at most
    [34 * n]. *)
Theorem campaign_lasts_at_least `{Builtins} (ds : list TickDraws) (w : World) :
  interval w = true ->
  status (app w) = PROCESSING ->
  Forall valid_draws ds ->
  - JSNumber.MAX_SAFE_INTEGER <= currentViews (app w) ->
  targetViews (app w) <= JSNumber.MAX_SAFE_INTEGER ->
  currentViews (app w) + 34 * Z.of_nat (List.length ds) < targetViews (app w) ->
  exists w',
    tick_loop ds w = Next w' /\
    interval w' = true /\
    status (app w') = PROCESSING /\
    targetViews (app w') = targetViews (app w) /\
    currentViews (app w) + 10 * Z.of_nat (List.length ds) <= currentViews (app w') /\
    currentViews (app w') <= currentViews (app w) + 34 * Z.of_nat (List.length ds).
Proof.
  revert w. induction ds as [|d ds IH]; intros w Hi Hs Hds Hsafe Hmax Hlt.
  - exists w. cbn. repeat split; try assumption; lia.
  - inversion Hds as [|? ? Hd Hds']; subst.
    cbn [tick_loop]. rewrite Hi. unfold step. rewrite Hi.
    cbn [List.length] in Hlt. rewrite Nat2Z.inj_succ in Hlt.
    destruct Hd as (_ & Hpick & _ & Hinc).
    pose proof (increment_bounds d Hinc) as Hb.
    destruct (tick_running d (app w) Hpick ltac:(lia)) as (s1 & Hrot & ->).
    pose proof (rotate_fields _ _ _ Hrot) as (_ & Ht1 & _ & Hs1 & _).
    unfold render. cbv beta iota.
    match goal with
    | |- exists w', tick_loop ds ?x = _ /\ _ =>
        destruct (IH x) as (w' & Hloop & Hi' & Hs' & Ht' & Hlo & Hhi)
    end.
    + cbn. rewrite useEffect_sync; cbn; rewrite Hs1, Hs; reflexivity.
    + cbn. congruence.
    + assumption.
    + cbn [app currentViews targetViews setCurrentViews setProgress]. lia.
    + cbn [app currentViews targetViews setCurrentViews setProgress]. rewrite Ht1. lia.
    + cbn [app currentViews targetViews setCurrentViews setProgress]. rewrite Ht1. lia.
    + exists w'.
      cbn [app currentViews targetViews setCurrentViews setProgress] in Ht', Hlo, Hhi.
      rewrite Ht1 in Ht'.
      cbn [List.length]. rewrite Nat2Z.inj_succ.
      repeat split; try assumption; lia.
Qed.

Lemma campaign_lasts_at_least_witness :
  exists w',
    @tick_loop literal_parser (repeat demo_draws 10) long_started = Next w' /\
    status (app w') = PROCESSING /\
    100 <= currentViews (app w') <= 340.
Proof.
  destruct (@campaign_lasts_at_least literal_parser (repeat demo_draws 10) long_started)
    as (w' & Hloop & _ & Hs & _ & Hlo & Hhi).
  - vm_compute. reflexivity.
  - vm_compute. reflexivity.
  - apply valid_repeat, valid_demo_draws.
  - vm_compute. discriminate.
  - vm_compute. discriminate.
  - vm_compute. reflexivity.
  - exists w'. split; [exact Hloop|]. split; [exact Hs|].
    change (currentViews (app long_started)) with 0 in Hlo, Hhi.
    change (Z.of_nat (List.length (repeat demo_draws 10))) with 10 in Hlo, Hhi.
    lia.
Defined.

(** X13.  While the status is [PROCESSING], no event changes the target
    or the URL (the inputs and the presets are disabled). *)
Theorem settings_locked_while_processing `{Builtins} (w w' : World) (e : Event) :
  status (app w) = PROCESSING ->
  step w e = Next w' ->
  targetViews (app w') = targetViews (app w) /\
  videoUrl (app w') = videoUrl (app w).
Proof.
  intros Hs. unfold step, render. rewrite Hs. cbn [BoostStatus_eqb].
  destruct e as [url|n|k|t1 t2 t3|now|d|k outcome now]; try discriminate.
  - intros [= <-]. split; reflexivity.
  - destruct (interval w); [|discriminate]. unfold tick.
    destruct (targetViews (app w) <=? currentViews (app w)).
    + intros [= <-]. split; reflexivity.
    + destruct (rotate d (app w)) as [s1|] eqn:Hrot; [|discriminate].
      pose proof (rotate_fields _ _ _ Hrot) as (Hu & Ht & _).
      intros [= <-]. cbn. split; assumption.
  - destruct (nth_error (pending w) k); [|discriminate].
    cbv zeta. destruct (panel_renders _); [|discriminate].
    intros [= <-]. split; reflexivity.
Qed.

Lemma settings_locked_while_processing_witness :
  @step literal_parser long_started (TypeTarget 1) = NotEnabled /\
  targetViews (app (world_of (@step literal_parser long_started (TimerFires demo_draws))))
  = 500.
Proof.
  split; [vm_compute; reflexivity|].
  destruct (@settings_locked_while_processing literal_parser long_started
              (world_of (@step literal_parser long_started (TimerFires demo_draws)))
              (TimerFires demo_draws))
    as (Ht & _).
  - vm_compute. reflexivity.
  - vm_compute. reflexivity.
  - rewrite Ht. reflexivity.
Defined.

(** X14.  In every state of a running campaign the counter is not
    negative; it does not exceed a target that is not negative, and it is
    0 when the target is negative. *)
Theorem counter_in_range_while_processing `{Builtins} (w : World) :
  reachable w ->
  status (app w) = PROCESSING ->
  0 <= currentViews (app w) /\
  (0 <= targetViews (app w) -> currentViews (app w) <= targetViews (app w)) /\
  (targetViews (app w) < 0 -> currentViews (app w) = 0).
Proof.
  intros Hreach. 
  assert (Hneg : status (app w) = PROCESSING -> targetViews (app w) < 0 -> currentViews (app w) = 0).
  { induction Hreach as [|w e w' Hreach IH Hposs Hstep]; [discriminate|].
    pose proof (reachable_invariant _ Hreach) as [_ _ _ Htm _ _ _].
    revert Hstep. unfold step, render.
    destruct e as [url|n|k|t1 t2 t3|now|d|k outcome now].
    - destruct (BoostStatus_eqb _ _) eqn:Hp; [discriminate|]. intros [= <-]. cbn.
      intros Hs. rewrite Hs in Hp. discriminate.
    - destruct (BoostStatus_eqb _ _) eqn:Hp; [discriminate|]. intros [= <-]. cbn.
      intros Hs. rewrite Hs in Hp. discriminate.
    - destruct (BoostStatus_eqb _ _) eqn:Hp; [discriminate|].
      destruct (nth_error _ _); [|discriminate]. intros [= <-]. cbn.
      intros Hs. rewrite Hs in Hp. discriminate.
    - destruct (BoostStatus_eqb _ _) eqn:Hp; [discriminate|].
      unfold handleStartBoost. destruct (invalid_source _).
      + intros [= <-]. cbn. intros Hs. rewrite Hs in Hp. discriminate.
      + intros [= <-]. cbn. reflexivity.
    - destruct (BoostStatus_eqb _ _); [|discriminate]. intros [= <-]. cbn. discriminate.
    - destruct (interval w) eqn:Hi; [|discriminate].
      symmetry in Htm. apply BoostStatus_eqb_eq in Htm. unfold tick.
      destruct (Z.leb_spec (targetViews (app w)) (currentViews (app w))).
      + intros [= <-]. cbn. discriminate.
      + destruct (rotate d (app w)) as [s1|] eqn:Hrot; [|discriminate].
        pose proof (rotate_fields _ _ _ Hrot) as (_ & Ht1 & _).
        intros [= <-]. cbn. rewrite Ht1. intros _ Hlt.
        specialize (IH Htm Hlt). lia.
    - destruct (nth_error _ _); [|discriminate].
      cbv zeta. destruct (panel_renders _); [|discriminate].
      intros [= <-]. cbn. exact IH. }
  intros Hs. apply reachable_invariant in Hreach.
  destruct Hreach as [_ _ _ _ Hcnt _ _]. destruct (Hcnt Hs) as [H0 Hle].
  split; [assumption|]. split; [assumption|]. apply Hneg. assumption.
Qed.

Lemma counter_in_range_while_processing_witness :
  0 <= currentViews (app demo_ticked) <= targetViews (app demo_ticked).
Proof.
  destruct (@counter_in_range_while_processing literal_parser demo_ticked
              demo_ticked_reachable)
    as (H0 & Hle & _).
  - vm_compute. reflexivity.
  - split; [exact H0|]. apply Hle. vm_compute. discriminate.
Defined.

(** ** The log and the grid *)

Lemma addLog_fields (now msg : string) (ty : LogType) (s : AppState) :
  addLog now msg ty s =
  setLogs (JSString.slice_last 100
             (logs s ++ [{| timestamp := now; message := msg; type := ty |}])) s.
Proof. reflexivity. Qed.

(** X16.  Logging several entries one after the other, on a history of
    at most 100 entries, leaves the last 100 entries of the old history
    followed by all the new ones, and changes nothing else. *)
Theorem addLogs_keeps_last_100 (entries : list LogEntry) (s : AppState) :
  (List.length (logs s) <= 100)%nat ->
  addLogs entries s = setLogs (JSString.slice_last 100 (logs s ++ entries)) s.
Proof.
  revert s. induction entries as [|e es IH]; intros s Hl; cbn [addLogs fold_left].
  - rewrite app_nil_r, slice_last_all by assumption. destruct s; reflexivity.
  - fold (addLogs es (addLog (timestamp e) (message e) (type e) s)).
    rewrite IH by apply addLog_length.
    rewrite addLog_fields. cbn [logs setLogs].
    destruct e as [ts msg ty]. cbn [timestamp message type].
    rewrite slice_last_app_slice, <- app_assoc. reflexivity.
Qed.

Lemma addLogs_keeps_last_100_witness :
  logs (addLogs (start_entries "a" "b" "c" demo_url) (app demo_ticked)) =
  JSString.slice_last 100 (logs (app demo_ticked) ++ start_entries "a" "b" "c" demo_url).
Proof.
  rewrite (addLogs_keeps_last_100 (start_entries "a" "b" "c" demo_url) (app demo_ticked)).
  - reflexivity.
  - vm_compute. lia.
Defined.

(** X17.  In every state the component can be in, the network grid shows
    exactly one node as routing and the four others as standing by, and
    the routing one is the active server. *)
Theorem grid_shows_one_routing_node `{Builtins} (w : World) :
  reachable w ->
  count_occ string_dec (networkGrid (app w)) "ROUTING_VIEWS..." = 1%nat /\
  count_occ string_dec (networkGrid (app w)) "STDBY_READY" = 4%nat /\
  forall node, In node SERVER_NODES ->
    (nodeLabel (app w) node = "ROUTING_VIEWS..." <-> node = activeServer (app w)).
Proof.
  intros Hreach. apply reachable_invariant in Hreach.
  destruct Hreach as [_ Hsrv _ _ _ _ _].
  unfold networkGrid, nodeLabel.
  generalize dependent (activeServer (app w)). intros a Ha.
  cbn in Ha.
  repeat destruct Ha as [<- | Ha]; try contradiction;
    (split; [reflexivity|]; split; [reflexivity|];
     intros node Hn; cbn in Hn;
     repeat destruct Hn as [<- | Hn]; try contradiction;
     cbn; split; intros Heq; try reflexivity; discriminate).
Qed.

Lemma grid_shows_one_routing_node_witness :
  networkGrid (app demo_ticked) =
  ["STDBY_READY"; "STDBY_READY"; "STDBY_READY"; "ROUTING_VIEWS..."; "STDBY_READY"]%string
  /\ count_occ string_dec (networkGrid (app demo_ticked)) "ROUTING_VIEWS..." = 1%nat.
Proof.
  split; [vm_compute; reflexivity|].
  apply (@grid_shows_one_routing_node literal_parser demo_ticked).
  exact demo_ticked_reachable.
Defined.

(** ** The progress percentage in binary64 *)

(** X18.  [Math.floor((count / target) * 100)], computed in binary64 for
    a target that is a positive safe integer: no views are 0%, all the
    views are 100%, and any count in between is an integer percentage
    between 0 and 100. *)
Theorem percent_in_range (nextVal targetViews : Z) :
  0 <= nextVal <= targetViews ->
  0 < targetViews <= JSNumber.MAX_SAFE_INTEGER ->
  percent 0 targetViews = Some 0 /\
  percent targetViews targetViews = Some 100 /\
  exists p, percent nextVal targetViews = Some p /\ 0 <= p <= 100.
Proof.
  intros Hn Ht. split; [apply percent_zero; lia|].
  split; [apply percent_full; assumption|].
  apply percent_bounds; assumption.
Qed.

Lemma percent_in_range_witness :
  percent 0 100 = Some 0 /\ percent 100 100 = Some 100 /\
  exists p, percent 29 100 = Some p /\ 0 <= p <= 100.
Proof.
  apply (percent_in_range 29 100).
  - lia.
  - vm_compute. split; [reflexivity | discriminate].
Defined.

(** X19.  In every state the component can be in, the progress is an
    integer between 0 and 100 (never [NaN] or an infinity). *)
Theorem progress_is_a_percentage `{Builtins} (w : World) :
  reachable w -> exists p, progress (app w) = Some p /\ 0 <= p <= 100.
Proof.
  induction 1 as [|w e w' Hreach IH Hposs Hstep].
  { exists 0. split; [reflexivity | lia]. }
  pose proof (reachable_invariant _ Hreach) as [_ _ _ Htm Hcnt _ Htgt].
  revert Hstep. unfold step, render.
  destruct e as [url|n|k|t1 t2 t3|now|d|k outcome now].
  - destruct (BoostStatus_eqb _ _); [discriminate|]. intros [= <-]. exact IH.
  - destruct (BoostStatus_eqb _ _); [discriminate|]. intros [= <-]. exact IH.
  - destruct (BoostStatus_eqb _ _); [discriminate|].
    destruct (nth_error _ _); [|discriminate]. intros [= <-]. exact IH.
  - destruct (BoostStatus_eqb _ _); [discriminate|].
    unfold handleStartBoost. destruct (invalid_source _).
    + intros [= <-]. exact IH.
    + intros [= <-]. exists 0. split; [reflexivity | lia].
  - destruct (BoostStatus_eqb _ _); [|discriminate]. intros [= <-].
    exists 0. split; [reflexivity | lia].
  - destruct (interval w) eqn:Hi; [|discriminate].
    symmetry in Htm. apply BoostStatus_eqb_eq in Htm.
    destruct (Hcnt Htm) as [Hc0 _]. unfold tick.
    destruct (Z.leb_spec (targetViews (app w)) (currentViews (app w))).
    + intros [= <-]. exact IH.
    + destruct (rotate d (app w)) as [s1|] eqn:Hrot; [|discriminate].
      intros [= <-]. cbn [app progress setCurrentViews setProgress].
      pose proof (increment_bounds d (proj2 (proj2 (proj2 Hposs)))) as Hb.
      apply percent_bounds; lia.
  - destruct (nth_error _ _); [|discriminate].
    cbv zeta. destruct (panel_renders _); [|discriminate].
    intros [= <-]. exact IH.
Qed.

Lemma progress_is_a_percentage_witness :
  exists p, progress (app demo_ticked) = Some p /\ 0 <= p <= 100.
Proof.
  apply (@progress_is_a_percentage literal_parser demo_ticked).
  exact demo_ticked_reachable.
Defined.

(** ** The analysis panel and the handoff entry *)

(** X20.  When the text of the response parses to an object whose
    [recommendations] is a truthy value that is not an array, that value is
    stored as it is, and the render that follows the settling of the
    request throws: the component is gone. *)
Theorem unusable_recommendations_crash `{Builtins} (w : World) (k : nat)
    (url text : string) (props : list (string * json)) (v : json) (now : string) :
  nth_error (pending w) k = Some url ->
  text <> "" ->
  JSON_parse text = Some (JObject props) ->
  lookup "recommendations" props = Some v ->
  truthy v = true ->
  (forall l, v <> JArray l) ->
  recommendations (analyzeTikTokContent url (Responds (Some text))) = v /\
  step w (AnalysisSettles k (Responds (Some text)) now) = Crash.
Proof.
  intros Hk Hne Hparse Hrec Htruthy Harr.
  assert (Hres : recommendations (analyzeTikTokContent url (Responds (Some text))) = v).
  { unfold analyzeTikTokContent, text_or_empty_object.
    apply String.eqb_neq in Hne. rewrite Hne, Hparse. cbn [get].
    rewrite Hrec. cbn [recommendations or_else]. rewrite Htruthy. reflexivity. }
  split; [exact Hres|].
  unfold step. rewrite Hk. cbv zeta. unfold panel_renders. rewrite Hres.
  destruct v as [|b|q|s|l|ps]; try (rewrite andb_false_r; reflexivity).
  exfalso. apply (Harr l). reflexivity.
Qed.

Lemma unusable_recommendations_crash_witness :
  @step (parser_returning unusable) long_started
        (AnalysisSettles 0 (Responds (Some "{...}")) "09:00:02") = Crash.
Proof.
  apply (@unusable_recommendations_crash (parser_returning unusable) long_started 0%nat
           demo_url "{...}" [("recommendations", JString "none")] (JString "none")
           "09:00:02").
  - reflexivity.
  - discriminate.
  - reflexivity.
  - reflexivity.
  - reflexivity.
  - discriminate.
Defined.



(** X22.  The latency of a handoff entry is the floor of a finite number
    and lies between 20 and 119. *)
Theorem handoff_latency_in_range (nextServer : ServerNode) (d : TickDraws) :
  valid_draws d ->
  exists l,
    JSNumber.Math_floor
      (JSNumber.add (JSNumber.mul (r_latency d) (JSNumber.of_Z 100)) (JSNumber.of_Z 20))
    = Some l /\
    20 <= l <= 119 /\
    handoff_message nextServer d =
    ("Handoff to " ++ name nextServer ++ " (" ++ region nextServer ++ ") - Latency: "
     ++ JSNumber.toString l ++ "ms")%string.
Proof.
  intros (_ & _ & Hlat & _).
  destruct (floor_latency _ Hlat) as (l & Hl & Hb).
  exists l. split; [exact Hl|]. split; [exact Hb|].
  unfold handoff_message, JSNumber.floor. rewrite Hl. reflexivity.
Qed.

Lemma handoff_latency_in_range_witness :
  handoff_message br_south_1 demo_draws =
  "Handoff to Sao-Paulo-Delta (South America) - Latency: 53ms".
Proof.
  destruct (handoff_latency_in_range br_south_1 demo_draws valid_demo_draws)
    as (l & Hl & _ & Hmsg).
  rewrite Hmsg. vm_compute in Hl. injection Hl as <-. vm_compute. reflexivity.
Defined.
